(** * PrivateScore: credit scoring, score commitments and simulated proofs

    A shallow embedding of the TypeScript sources
    - [src/unnamed/part_000] and [src/frontend/lib/creditScore.ts]
      (the score engine),
    - [src/frontend/lib/zkProof.ts] (commitments and proof generation),
    - [src/frontend/lib/constants.ts] (configuration tables),
    - [src/tests/private-score.ts] ([HeliusClient]: activity extraction
      and [calculateCreditMetrics]),
    - [src/frontend/components/ScoreDisplay.tsx] (tiers, colours and the
      progress ring).

    A JavaScript [number] is an IEEE 754 binary64 value; it is modelled by
    Rocq's primitive [float], whose operations are the same binary64
    operations rounded to nearest-even.  Exceptions ([throw new Error(..)])
    and rejected promises are values of a [result] type; the reading of
    [Date.now()] is an explicit argument of the functions that consult it. *)

From Stdlib Require Import ZArith List String Ascii Bool Lia Floats.
From Stdlib Require Import DecimalString.
Import ListNotations.

Set Warnings "-inexact-float".

Local Open Scope string_scope.
Local Open Scope Z_scope.

(* ================================================================== *)
(** * The JavaScript run time used by the sources *)
(* ================================================================== *)

Module JS.

Definition number := float.

(** ** Integers as numbers *)

(** [of_int z] is the double nearest to the integer [z]; exact for
    [|z| <= 2^53]. *)
Definition of_int (z : Z) : number :=
  if z <? 0 then PrimFloat.opp (PrimFloat.of_uint63 (Uint63.of_Z (- z)))
  else PrimFloat.of_uint63 (Uint63.of_Z z).

(** The exact value of a finite non-zero double [(-1)^s * m * 2^e] as a
    fraction [num / den] with [den] a power of two. *)
Definition fin_num (s : bool) (m : positive) (e : Z) : Z :=
  (if s then Z.neg m else Z.pos m) * 2 ^ (Z.max e 0).
Definition fin_den (e : Z) : Z := 2 ^ (Z.max (- e) 0).

(** ** Comparison operators *)

(** [a === b] on numbers: false on NaN, true on [+0 === -0]. *)
Definition strict_eq (a b : number) : bool := PrimFloat.eqb a b.
Definition lt (a b : number) : bool := PrimFloat.ltb a b.
Definition le (a b : number) : bool := PrimFloat.leb a b.
Definition gt (a b : number) : bool := PrimFloat.ltb b a.
Definition ge (a b : number) : bool := PrimFloat.leb b a.

(** ** [Math] *)

(** [Math.max(a, b)]: NaN if either is NaN, [+0] above [-0]. *)
Definition Math_max (a b : number) : number :=
  if is_nan a || is_nan b then nan
  else if PrimFloat.ltb a b then b
  else if PrimFloat.ltb b a then a
  else if get_sign a then b else a.

(** [Math.min(a, b)]: NaN if either is NaN, [-0] below [+0]. *)
Definition Math_min (a b : number) : number :=
  if is_nan a || is_nan b then nan
  else if PrimFloat.ltb a b then a
  else if PrimFloat.ltb b a then b
  else if get_sign a then a else b.

(** [Math.min(...xs)]: [+Infinity] for no argument. *)
Definition Math_min_list (xs : list number) : number :=
  fold_left Math_min xs infinity.

(** [Math.floor(x)]: NaN, infinities, zeros and integral values are
    returned unchanged. *)
Definition Math_floor (x : number) : number :=
  match Prim2SF x with
  | S754_finite s m e =>
      if 0 <=? e then x
      else
        let r := fin_num s m e / fin_den e in
        if r =? 0 then zero else of_int r
  | _ => x
  end.

(** [Math.round(x)]: the integral number closest to [x], ties towards
    [+Infinity]; [-0] for [-0.5 <= x < 0]. *)
Definition Math_round (x : number) : number :=
  match Prim2SF x with
  | S754_finite s m e =>
      if 0 <=? e then x
      else
        let r := (2 * fin_num s m e + fin_den e) / (2 * fin_den e) in
        if r =? 0 then (if s then neg_zero else zero) else of_int r
  | _ => x
  end.

(** ** [Number.prototype.toString] and [toFixed] *)

Definition digits_of (n : Z) : string :=
  NilZero.string_of_uint (N.to_uint (Z.to_N n)).

Fixpoint zeros (n : nat) : string :=
  match n with
  | O => EmptyString
  | S n' => String "0" (zeros n')
  end.

(** Comparison of [a * 10^p] with [b * 2^q] for integers [a], [b]. *)
Definition scale10 (p : Z) : Z := 10 ^ (Z.max p 0).
Definition cmp_dec_bin (a p b q : Z) : comparison :=
  (a * scale10 p * 2 ^ (Z.max (- q) 0)) ?= (b * 2 ^ (Z.max q 0) * scale10 (- p)).

(** The decimal exponent [n] with [10^(n-1) <= m * 2^e < 10^n]. *)
Fixpoint up_exp (fuel : nat) (m e n : Z) : Z :=
  match fuel with
  | O => n
  | S f =>
      match cmp_dec_bin 1 n m e with
      | Gt => n
      | _ => up_exp f m e (n + 1)
      end
  end.

Fixpoint down_exp (fuel : nat) (m e n : Z) : Z :=
  match fuel with
  | O => n
  | S f =>
      match cmp_dec_bin 1 (n - 1) m e with
      | Gt => down_exp f m e (n - 1)
      | _ => n
      end
  end.

Definition dec_exp (m e : Z) : Z :=
  let est := (Z.log2 m + e) * 30103 / 100000 in
  up_exp 700 m e (down_exp 700 m e est).

(** [in_interval m e c p]: does the decimal [c * 10^p] round to the double
    with mantissa [m] and exponent [e]?  The interval is written with the
    unit [2^(e-2)]: the double is [4m], its upper midpoint is [4m+2], its
    lower one [4m-2], or [4m-1] at a binade boundary. *)
Definition in_interval (m e c p : Z) : bool :=
  let lo := if (m =? 2 ^ 52) && (-1074 <? e) then 4 * m - 1 else 4 * m - 2 in
  let hi := 4 * m + 2 in
  let q := e - 2 in
  match cmp_dec_bin c p lo q, cmp_dec_bin c p hi q with
  | Gt, Lt => true
  | Eq, Lt | Gt, Eq => Z.even m
  | _, _ => false
  end.

(** Twice the distance of [c * 10^p] to [m * 2^e], as a fraction over the
    common denominator of [cmp_dec_bin]. *)
Definition dist_num (m e c p : Z) : Z :=
  Z.abs (c * scale10 p * 2 ^ (Z.max (- e) 0) - m * 2 ^ (Z.max e 0) * scale10 (- p)).

(** The shortest digits [s] and exponent [n] of ECMA-262 Number::toString:
    [k] digits are tried for [k = 1, 2, ...]. *)
Fixpoint shortest (fuel : nat) (m e n0 k : Z) : Z * Z :=
  match fuel with
  | O => (m, n0)
  | S f =>
      let p := n0 - k in
      let lo := (m * 2 ^ (Z.max e 0) * scale10 (- p))
                / (scale10 p * 2 ^ (Z.max (- e) 0)) in
      let hi := lo + 1 in
      let oklo := in_interval m e lo p in
      let okhi := in_interval m e hi p in
      let pick :=
        if oklo && okhi then
          match dist_num m e lo p ?= dist_num m e hi p with
          | Lt => Some lo
          | Gt => Some hi
          | Eq => Some (if Z.even lo then lo else hi)
          end
        else if oklo then Some lo
        else if okhi then Some hi
        else None in
      match pick with
      | Some s => if s =? 10 ^ k then (10 ^ (k - 1), n0 + 1) else (s, n0)
      | None => shortest f m e n0 (k + 1)
      end
  end.

Definition positive_toString (m : positive) (e : Z) : string :=
  let n0 := dec_exp (Z.pos m) e in
  let '(s, n) := shortest 17 (Z.pos m) e n0 1 in
  let d := digits_of s in
  let k := Z.of_nat (String.length d) in
  if (k <=? n) && (n <=? 21) then d ++ zeros (Z.to_nat (n - k))
  else if (0 <? n) && (n <=? 21) then
    substring 0 (Z.to_nat n) d ++ "." ++ substring (Z.to_nat n) (Z.to_nat (k - n)) d
  else if (-6 <? n) && (n <=? 0) then "0." ++ zeros (Z.to_nat (- n)) ++ d
  else
    let ex := (if n - 1 <? 0 then "-" else "+") ++ digits_of (Z.abs (n - 1)) in
    if k =? 1 then d ++ "e" ++ ex
    else substring 0 1 d ++ "." ++ substring 1 (Z.to_nat (k - 1)) d ++ "e" ++ ex.

(** [x.toString()], also the conversion used by template literals. *)
Definition Number_toString (x : number) : string :=
  match Prim2SF x with
  | S754_nan => "NaN"
  | S754_zero _ => "0"
  | S754_infinity s => if s then "-Infinity" else "Infinity"
  | S754_finite s m e => (if s then "-" else "") ++ positive_toString m e
  end.

(** [x.toFixed(f)]: the integer [n] with [n / 10^f] nearest to [|x|], the
    larger one on a tie. *)
Definition Number_toFixed (x : number) (f : nat) : string :=
  match Prim2SF x with
  | S754_finite s m e =>
      match cmp_dec_bin 1 21 (Z.pos m) e with
      | Gt =>
          let num := Z.pos m * 2 ^ (Z.max e 0) * 10 ^ (Z.of_nat f) in
          let den := fin_den e in
          let n := (2 * num + den) / (2 * den) in
          let d0 := digits_of n in
          let d := zeros (S f - String.length d0)%nat ++ d0 in
          let k := String.length d in
          (if s then "-" else "") ++
          (if Nat.eqb f 0 then d
           else substring 0 (k - f)%nat d ++ "." ++ substring (k - f)%nat f d)
      | _ => Number_toString x
      end
  | S754_zero _ =>
      if Nat.eqb f 0 then "0" else "0." ++ zeros f
  | _ => Number_toString x
  end.

End JS.

Import JS.

(** [xs.length] and [set.size] as numbers. *)
Definition length_number {A : Type} (xs : list A) : number :=
  of_int (Z.of_nat (List.length xs)).

(* ================================================================== *)
(** * [src/frontend/lib/constants.ts] *)
(* ================================================================== *)

Module Constants.
Local Open Scope float_scope.

Module CREDIT_SCORE.
Definition MIN : number := 300.
Definition MAX : number := 850.
Definition DEFAULT_THRESHOLD : number := 650.
Module WEIGHTS.
Definition PAYMENT_HISTORY : number := 35.
Definition UTILIZATION : number := 30.
Definition HISTORY : number := 15.
Definition DIVERSITY : number := 10.
Definition ACTIVITY : number := 10.
End WEIGHTS.
End CREDIT_SCORE.

Record TierInfo := { min : number; max : number; name : string; color : string }.

Module CREDIT_TIERS.
Definition EXCELLENT := {| min := 800; max := 850; name := "Excellent"; color := "#10b981" |}.
Definition VERY_GOOD := {| min := 740; max := 799; name := "Very Good"; color := "#22c55e" |}.
Definition GOOD := {| min := 670; max := 739; name := "Good"; color := "#eab308" |}.
Definition FAIR := {| min := 580; max := 669; name := "Fair"; color := "#f97316" |}.
Definition POOR := {| min := 300; max := 579; name := "Poor"; color := "#ef4444" |}.
End CREDIT_TIERS.

Module ZK_CONFIG.
Definition PROOF_VALIDITY_SECONDS : number := 3600.
Definition COMMITMENT_EXPIRY_DAYS : number := 30.
End ZK_CONFIG.

End Constants.

(* ================================================================== *)
(** * Shared data types *)
(* ================================================================== *)

(** [CreditMetrics] of [lib/helius] ([src/tests/private-score.ts]).
    [uniqueProtocols] is a [Set<string>]: its elements in insertion order,
    without duplicates. *)
Module CreditMetrics.
Record t := {
  totalBorrowed : number;
  totalRepaid : number;
  onTimePayments : number;
  latePayments : number;
  defaults : number;
  oldestActivityDays : number;
  uniqueProtocols : list string;
  averageTransactionValue : number;
  totalTransactions : number;
  utilizationHistory : list number
}.
End CreditMetrics.

(** The union type ["Poor" | "Fair" | "Good" | "Very Good" | "Excellent"]. *)
Inductive Rating := Poor | Fair | Good | VeryGood | Excellent.

Definition Rating_eqb (a b : Rating) : bool :=
  match a, b with
  | Poor, Poor | Fair, Fair | Good, Good
  | VeryGood, VeryGood | Excellent, Excellent => true
  | _, _ => false
  end.

Inductive Priority := high | medium | low.
Inductive Trend := up | down | stable.

(* ================================================================== *)
(** * The score engine, [src/unnamed/part_000] *)
(* ================================================================== *)

Module CreditScore.
Import Constants.
Local Open Scope float_scope.

Module ComponentScore.
Record t := {
  score : number;
  weighted : number;
  weight : number;
  rating : Rating;
  details : string
}.
End ComponentScore.

Module ScoreBreakdown.
Record t := {
  paymentHistory : ComponentScore.t;
  creditUtilization : ComponentScore.t;
  accountHistory : ComponentScore.t;
  protocolDiversity : ComponentScore.t;
  recentActivity : ComponentScore.t
}.
End ScoreBreakdown.

Module Recommendation.
Record t := {
  title : string;
  description : string;
  icon : string;
  impact : option number;
  priority : Priority
}.
End Recommendation.

Module CreditScoreResult.
Record t := {
  score : number;
  tier : Rating;
  breakdown : ScoreBreakdown.t;
  recommendations : list Recommendation.t;
  trend : option Trend;
  lastUpdated : number
}.
End CreditScoreResult.

Module WEIGHTS.
Definition paymentHistory := CREDIT_SCORE.WEIGHTS.PAYMENT_HISTORY.
Definition creditUtilization := CREDIT_SCORE.WEIGHTS.UTILIZATION.
Definition accountHistory := CREDIT_SCORE.WEIGHTS.HISTORY.
Definition protocolDiversity := CREDIT_SCORE.WEIGHTS.DIVERSITY.
Definition recentActivity := CREDIT_SCORE.WEIGHTS.ACTIVITY.
End WEIGHTS.

(** The closing [return { score, weighted: (score / 100) * w, weight: w,
    rating, details }] of every component function. *)
Definition component (score w : number) (rating : Rating) (details : string)
  : ComponentScore.t :=
  {| ComponentScore.score := score;
     ComponentScore.weighted := (score / 100) * w;
     ComponentScore.weight := w;
     ComponentScore.rating := rating;
     ComponentScore.details := details |}.

(** Payment History (35% of score). *)
Definition calculatePaymentHistoryScore (metrics : CreditMetrics.t)
  : ComponentScore.t :=
  let onTimePayments := CreditMetrics.onTimePayments metrics in
  let latePayments := CreditMetrics.latePayments metrics in
  let defaults := CreditMetrics.defaults metrics in
  let totalPayments := onTimePayments + latePayments + defaults in
  if strict_eq totalPayments 0 then
    component 50 WEIGHTS.paymentHistory Fair
      "No repayment history yet. Make some loan repayments to build credit."
  else
    let onTimeRate := onTimePayments / totalPayments in
    let defaultPenalty := defaults * 15 in
    let latePenalty := latePayments * 5 in
    let score := Math_max 0 (onTimeRate * 100 - defaultPenalty - latePenalty) in
    if ge score 90 then
      component score WEIGHTS.paymentHistory Excellent
        (Number_toString onTimePayments ++ " of " ++ Number_toString totalPayments
           ++ " payments on time ("
           ++ Number_toString (Math_round (onTimeRate * 100)) ++ "%)")
    else if ge score 75 then
      component score WEIGHTS.paymentHistory VeryGood
        ("Good payment history with " ++ Number_toString onTimePayments
           ++ " on-time payments")
    else if ge score 60 then
      component score WEIGHTS.paymentHistory Good
        (Number_toString latePayments ++ " late payment(s) affecting your score")
    else if ge score 40 then
      component score WEIGHTS.paymentHistory Fair
        "Multiple late payments. Focus on making payments on time."
    else
      component score WEIGHTS.paymentHistory Poor
        ("Payment history needs improvement. " ++ Number_toString defaults
           ++ " default(s) recorded.").

(** Credit Utilization (30% of score). *)
Definition calculateUtilizationScore (metrics : CreditMetrics.t)
  : ComponentScore.t :=
  let totalBorrowed := CreditMetrics.totalBorrowed metrics in
  let totalRepaid := CreditMetrics.totalRepaid metrics in
  if strict_eq totalBorrowed 0 then
    component 70 WEIGHTS.creditUtilization Good
      "No borrowing history. Consider taking a small loan to build credit."
  else
    let currentDebt := Math_max 0 (totalBorrowed - totalRepaid) in
    let utilization := currentDebt / totalBorrowed in
    let pct := Number_toString (Math_round (utilization * 100)) in
    if le utilization 0.1 then
      component 95 WEIGHTS.creditUtilization Excellent
        ("Very low utilization (" ++ pct ++ "%). Great debt management!")
    else if le utilization 0.3 then
      component 90 WEIGHTS.creditUtilization Excellent
        ("Optimal utilization (" ++ pct ++ "%). Keep it up!")
    else if le utilization 0.5 then
      component 75 WEIGHTS.creditUtilization Good
        ("Moderate utilization (" ++ pct ++ "%). Consider paying down some debt.")
    else if le utilization 0.7 then
      component 50 WEIGHTS.creditUtilization Fair
        ("High utilization (" ++ pct ++ "%). Try to reduce outstanding debt.")
    else if le utilization 0.9 then
      component 30 WEIGHTS.creditUtilization Poor
        ("Very high utilization (" ++ pct ++ "%). Prioritize debt repayment.")
    else
      component 10 WEIGHTS.creditUtilization Poor
        ("Critical utilization (" ++ pct ++ "%). Immediate action needed.").

(** Account History (15% of score). *)
Definition calculateAccountHistoryScore (metrics : CreditMetrics.t)
  : ComponentScore.t :=
  let oldestActivityDays := CreditMetrics.oldestActivityDays metrics in
  if strict_eq oldestActivityDays 0 then
    component 20 WEIGHTS.accountHistory Poor
      "New account. Credit history will improve with time."
  else if lt oldestActivityDays 30 then
    component 30 WEIGHTS.accountHistory Poor
      ("Account is " ++ Number_toString oldestActivityDays
         ++ " days old. Keep building history!")
  else if lt oldestActivityDays 90 then
    component 50 WEIGHTS.accountHistory Fair
      (Number_toString (Math_round (oldestActivityDays / 30))
         ++ " months of history. Growing nicely!")
  else if lt oldestActivityDays 180 then
    component 65 WEIGHTS.accountHistory Good
      (Number_toString (Math_round (oldestActivityDays / 30))
         ++ " months of established history.")
  else if lt oldestActivityDays 365 then
    component 80 WEIGHTS.accountHistory VeryGood
      (Number_toString (Math_round (oldestActivityDays / 30))
         ++ " months of solid history.")
  else
    component 95 WEIGHTS.accountHistory Excellent
      (Number_toString (Math_round (oldestActivityDays / 365))
         ++ " year(s) of credit history. Excellent!").

(** Protocol Diversity (10% of score). *)
Definition calculateDiversityScore (metrics : CreditMetrics.t)
  : ComponentScore.t :=
  let protocolCount := length_number (CreditMetrics.uniqueProtocols metrics) in
  if strict_eq protocolCount 0 then
    component 20 WEIGHTS.protocolDiversity Poor
      "No protocol activity yet. Try different DeFi platforms."
  else if strict_eq protocolCount 1 then
    component 40 WEIGHTS.protocolDiversity Fair
      "1 protocol used. Diversifying can improve your score."
  else if le protocolCount 3 then
    component 60 WEIGHTS.protocolDiversity Good
      (Number_toString protocolCount ++ " protocols used. Good diversification!")
  else if le protocolCount 5 then
    component 80 WEIGHTS.protocolDiversity VeryGood
      (Number_toString protocolCount ++ " protocols used. Well diversified!")
  else
    component 95 WEIGHTS.protocolDiversity Excellent
      (Number_toString protocolCount ++ " protocols used. Excellent diversification!").

(** Recent Activity (10% of score). *)
Definition calculateActivityScore (metrics : CreditMetrics.t)
  : ComponentScore.t :=
  let totalTransactions := CreditMetrics.totalTransactions metrics in
  let averageTransactionValue := CreditMetrics.averageTransactionValue metrics in
  let oldestActivityDays := CreditMetrics.oldestActivityDays metrics in
  if strict_eq totalTransactions 0 then
    component 20 WEIGHTS.recentActivity Poor
      "No transaction activity. Start using DeFi to build credit."
  else
    let months := Math_max 1 (oldestActivityDays / 30) in
    let txPerMonth := totalTransactions / months in
    let activityScore : number :=
      if ge txPerMonth 20 then 95
      else if ge txPerMonth 10 then 85
      else if ge txPerMonth 5 then 70
      else if ge txPerMonth 2 then 50
      else 30 in
    let valueBonus := Math_min 10 (averageTransactionValue / 100) in
    let score := Math_min 100 (activityScore + valueBonus) in
    if ge score 85 then
      component score WEIGHTS.recentActivity Excellent
        (Number_toString totalTransactions ++ " transactions (~"
           ++ Number_toString (Math_round txPerMonth) ++ "/month). Very active!")
    else if ge score 70 then
      component score WEIGHTS.recentActivity VeryGood
        (Number_toString totalTransactions ++ " transactions (~"
           ++ Number_toString (Math_round txPerMonth) ++ "/month). Good activity!")
    else if ge score 50 then
      component score WEIGHTS.recentActivity Good
        (Number_toString totalTransactions
           ++ " transactions. Consider more frequent activity.")
    else if ge score 30 then
      component score WEIGHTS.recentActivity Fair
        ("Limited activity (" ++ Number_toString totalTransactions
           ++ " transactions). Be more active.")
    else
      component score WEIGHTS.recentActivity Poor
        "Very low activity. Increase DeFi usage to improve.".

(** Get tier from score. *)
Definition getTierFromScore (score : number) : Rating :=
  if ge score (min CREDIT_TIERS.EXCELLENT) then Excellent
  else if ge score (min CREDIT_TIERS.VERY_GOOD) then VeryGood
  else if ge score (min CREDIT_TIERS.GOOD) then Good
  else if ge score (min CREDIT_TIERS.FAIR) then Fair
  else Poor.

Definition priorityOrder (p : Priority) : Z :=
  match p with high => 0 | medium => 1 | low => 2 end.

(** [Array.prototype.sort] with the comparator
    [(a, b) => priorityOrder[a.priority] - priorityOrder[b.priority]]:
    a stable sort; here each element is inserted, from the last to the
    first, in front of the elements that do not precede it. *)
Fixpoint insert_by_priority (r : Recommendation.t) (rs : list Recommendation.t)
  : list Recommendation.t :=
  match rs with
  | [] => [r]
  | r' :: rs' =>
      if (priorityOrder (Recommendation.priority r)
          <=? priorityOrder (Recommendation.priority r'))%Z
      then r :: r' :: rs'
      else r' :: insert_by_priority r rs'
  end.

Definition sort_by_priority (rs : list Recommendation.t) : list Recommendation.t :=
  fold_right insert_by_priority [] rs.

(** [if (cond) recommendations.push(r)]. *)
Definition push_if (cond : bool) (r : Recommendation.t)
  (rs : list Recommendation.t) : list Recommendation.t :=
  if cond then rs ++ [r] else rs.

(** Generate recommendations based on score breakdown. *)
Definition generateRecommendations (breakdown : ScoreBreakdown.t)
  : list Recommendation.t :=
  let recommendations := [] in
  let recommendations :=
    push_if (lt (ComponentScore.score (ScoreBreakdown.paymentHistory breakdown)) 70)
      {| Recommendation.title := "Improve Payment History";
         Recommendation.description :=
           "Focus on making all loan repayments on time to boost your score.";
         Recommendation.icon := "💳";
         Recommendation.impact := Some 25;
         Recommendation.priority := high |} recommendations in
  let recommendations :=
    push_if (lt (ComponentScore.score (ScoreBreakdown.creditUtilization breakdown)) 70)
      {| Recommendation.title := "Reduce Credit Utilization";
         Recommendation.description :=
           "Pay down some of your outstanding debt to lower your utilization ratio.";
         Recommendation.icon := "📉";
         Recommendation.impact := Some 20;
         Recommendation.priority := high |} recommendations in
  let recommendations :=
    push_if (lt (ComponentScore.score (ScoreBreakdown.accountHistory breakdown)) 50)
      {| Recommendation.title := "Build Account History";
         Recommendation.description :=
           "Keep your accounts active over time. History improves naturally.";
         Recommendation.icon := "📅";
         Recommendation.impact := Some 10;
         Recommendation.priority := low |} recommendations in
  let recommendations :=
    push_if (lt (ComponentScore.score (ScoreBreakdown.protocolDiversity breakdown)) 60)
      {| Recommendation.title := "Diversify Protocol Usage";
         Recommendation.description :=
           "Try using different DeFi protocols to diversify your credit profile.";
         Recommendation.icon := "🔀";
         Recommendation.impact := Some 8;
         Recommendation.priority := medium |} recommendations in
  let recommendations :=
    push_if (lt (ComponentScore.score (ScoreBreakdown.recentActivity breakdown)) 50)
      {| Recommendation.title := "Increase Activity";
         Recommendation.description :=
           "More frequent DeFi transactions can help improve your score.";
         Recommendation.icon := "⚡";
         Recommendation.impact := Some 8;
         Recommendation.priority := medium |} recommendations in
  firstn 5 (sort_by_priority recommendations).

(** The weighted total (0-100 scale) of the five components. *)
Definition totalWeighted (metrics : CreditMetrics.t) : number :=
  ComponentScore.weighted (calculatePaymentHistoryScore metrics)
  + ComponentScore.weighted (calculateUtilizationScore metrics)
  + ComponentScore.weighted (calculateAccountHistoryScore metrics)
  + ComponentScore.weighted (calculateDiversityScore metrics)
  + ComponentScore.weighted (calculateActivityScore metrics).

(** The total converted to the 300-850 scale, before clamping. *)
Definition rawScore (metrics : CreditMetrics.t) : number :=
  CREDIT_SCORE.MIN
  + (totalWeighted metrics / 100) * (CREDIT_SCORE.MAX - CREDIT_SCORE.MIN).

(** Calculate credit score from on-chain metrics; [now] is the value of
    [Date.now()] when the result record is built. *)
Definition calculateCreditScore (now : number) (metrics : CreditMetrics.t)
  : CreditScoreResult.t :=
  let paymentHistory := calculatePaymentHistoryScore metrics in
  let creditUtilization := calculateUtilizationScore metrics in
  let accountHistory := calculateAccountHistoryScore metrics in
  let protocolDiversity := calculateDiversityScore metrics in
  let recentActivity := calculateActivityScore metrics in
  let totalWeighted :=
    ComponentScore.weighted paymentHistory
    + ComponentScore.weighted creditUtilization
    + ComponentScore.weighted accountHistory
    + ComponentScore.weighted protocolDiversity
    + ComponentScore.weighted recentActivity in
  let rawScore :=
    CREDIT_SCORE.MIN
    + (totalWeighted / 100) * (CREDIT_SCORE.MAX - CREDIT_SCORE.MIN) in
  let score :=
    Math_round (Math_min CREDIT_SCORE.MAX (Math_max CREDIT_SCORE.MIN rawScore)) in
  let tier := getTierFromScore score in
  let breakdown :=
    {| ScoreBreakdown.paymentHistory := paymentHistory;
       ScoreBreakdown.creditUtilization := creditUtilization;
       ScoreBreakdown.accountHistory := accountHistory;
       ScoreBreakdown.protocolDiversity := protocolDiversity;
       ScoreBreakdown.recentActivity := recentActivity |} in
  let recommendations := generateRecommendations breakdown in
  {| CreditScoreResult.score := score;
     CreditScoreResult.tier := tier;
     CreditScoreResult.breakdown := breakdown;
     CreditScoreResult.recommendations := recommendations;
     CreditScoreResult.trend := Some stable;
     CreditScoreResult.lastUpdated := now |}.

End CreditScore.

(* ================================================================== *)
(** * The abridged score module, [src/frontend/lib/creditScore.ts] *)
(* ================================================================== *)

(** Of this file only [WEIGHTS] and [calculatePaymentHistoryScore] are
    self-contained; its [calculateCreditScore] calls component functions
    that the file does not define. *)
Module CreditScoreLib.
Local Open Scope float_scope.

Module WEIGHTS.
Definition paymentHistory : number := 35.
Definition creditUtilization : number := 30.
Definition accountHistory : number := 15.
Definition protocolDiversity : number := 10.
Definition recentActivity : number := 10.
End WEIGHTS.

(** The object literals returned here carry [score] and [rating] and, in
    the first case only, [details]; an absent property is [None]. *)
Module ComponentScore.
Record t := {
  score : number;
  rating : Rating;
  details : option string
}.
End ComponentScore.

(** Payment History (35% of score). *)
Definition calculatePaymentHistoryScore (metrics : CreditMetrics.t)
  : ComponentScore.t :=
  let totalPayments :=
    CreditMetrics.onTimePayments metrics + CreditMetrics.latePayments metrics in
  if strict_eq totalPayments 0 then
    {| ComponentScore.score := 50; ComponentScore.rating := Fair;
       ComponentScore.details := Some "No repayment history yet" |}
  else
    let onTimeRate := CreditMetrics.onTimePayments metrics / totalPayments in
    if ge onTimeRate 0.98 then
      {| ComponentScore.score := 100; ComponentScore.rating := Excellent;
         ComponentScore.details := None |}
    else if ge onTimeRate 0.95 then
      {| ComponentScore.score := 90; ComponentScore.rating := Good;
         ComponentScore.details := None |}
    else if ge onTimeRate 0.90 then
      {| ComponentScore.score := 70; ComponentScore.rating := Fair;
         ComponentScore.details := None |}
    else
      {| ComponentScore.score := Math_max 20 (onTimeRate * 100);
         ComponentScore.rating := Poor;
         ComponentScore.details := None |}.

End CreditScoreLib.

(* ================================================================== *)
(** * Byte arrays, text and JSON of the run time *)
(* ================================================================== *)

(** A [Uint8Array] is a list of bytes; a string is the sequence of the
    bytes of its UTF-8 encoding, so that [TextEncoder.encode] is the
    identity on contents. *)
Module Bytes.

Definition t := list Byte.byte.

Definition of_Z (z : Z) : Byte.byte :=
  match Byte.of_N (Z.to_N (z mod 256)) with
  | Some b => b
  | None => Byte.x00
  end.

Definition to_Z (b : Byte.byte) : Z := Z.of_N (Byte.to_N b).

(** [new TextEncoder().encode(s)]. *)
Definition TextEncoder_encode (s : string) : t := list_byte_of_string s.

(** [ToUint32(x)]: NaN, zeros and infinities give 0; other numbers are
    truncated towards zero and reduced modulo [2^32]. *)
Definition ToUint32 (x : number) : Z :=
  match Prim2SF x with
  | S754_finite s m e => Z.quot (fin_num s m e) (fin_den e) mod 2 ^ 32
  | _ => 0
  end.

(** The four bytes of a 32-bit word, most significant first. *)
Definition be32 (w : Z) : t :=
  [ of_Z (Z.shiftr w 24); of_Z (Z.shiftr w 16); of_Z (Z.shiftr w 8); of_Z w ].

(** [new DataView(new Uint8Array(4).buffer).setUint32(0, x, false)]: the
    contents of the array afterwards. *)
Definition setUint32_be (x : number) : t := be32 (ToUint32 x).

End Bytes.

(** [JSON.stringify] on the values the sources serialize. *)
Module JSON.

#[local] Set Warnings "-register-all".

Inductive value :=
| JNull
| JBool (b : bool)
| JNumber (x : number)
| JString (s : string)
| JArray (xs : list value)
| JObject (fields : list (string * value)).

Definition quote_char : ascii := ascii_of_nat 34.
Definition backslash : ascii := ascii_of_nat 92.

Definition hex_digit (n : nat) : ascii :=
  if Nat.ltb n 10 then ascii_of_nat (48 + n) else ascii_of_nat (87 + n).

(** The escape of one character inside a JSON string. *)
Definition escape_char (c : ascii) : string :=
  let n := nat_of_ascii c in
  if Nat.eqb n 34 then String backslash (String quote_char EmptyString)
  else if Nat.eqb n 92 then String backslash (String backslash EmptyString)
  else if Nat.eqb n 8 then String backslash "b"
  else if Nat.eqb n 9 then String backslash "t"
  else if Nat.eqb n 10 then String backslash "n"
  else if Nat.eqb n 12 then String backslash "f"
  else if Nat.eqb n 13 then String backslash "r"
  else if Nat.ltb n 32 then
    String backslash
      ("u00" ++ String (hex_digit (Nat.div n 16))
                 (String (hex_digit (Nat.modulo n 16)) EmptyString))
  else String c EmptyString.

Fixpoint escape (s : string) : string :=
  match s with
  | EmptyString => EmptyString
  | String c s' => escape_char c ++ escape s'
  end.

Definition quote (s : string) : string :=
  String quote_char (escape s ++ String quote_char EmptyString).

Fixpoint join (sep : string) (xs : list string) : string :=
  match xs with
  | [] => EmptyString
  | [x] => x
  | x :: xs' => x ++ sep ++ join sep xs'
  end.

(** [JSON.stringify(v)], without indentation. *)
Fixpoint stringify (v : value) : string :=
  match v with
  | JNull => "null"
  | JBool b => if b then "true" else "false"
  | JNumber x => if is_finite x then Number_toString x else "null"
  | JString s => quote s
  | JArray xs => "[" ++ join "," (List.map stringify xs) ++ "]"
  | JObject fields =>
      "{" ++ join ","
               (List.map (fun kv => quote (fst kv) ++ ":" ++ stringify (snd kv))
                         fields)
          ++ "}"
  end.

End JSON.

(** Exceptions: a computation returns a value or throws
    [new Error(message)]; a rejected promise is a thrown error. *)
Module Exn.

Record Error := { message : string }.

Inductive result (A : Type) :=
| Ok (a : A)
| Throw (e : Error).
Arguments Ok {A} a.
Arguments Throw {A} e.

Definition bind {A B : Type} (r : result A) (k : A -> result B) : result B :=
  match r with
  | Ok a => k a
  | Throw e => Throw e
  end.

(** [try { body } catch { handler }]. *)
Definition try_catch {A : Type} (body : result A) (handler : Error -> result A)
  : result A :=
  match body with
  | Ok a => Ok a
  | Throw e => handler e
  end.

(** [throw new Error(message)]. *)
Definition throw {A : Type} (msg : string) : result A :=
  Throw {| message := msg |}.

End Exn.

(* ================================================================== *)
(** * [@noble/hashes]: [sha256], [bytesToHex], [hexToBytes] *)
(* ================================================================== *)

(** The sources import these three functions from the npm package
    [@noble/hashes]; they are not part of the repository.  [sha256] follows
    FIPS 180-4; the two hex functions follow [utils.ts] of the package. *)
Module Noble.
Import Bytes Exn.

(** ** Hexadecimal *)

Definition hexes (b : Byte.byte) : string :=
  let n := N.to_nat (Byte.to_N b) in
  String (JSON.hex_digit (Nat.div n 16))
         (String (JSON.hex_digit (Nat.modulo n 16)) EmptyString).

(** [bytesToHex(bytes)]: two lower-case digits per byte. *)
Fixpoint bytesToHex (bytes : Bytes.t) : string :=
  match bytes with
  | [] => EmptyString
  | b :: bs => hexes b ++ bytesToHex bs
  end.

(** [asciiToBase16(char)]: [None] is [undefined]. *)
Definition asciiToBase16 (c : ascii) : option Z :=
  let n := Z.of_nat (nat_of_ascii c) in
  if (48 <=? n) && (n <=? 57) then Some (n - 48)
  else if (65 <=? n) && (n <=? 70) then Some (n - 55)
  else if (97 <=? n) && (n <=? 102) then Some (n - 87)
  else None.

(** The loop of [hexToBytes], from index [hi] on. *)
Fixpoint hexToBytes_from (hi : Z) (hex : string) : result Bytes.t :=
  match hex with
  | String c1 (String c2 rest) =>
      match asciiToBase16 c1, asciiToBase16 c2 with
      | Some n1, Some n2 =>
          bind (hexToBytes_from (hi + 2) rest)
               (fun bs => Ok (Bytes.of_Z (n1 * 16 + n2) :: bs))
      | _, _ =>
          Throw {| message :=
            "hex string expected, got non-hex character "
              ++ String JSON.quote_char (String c1 (String c2 EmptyString))
              ++ String JSON.quote_char " at index "
              ++ digits_of hi |}
      end
  | _ => Ok []
  end.

(** [hexToBytes(hex)]. *)
Definition hexToBytes (hex : string) : result Bytes.t :=
  let hl := String.length hex in
  if Nat.eqb (Nat.modulo hl 2) 0 then hexToBytes_from 0 hex
  else
    Throw {| message :=
      "padded hex string expected, got unpadded hex of length "
        ++ digits_of (Z.of_nat hl) |}.

(** ** SHA-256 *)

Definition w32 (x : Z) : Z := x mod 2 ^ 32.
Definition add32 (x y : Z) : Z := w32 (x + y).
Definition rotr (n x : Z) : Z :=
  Z.lor (Z.shiftr x n) (w32 (Z.shiftl x (32 - n))).
Definition Ch (x y z : Z) : Z :=
  Z.lxor (Z.land x y) (Z.land (Z.lnot x) z).
Definition Maj (x y z : Z) : Z :=
  Z.lxor (Z.lxor (Z.land x y) (Z.land x z)) (Z.land y z).
Definition Sigma0 (x : Z) : Z :=
  Z.lxor (Z.lxor (rotr 2 x) (rotr 13 x)) (rotr 22 x).
Definition Sigma1 (x : Z) : Z :=
  Z.lxor (Z.lxor (rotr 6 x) (rotr 11 x)) (rotr 25 x).
Definition sigma0 (x : Z) : Z :=
  Z.lxor (Z.lxor (rotr 7 x) (rotr 18 x)) (Z.shiftr x 3).
Definition sigma1 (x : Z) : Z :=
  Z.lxor (Z.lxor (rotr 17 x) (rotr 19 x)) (Z.shiftr x 10).

(** A 32-bit word written as eight hexadecimal digits. *)
Definition u32 (s : string) : Z :=
  fold_left
    (fun acc c => acc * 16 + match asciiToBase16 c with Some d => d | None => 0 end)
    (list_ascii_of_string s) 0.

Definition K256 : list Z :=
  [ u32 "428a2f98"; u32 "71374491"; u32 "b5c0fbcf"; u32 "e9b5dba5";
    u32 "3956c25b"; u32 "59f111f1"; u32 "923f82a4"; u32 "ab1c5ed5";
    u32 "d807aa98"; u32 "12835b01"; u32 "243185be"; u32 "550c7dc3";
    u32 "72be5d74"; u32 "80deb1fe"; u32 "9bdc06a7"; u32 "c19bf174";
    u32 "e49b69c1"; u32 "efbe4786"; u32 "0fc19dc6"; u32 "240ca1cc";
    u32 "2de92c6f"; u32 "4a7484aa"; u32 "5cb0a9dc"; u32 "76f988da";
    u32 "983e5152"; u32 "a831c66d"; u32 "b00327c8"; u32 "bf597fc7";
    u32 "c6e00bf3"; u32 "d5a79147"; u32 "06ca6351"; u32 "14292967";
    u32 "27b70a85"; u32 "2e1b2138"; u32 "4d2c6dfc"; u32 "53380d13";
    u32 "650a7354"; u32 "766a0abb"; u32 "81c2c92e"; u32 "92722c85";
    u32 "a2bfe8a1"; u32 "a81a664b"; u32 "c24b8b70"; u32 "c76c51a3";
    u32 "d192e819"; u32 "d6990624"; u32 "f40e3585"; u32 "106aa070";
    u32 "19a4c116"; u32 "1e376c08"; u32 "2748774c"; u32 "34b0bcb5";
    u32 "391c0cb3"; u32 "4ed8aa4a"; u32 "5b9cca4f"; u32 "682e6ff3";
    u32 "748f82ee"; u32 "78a5636f"; u32 "84c87814"; u32 "8cc70208";
    u32 "90befffa"; u32 "a4506ceb"; u32 "bef9a3f7"; u32 "c67178f2" ].

(** The eight words of a hash value. *)
Record state := {
  h0 : Z; h1 : Z; h2 : Z; h3 : Z; h4 : Z; h5 : Z; h6 : Z; h7 : Z
}.

Definition initial : state :=
  {| h0 := 0x6a09e667; h1 := 0xbb67ae85; h2 := 0x3c6ef372; h3 := 0xa54ff53a;
     h4 := 0x510e527f; h5 := 0x9b05688c; h6 := 0x1f83d9ab; h7 := 0x5be0cd19 |}.

(** Padding: a one bit, zeros, and the bit length on 64 bits. *)
Definition pad (msg : Bytes.t) : Bytes.t :=
  let len := Z.of_nat (List.length msg) in
  let k := Z.to_nat ((55 - len) mod 64) in
  (msg ++ [Byte.x80] ++ List.repeat Byte.x00 k
       ++ be32 (Z.shiftr (8 * len) 32) ++ be32 (8 * len))%list.

(** Big-endian words of a block. *)
Fixpoint words (bs : Bytes.t) : list Z :=
  match bs with
  | b0 :: b1 :: b2 :: b3 :: rest =>
      (Bytes.to_Z b0 * 2 ^ 24 + Bytes.to_Z b1 * 2 ^ 16
       + Bytes.to_Z b2 * 2 ^ 8 + Bytes.to_Z b3) :: words rest
  | _ => []
  end.

(** The message schedule, most recent word first: [rev_w] holds
    [W(t-1), W(t-2), ...]. *)
Fixpoint schedule (n : nat) (rev_w : list Z) : list Z :=
  match n with
  | O => rev_w
  | S n' =>
      let w :=
        add32 (add32 (sigma1 (nth 1 rev_w 0)) (nth 6 rev_w 0))
              (add32 (sigma0 (nth 14 rev_w 0)) (nth 15 rev_w 0)) in
      schedule n' (w :: rev_w)
  end.

Definition round (s : state) (kw : Z * Z) : state :=
  let '(k, w) := kw in
  let t1 :=
    add32 (add32 (add32 (h7 s) (Sigma1 (h4 s))) (Ch (h4 s) (h5 s) (h6 s)))
          (add32 k w) in
  let t2 := add32 (Sigma0 (h0 s)) (Maj (h0 s) (h1 s) (h2 s)) in
  {| h0 := add32 t1 t2; h1 := h0 s; h2 := h1 s; h3 := h2 s;
     h4 := add32 (h3 s) t1; h5 := h4 s; h6 := h5 s; h7 := h6 s |}.

Definition compress (s : state) (block : Bytes.t) : state :=
  let w := List.rev (schedule 48 (List.rev (words block))) in
  let r := fold_left round (List.combine K256 w) s in
  {| h0 := add32 (h0 s) (h0 r); h1 := add32 (h1 s) (h1 r);
     h2 := add32 (h2 s) (h2 r); h3 := add32 (h3 s) (h3 r);
     h4 := add32 (h4 s) (h4 r); h5 := add32 (h5 s) (h5 r);
     h6 := add32 (h6 s) (h6 r); h7 := add32 (h7 s) (h7 r) |}.

Fixpoint blocks (fuel : nat) (s : state) (bs : Bytes.t) : state :=
  match fuel, bs with
  | S f, _ :: _ => blocks f (compress s (firstn 64 bs)) (skipn 64 bs)
  | _, _ => s
  end.

Definition digest (s : state) : Bytes.t :=
  (be32 (h0 s) ++ be32 (h1 s) ++ be32 (h2 s) ++ be32 (h3 s)
   ++ be32 (h4 s) ++ be32 (h5 s) ++ be32 (h6 s) ++ be32 (h7 s))%list.

(** [sha256(data)]. *)
Definition sha256 (data : Bytes.t) : Bytes.t :=
  let padded := pad data in
  digest (blocks (List.length padded) initial padded).

End Noble.
(* ================================================================== *)
(** * Decoding text and JSON: [TextDecoder] and [JSON.parse] *)
(* ================================================================== *)

(** A string of the language is a sequence of UTF-16 code units. *)
Module Text.

Definition t := list Z.

(** The code units of a string of ASCII characters. *)
Definition units (s : string) : t :=
  List.map (fun c => Z.of_nat (nat_of_ascii c)) (list_ascii_of_string s).

(** The state of the UTF-8 decoder: the code point under construction,
    the continuation bytes still needed and the bounds of the next one. *)
Record utf8_state := {
  code_point : Z;
  bytes_needed : nat;
  lower_boundary : Z;
  upper_boundary : Z
}.

Definition utf8_initial : utf8_state :=
  {| code_point := 0; bytes_needed := 0;
     lower_boundary := 0x80; upper_boundary := 0xBF |}.

(** A byte read when no continuation byte is needed. *)
Definition utf8_lead (b : Z) : list Z * utf8_state :=
  if b <=? 0x7F then ([b], utf8_initial)
  else if (0xC2 <=? b) && (b <=? 0xDF) then
    ([], {| code_point := Z.land b 0x1F; bytes_needed := 1;
            lower_boundary := 0x80; upper_boundary := 0xBF |})
  else if (0xE0 <=? b) && (b <=? 0xEF) then
    ([], {| code_point := Z.land b 0xF; bytes_needed := 2;
            lower_boundary := if b =? 0xE0 then 0xA0 else 0x80;
            upper_boundary := if b =? 0xED then 0x9F else 0xBF |})
  else if (0xF0 <=? b) && (b <=? 0xF4) then
    ([], {| code_point := Z.land b 0x7; bytes_needed := 3;
            lower_boundary := if b =? 0xF0 then 0x90 else 0x80;
            upper_boundary := if b =? 0xF4 then 0x8F else 0xBF |})
  else ([0xFFFD], utf8_initial).

(** One byte through the decoder: the code points it emits and the next
    state.  A byte that cannot continue a sequence ends it with U+FFFD
    and is read again as a lead byte. *)
Definition utf8_step (st : utf8_state) (b : Z) : list Z * utf8_state :=
  match bytes_needed st with
  | O => utf8_lead b
  | S n =>
      if (b <? lower_boundary st) || (upper_boundary st <? b) then
        let (out, st') := utf8_lead b in (0xFFFD :: out, st')
      else
        let cp := Z.lor (Z.shiftl (code_point st) 6) (Z.land b 0x3F) in
        match n with
        | O => ([cp], utf8_initial)
        | S _ =>
            ([], {| code_point := cp; bytes_needed := n;
                    lower_boundary := 0x80; upper_boundary := 0xBF |})
        end
  end.

Fixpoint utf8_run (st : utf8_state) (bytes : list Z) : list Z :=
  match bytes with
  | [] => match bytes_needed st with O => [] | S _ => [0xFFFD] end
  | b :: bs => let (out, st') := utf8_step st b in (out ++ utf8_run st' bs)%list
  end.

(** The UTF-16 code units of a code point. *)
Definition utf16 (cp : Z) : list Z :=
  if cp <? 0x10000 then [cp]
  else [0xD800 + Z.shiftr (cp - 0x10000) 10; 0xDC00 + Z.land (cp - 0x10000) 0x3FF].

(** [new TextDecoder().decode(bytes)]: UTF-8, malformed input replaced by
    U+FFFD, a leading byte order mark dropped. *)
Definition TextDecoder_decode (bytes : Bytes.t) : t :=
  let cps := utf8_run utf8_initial (List.map Bytes.to_Z bytes) in
  let cps' := match cps with
              | cp :: rest => if cp =? 0xFEFF then rest else cps
              | [] => []
              end in
  List.flat_map utf16 cps'.

End Text.

(** [JSON.parse], without reviver. *)
Module JSONParse.
Import Exn.

(** The values of the language that [JSON.parse] builds.  An object
    keeps its members in the order of the text; a name that occurs twice
    has the value of its last occurrence. *)
#[local] Set Warnings "-register-all".

Inductive value :=
| VNull
| VBool (b : bool)
| VNumber (x : number)
| VString (s : Text.t)
| VArray (xs : list value)
| VObject (members : list (Text.t * value)).

Inductive outcome (A : Type) :=
| Done (a : A) (rest : Text.t)
| SyntaxError
| OutOfFuel.
Arguments Done {A} a rest.
Arguments SyntaxError {A}.
Arguments OutOfFuel {A}.

Definition is_ws (c : Z) : bool :=
  (c =? 9) || (c =? 10) || (c =? 13) || (c =? 32).

Fixpoint skip_ws (s : Text.t) : Text.t :=
  match s with
  | c :: s' => if is_ws c then skip_ws s' else s
  | [] => []
  end.

Definition is_digit (c : Z) : bool := (48 <=? c) && (c <=? 57).

Definition hex_value (c : Z) : option Z :=
  if (48 <=? c) && (c <=? 57) then Some (c - 48)
  else if (65 <=? c) && (c <=? 70) then Some (c - 55)
  else if (97 <=? c) && (c <=? 102) then Some (c - 87)
  else None.

Definition hex4 (a b c d : Z) : option Z :=
  match hex_value a, hex_value b, hex_value c, hex_value d with
  | Some x, Some y, Some z, Some w => Some (((x * 16 + y) * 16 + z) * 16 + w)
  | _, _, _, _ => None
  end.

(** The character a one-letter escape stands for. *)
Definition single_escape (c : Z) : option Z :=
  if c =? 34 then Some 34
  else if c =? 92 then Some 92
  else if c =? 47 then Some 47
  else if c =? 98 then Some 8
  else if c =? 102 then Some 12
  else if c =? 110 then Some 10
  else if c =? 114 then Some 13
  else if c =? 116 then Some 9
  else None.

Definition cons_unit (u : Z) (r : option (Text.t * Text.t))
  : option (Text.t * Text.t) :=
  match r with
  | Some (s, rest) => Some (u :: s, rest)
  | None => None
  end.

(** A string, read after its opening quote, and the text after its
    closing quote. *)
Fixpoint parse_string (s : Text.t) : option (Text.t * Text.t) :=
  match s with
  | [] => None
  | c :: s1 =>
      if c =? 34 then Some ([], s1)
      else if c <? 32 then None
      else if c =? 92 then
        match s1 with
        | [] => None
        | e :: s2 =>
            if e =? 117 then
              match s2 with
              | h1 :: h2 :: h3 :: h4 :: s3 =>
                  match hex4 h1 h2 h3 h4 with
                  | Some u => cons_unit u (parse_string s3)
                  | None => None
                  end
              | _ => None
              end
            else
              match single_escape e with
              | Some u => cons_unit u (parse_string s2)
              | None => None
              end
        end
      else cons_unit c (parse_string s1)
  end.

(** The longest prefix of digits, as the integer it denotes and its
    length, and the text after it. *)
Fixpoint digits (acc : Z) (n : nat) (s : Text.t) : Z * nat * Text.t :=
  match s with
  | c :: s' => if is_digit c then digits (acc * 10 + (c - 48)) (S n) s' else (acc, n, s)
  | [] => (acc, n, s)
  end.

(** The number nearest to [m * 10 ^ e], ties to even, as engines compute
    it (the language lets an implementation round the digits beyond the
    twentieth). *)
Definition decimal (m e : Z) : number :=
  match m with
  | Z.pos p =>
      if 0 <=? e then SF2Prim (binary_normalize prec emax (m * 10 ^ e) 0 false)
      else
        match 10 ^ (- e) with
        | Z.pos q => SF2Prim (SFdiv prec emax (S754_finite false p 0) (S754_finite false q 0))
        | _ => 0%float
        end
  | _ => 0%float
  end.

(** A number, read from its first character on. *)
Definition parse_number (s : Text.t) : option (number * Text.t) :=
  let '(negative, s0) :=
    match s with
    | c :: r => if c =? 45 then (true, r) else (false, s)
    | [] => (false, s)
    end in
  let int_part :=
    match s0 with
    | c :: r =>
        if c =? 48 then Some (0, r)
        else if is_digit c then let '(m, _, r') := digits 0 0 s0 in Some (m, r')
        else None
    | [] => None
    end in
  match int_part with
  | None => None
  | Some (m1, s1) =>
      let frac :=
        match s1 with
        | c :: r =>
            if c =? 46 then
              match digits m1 0 r with
              | (_, O, _) => None
              | (m2, n, r') => Some (m2, Z.of_nat n, r')
              end
            else Some (m1, 0, s1)
        | [] => Some (m1, 0, s1)
        end in
      match frac with
      | None => None
      | Some (m2, n, s2) =>
          let exponent :=
            match s2 with
            | c :: r =>
                if (c =? 101) || (c =? 69) then
                  let '(minus, r1) :=
                    match r with
                    | d :: r' =>
                        if d =? 45 then (true, r')
                        else if d =? 43 then (false, r')
                        else (false, r)
                    | [] => (false, r)
                    end in
                  match digits 0 0 r1 with
                  | (_, O, _) => None
                  | (x, _, r2) => Some (if minus then - x else x, r2)
                  end
                else Some (0, s2)
            | [] => Some (0, s2)
            end in
          match exponent with
          | None => None
          | Some (x, s3) =>
              let v := decimal m2 (x - n) in
              Some (if negative then (- v)%float else v, s3)
          end
      end
  end.

Definition literal (word : Text.t) (v : value) (s : Text.t) : outcome value :=
  if List.list_eq_dec Z.eq_dec (List.firstn (List.length word) s) word
  then Done v (List.skipn (List.length word) s)
  else SyntaxError.

(** A value read from its first character on; [elements] and [members]
    read what follows a bracket and a brace. *)
Definition value_body
  (elements : Text.t -> outcome (list value))
  (members : Text.t -> outcome (list (Text.t * value)))
  (s : Text.t) : outcome value :=
  match s with
  | [] => SyntaxError
  | c :: r =>
      if c =? 34 then
        match parse_string r with
        | Some (str, rest) => Done (VString str) rest
        | None => SyntaxError
        end
      else if c =? 91 then
        match skip_ws r with
        | [] => SyntaxError
        | d :: r' =>
            if d =? 93 then Done (VArray []) r'
            else
              match elements (d :: r') with
              | Done xs rest => Done (VArray xs) rest
              | SyntaxError => SyntaxError
              | OutOfFuel => OutOfFuel
              end
        end
      else if c =? 123 then
        match skip_ws r with
        | [] => SyntaxError
        | d :: r' =>
            if d =? 125 then Done (VObject []) r'
            else
              match members (d :: r') with
              | Done ms rest => Done (VObject ms) rest
              | SyntaxError => SyntaxError
              | OutOfFuel => OutOfFuel
              end
        end
      else if c =? 116 then literal (Text.units "true") (VBool true) s
      else if c =? 102 then literal (Text.units "false") (VBool false) s
      else if c =? 110 then literal (Text.units "null") VNull s
      else
        match parse_number s with
        | Some (x, rest) => Done (VNumber x) rest
        | None => SyntaxError
        end
  end.

(** The elements of an array, from the first one on, up to the closing
    bracket. *)
Definition elements_body
  (value_ : Text.t -> outcome value)
  (elements : Text.t -> outcome (list value))
  (s : Text.t) : outcome (list value) :=
  match value_ s with
  | Done v rest =>
      match skip_ws rest with
      | [] => SyntaxError
      | d :: r =>
          if d =? 44 then
            match elements (skip_ws r) with
            | Done vs rest' => Done (v :: vs) rest'
            | SyntaxError => SyntaxError
            | OutOfFuel => OutOfFuel
            end
          else if d =? 93 then Done [v] r
          else SyntaxError
      end
  | SyntaxError => SyntaxError
  | OutOfFuel => OutOfFuel
  end.

(** The members of an object, from the first name on, up to the closing
    brace. *)
Definition members_body
  (value_ : Text.t -> outcome value)
  (members : Text.t -> outcome (list (Text.t * value)))
  (s : Text.t) : outcome (list (Text.t * value)) :=
  match s with
  | [] => SyntaxError
  | q :: r0 =>
      if q =? 34 then
        match parse_string r0 with
        | None => SyntaxError
        | Some (name, r1) =>
            match skip_ws r1 with
            | [] => SyntaxError
            | colon :: r2 =>
                if colon =? 58 then
                  match value_ (skip_ws r2) with
                  | Done v rest =>
                      match skip_ws rest with
                      | [] => SyntaxError
                      | d :: r =>
                          if d =? 44 then
                            match members (skip_ws r) with
                            | Done ms rest' => Done ((name, v) :: ms) rest'
                            | SyntaxError => SyntaxError
                            | OutOfFuel => OutOfFuel
                            end
                          else if d =? 125 then Done [(name, v)] r
                          else SyntaxError
                      end
                  | SyntaxError => SyntaxError
                  | OutOfFuel => OutOfFuel
                  end
                else SyntaxError
            end
        end
      else SyntaxError
  end.

Fixpoint parse_value (fuel : nat) (s : Text.t) : outcome value :=
  match fuel with
  | O => OutOfFuel
  | S f => value_body (parse_elements f) (parse_members f) s
  end
with parse_elements (fuel : nat) (s : Text.t) : outcome (list value) :=
  match fuel with
  | O => OutOfFuel
  | S f => elements_body (parse_value f) (parse_elements f) s
  end
with parse_members (fuel : nat) (s : Text.t) : outcome (list (Text.t * value)) :=
  match fuel with
  | O => OutOfFuel
  | S f => members_body (parse_value f) (parse_members f) s
  end.

(** [JSON.parse(text)]; the fuel is more than the recursion can use. *)
Definition parse (text : Text.t) : result value :=
  match parse_value (2 * List.length text + 2) (skip_ws text) with
  | Done v rest =>
      match skip_ws rest with
      | [] => Ok v
      | _ => throw "SyntaxError"
      end
  | _ => throw "SyntaxError"
  end.

(** [v[name]] for a name that is neither [length] nor an index nor a
    property of the prototypes: the own property, [None] for
    [undefined]; reading a property of [null] throws. *)
Fixpoint member (name : Text.t) (ms : list (Text.t * value)) : option value :=
  match ms with
  | [] => None
  | (k, v) :: ms' =>
      match member name ms' with
      | Some v' => Some v'
      | None => if List.list_eq_dec Z.eq_dec k name then Some v else None
      end
  end.

Definition get (v : value) (name : Text.t) : result (option value) :=
  match v with
  | VNull => throw "TypeError"
  | VObject ms => Ok (member name ms)
  | _ => Ok None
  end.

(** [ToBoolean]. *)
Definition truthy (v : option value) : bool :=
  match v with
  | None | Some VNull => false
  | Some (VBool b) => b
  | Some (VNumber x) => negb (is_zero x || is_nan x)
  | Some (VString s) => match s with [] => false | _ => true end
  | Some (VArray _) | Some (VObject _) => true
  end.

(** [v === s] for a string [s]. *)
Definition is_string (v : option value) (s : Text.t) : bool :=
  match v with
  | Some (VString x) => if List.list_eq_dec Z.eq_dec x s then true else false
  | _ => false
  end.

End JSONParse.

(* ================================================================== *)
(** * Commitments and simulated proofs, [src/frontend/lib/zkProof.ts] *)
(* ================================================================== *)

Module ZkProof.
Import Bytes Exn Noble.
Local Open Scope float_scope.

Module ProofInputs.
Record t := {
  score : number;
  salt : string;
  commitment : string;
  minScore : number;
  poolId : string;
  nonce : number
}.
End ProofInputs.

Module GeneratedProof.
Record t := {
  proof : string;
  publicInputs : list string;
  commitment : string;
  timestamp : number;
  expiresAt : number
}.
End GeneratedProof.

Module CommitmentData.
Record t := {
  hash : string;
  salt : string;
  nonce : number;
  expiresIn : number
}.
End CommitmentData.

(** Generate a cryptographic salt for hiding; [random] is the content of
    the 32-byte array after [crypto.getRandomValues(bytes)]. *)
Definition generateSalt (random : Bytes.t) : string := bytesToHex random.

(** Create a commitment to a credit score: [Hash(score || salt)]. *)
Definition createCommitment (score : number) (salt : string) : result string :=
  if lt score 300 || gt score 850 then
    throw "Score must be between 300 and 850"
  else
    let scoreBytes := setUint32_be score in
    bind (hexToBytes salt) (fun saltBytes =>
    let combined := (scoreBytes ++ saltBytes)%list in
    let commitmentHash := sha256 combined in
    Ok (bytesToHex commitmentHash)).

(** Verify that a commitment matches a score and salt. *)
Definition verifyCommitment (score : number) (salt commitment : string)
  : result bool :=
  try_catch
    (bind (createCommitment score salt) (fun computed =>
     Ok (String.eqb computed commitment)))
    (fun _ => Ok false).

(** Generate a deterministic proof element. *)
Definition generateProofElement (score : number) (salt suffix : string) : string :=
  let input := (Number_toString score ++ "-" ++ salt ++ "-" ++ suffix)%string in
  let hash := sha256 (TextEncoder_encode input) in
  bytesToHex hash.

(** The object literals [{ pi_a, pi_b, pi_c, protocol: "noir", circuit }]. *)
Definition proofData (pi_a pi_b pi_c circuit : string) : JSON.value :=
  JSON.JObject
    [ ("pi_a", JSON.JString pi_a); ("pi_b", JSON.JString pi_b);
      ("pi_c", JSON.JString pi_c); ("protocol", JSON.JString "noir");
      ("circuit", JSON.JString circuit) ]%string.

(** [bytesToHex(new TextEncoder().encode(JSON.stringify(data)))]. *)
Definition serialize (data : JSON.value) : string :=
  bytesToHex (TextEncoder_encode (JSON.stringify data)).

(** Generate a proof that [score >= minScore]; the awaited delay is not
    modelled. *)
Definition generateZKProof (inputs : ProofInputs.t) : result string :=
  bind (verifyCommitment (ProofInputs.score inputs) (ProofInputs.salt inputs)
          (ProofInputs.commitment inputs)) (fun verified =>
  if negb verified then
    throw "Commitment verification failed - score/salt mismatch"
  else if lt (ProofInputs.score inputs) (ProofInputs.minScore inputs) then
    throw ("Score " ++ Number_toString (ProofInputs.score inputs)
             ++ " does not meet minimum threshold "
             ++ Number_toString (ProofInputs.minScore inputs))%string
  else if lt (ProofInputs.score inputs) 300 || gt (ProofInputs.score inputs) 850 then
    throw "Invalid score range"
  else
    Ok (serialize
          (proofData
             (generateProofElement (ProofInputs.score inputs) (ProofInputs.salt inputs) "a")
             (generateProofElement (ProofInputs.score inputs) (ProofInputs.salt inputs) "b")
             (generateProofElement (ProofInputs.score inputs) (ProofInputs.salt inputs) "c")
             "prove_score_threshold"))).

(** Generate complete proof with all metadata; [now] is the value of
    [Date.now()] read after the proof is generated. *)
Definition generateCompleteProof (now : number) (inputs : ProofInputs.t)
  : result GeneratedProof.t :=
  bind (generateZKProof inputs) (fun proof =>
  let expiresAt := now + 60 * 60 * 1000 in
  Ok {| GeneratedProof.proof := proof;
        GeneratedProof.publicInputs :=
          [ ProofInputs.commitment inputs;
            Number_toString (ProofInputs.minScore inputs);
            ProofInputs.poolId inputs;
            Number_toString (ProofInputs.nonce inputs);
            Number_toString (Math_floor (now / 1000)) ];
        GeneratedProof.commitment := ProofInputs.commitment inputs;
        GeneratedProof.timestamp := now;
        GeneratedProof.expiresAt := expiresAt |}).

(** Verify proof structure before submission: the five property reads
    of the [&&] chain, in order; the [catch] answers [false]. *)
Definition verifyProofStructure (proof : string) : result bool :=
  try_catch
    (bind (hexToBytes proof) (fun proofBytes =>
     bind (JSONParse.parse (Text.TextDecoder_decode proofBytes)) (fun proofData =>
     bind (JSONParse.get proofData (Text.units "pi_a")) (fun pi_a =>
     if negb (JSONParse.truthy pi_a) then Ok false else
     bind (JSONParse.get proofData (Text.units "pi_b")) (fun pi_b =>
     if negb (JSONParse.truthy pi_b) then Ok false else
     bind (JSONParse.get proofData (Text.units "pi_c")) (fun pi_c =>
     if negb (JSONParse.truthy pi_c) then Ok false else
     bind (JSONParse.get proofData (Text.units "protocol")) (fun protocol =>
     if negb (JSONParse.is_string protocol (Text.units "noir")) then Ok false else
     bind (JSONParse.get proofData (Text.units "circuit")) (fun circuit =>
     Ok (JSONParse.is_string circuit (Text.units "prove_score_threshold"))))))))))
    (fun _ => Ok false).

(** Check if a proof has expired; [now] is the value of [Date.now()]. *)
Definition isProofExpired (now : number) (proof : GeneratedProof.t) : bool :=
  gt now (GeneratedProof.expiresAt proof).

Module DTIProofInputs.
Record t := {
  monthlyIncome : number;
  monthlyDebt : number;
  incomeSalt : string;
  debtSalt : string;
  incomeCommitment : string;
  debtCommitment : string;
  maxDTI : number;
  poolId : string;
  nonce : number
}.
End DTIProofInputs.

(** Generate a proof that the DTI ratio is below threshold. *)
Definition generateDTIProof (inputs : DTIProofInputs.t) : result string :=
  let dtiRatio :=
    (DTIProofInputs.monthlyDebt inputs / DTIProofInputs.monthlyIncome inputs) * 10000 in
  if gt dtiRatio (DTIProofInputs.maxDTI inputs) then
    throw ("DTI ratio " ++ Number_toFixed (dtiRatio / 100) 1 ++ "% exceeds maximum "
             ++ Number_toString (DTIProofInputs.maxDTI inputs / 100) ++ "%")%string
  else
    Ok (serialize
          (proofData
             (generateProofElement (DTIProofInputs.monthlyIncome inputs)
                (DTIProofInputs.incomeSalt inputs) "dti-a")
             (generateProofElement (DTIProofInputs.monthlyDebt inputs)
                (DTIProofInputs.debtSalt inputs) "dti-b")
             (generateProofElement
                (DTIProofInputs.monthlyIncome inputs + DTIProofInputs.monthlyDebt inputs)
                (DTIProofInputs.incomeSalt inputs) "dti-c")
             "prove_dti_ratio")).

Module PaymentHistoryProofInputs.
Record t := {
  onTimePayments : number;
  totalPayments : number;
  historySalt : string;
  historyCommitment : string;
  minPaymentRate : number;
  minPaymentCount : number;
  poolId : string;
  nonce : number
}.
End PaymentHistoryProofInputs.

(** Generate a proof of good payment history. *)
Definition generatePaymentHistoryProof (inputs : PaymentHistoryProofInputs.t)
  : result string :=
  let paymentRate :=
    (PaymentHistoryProofInputs.onTimePayments inputs
     / PaymentHistoryProofInputs.totalPayments inputs) * 10000 in
  if lt paymentRate (PaymentHistoryProofInputs.minPaymentRate inputs) then
    throw ("Payment rate " ++ Number_toFixed (paymentRate / 100) 1 ++ "% below minimum "
             ++ Number_toString (PaymentHistoryProofInputs.minPaymentRate inputs / 100)
             ++ "%")%string
  else if lt (PaymentHistoryProofInputs.totalPayments inputs)
             (PaymentHistoryProofInputs.minPaymentCount inputs) then
    throw ("Only " ++ Number_toString (PaymentHistoryProofInputs.totalPayments inputs)
             ++ " payments, minimum "
             ++ Number_toString (PaymentHistoryProofInputs.minPaymentCount inputs)
             ++ " required")%string
  else
    Ok (serialize
          (proofData
             (generateProofElement (PaymentHistoryProofInputs.onTimePayments inputs)
                (PaymentHistoryProofInputs.historySalt inputs) "payment-a")
             (generateProofElement (PaymentHistoryProofInputs.totalPayments inputs)
                (PaymentHistoryProofInputs.historySalt inputs) "payment-b")
             (generateProofElement
                (PaymentHistoryProofInputs.onTimePayments inputs
                 + PaymentHistoryProofInputs.totalPayments inputs)
                (PaymentHistoryProofInputs.historySalt inputs) "payment-c")
             "prove_payment_history")).

(** [CreditworthyProofInputs extends ProofInputs]. *)
Module CreditworthyProofInputs.
Record t := {
  base : ProofInputs.t;
  monthlyIncome : number;
  monthlyDebt : number;
  onTimePayments : number;
  totalPayments : number;
  maxDTI : number;
  minPaymentRate : number;
  minPaymentCount : number
}.
Definition score (i : t) := ProofInputs.score (base i).
Definition salt (i : t) := ProofInputs.salt (base i).
Definition commitment (i : t) := ProofInputs.commitment (base i).
Definition minScore (i : t) := ProofInputs.minScore (base i).
Definition poolId (i : t) := ProofInputs.poolId (base i).
Definition nonce (i : t) := ProofInputs.nonce (base i).
End CreditworthyProofInputs.

(** Generate comprehensive proof combining all credit checks; [now] is
    the value of [Date.now()] read after the checks. *)
Definition generateCreditworthyProof (now : number)
  (inputs : CreditworthyProofInputs.t) : result GeneratedProof.t :=
  if lt (CreditworthyProofInputs.score inputs) (CreditworthyProofInputs.minScore inputs) then
    throw ("Score " ++ Number_toString (CreditworthyProofInputs.score inputs)
             ++ " below minimum "
             ++ Number_toString (CreditworthyProofInputs.minScore inputs))%string
  else
    let dtiRatio :=
      (CreditworthyProofInputs.monthlyDebt inputs
       / CreditworthyProofInputs.monthlyIncome inputs) * 10000 in
    if gt dtiRatio (CreditworthyProofInputs.maxDTI inputs) then
      throw "DTI ratio exceeds maximum"
    else
      let paymentRate :=
        (CreditworthyProofInputs.onTimePayments inputs
         / CreditworthyProofInputs.totalPayments inputs) * 10000 in
      if lt paymentRate (CreditworthyProofInputs.minPaymentRate inputs) then
        throw "Payment rate below minimum"
      else
        let masterProofData :=
          JSON.JObject
            [ ("pi_a", JSON.JString
                 (generateProofElement (CreditworthyProofInputs.score inputs)
                    (CreditworthyProofInputs.salt inputs) "master-a"));
              ("pi_b", JSON.JString
                 (generateProofElement (CreditworthyProofInputs.monthlyIncome inputs)
                    (CreditworthyProofInputs.salt inputs) "master-b"));
              ("pi_c", JSON.JString
                 (generateProofElement (CreditworthyProofInputs.onTimePayments inputs)
                    (CreditworthyProofInputs.salt inputs) "master-c"));
              ("protocol", JSON.JString "noir");
              ("circuit", JSON.JString "prove_creditworthy");
              ("checks", JSON.JArray
                 [ JSON.JString "score"; JSON.JString "dti";
                   JSON.JString "payment_history" ]) ]%string in
        let proof := serialize masterProofData in
        Ok {| GeneratedProof.proof := proof;
              GeneratedProof.publicInputs :=
                [ CreditworthyProofInputs.commitment inputs;
                  Number_toString (CreditworthyProofInputs.minScore inputs);
                  Number_toString (CreditworthyProofInputs.maxDTI inputs);
                  Number_toString (CreditworthyProofInputs.minPaymentRate inputs);
                  CreditworthyProofInputs.poolId inputs;
                  Number_toString (CreditworthyProofInputs.nonce inputs) ];
              GeneratedProof.commitment := CreditworthyProofInputs.commitment inputs;
              GeneratedProof.timestamp := now;
              GeneratedProof.expiresAt := now + 60 * 60 * 1000 |}.


(** Create commitment data for storage; [random] feeds [generateSalt]. *)
Definition createCommitmentData (random : Bytes.t) (score : number)
  : result CommitmentData.t :=
  let salt := generateSalt random in
  bind (createCommitment score salt) (fun hash =>
  Ok {| CommitmentData.hash := hash;
        CommitmentData.salt := salt;
        CommitmentData.nonce := 1;
        CommitmentData.expiresIn := 30 |}).

End ZkProof.

(* ================================================================== *)
(** * The metrics aggregator, [HeliusClient] in [src/tests/private-score.ts] *)
(* ================================================================== *)

Module Helius.
Local Open Scope float_scope.

Inductive Action :=
| borrow | repay | deposit | withdraw | stake | unstake | swap | liquidate.

(** [DeFiActivity]; the optional [onTime] is [None] when absent. *)
Module DeFiActivity.
Record t := {
  signature : string;
  timestamp : number;
  protocol : string;
  action : Action;
  amount : number;
  token : string;
  successful : bool;
  onTime : option bool
}.
End DeFiActivity.

(** [set.add(x)] on a [Set<string>] kept in insertion order. *)
Definition Set_add (x : string) (s : list string) : list string :=
  if existsb (String.eqb x) s then s else (s ++ [x])%list.

(** The truthiness of an optional boolean. *)
Definition truthy (b : option bool) : bool :=
  match b with Some true => true | _ => false end.

(** The local variables the loop of [calculateCreditMetrics] updates. *)
Record loop_state := {
  metrics : CreditMetrics.t;
  totalValue : number
}.

Definition with_protocol (p : string) (m : CreditMetrics.t) : CreditMetrics.t :=
  {| CreditMetrics.totalBorrowed := CreditMetrics.totalBorrowed m;
     CreditMetrics.totalRepaid := CreditMetrics.totalRepaid m;
     CreditMetrics.onTimePayments := CreditMetrics.onTimePayments m;
     CreditMetrics.latePayments := CreditMetrics.latePayments m;
     CreditMetrics.defaults := CreditMetrics.defaults m;
     CreditMetrics.oldestActivityDays := CreditMetrics.oldestActivityDays m;
     CreditMetrics.uniqueProtocols := Set_add p (CreditMetrics.uniqueProtocols m);
     CreditMetrics.averageTransactionValue := CreditMetrics.averageTransactionValue m;
     CreditMetrics.totalTransactions := CreditMetrics.totalTransactions m;
     CreditMetrics.utilizationHistory := CreditMetrics.utilizationHistory m |}.

(** The [switch (activity.action)] of the loop. *)
Definition account (a : DeFiActivity.t) (m : CreditMetrics.t) : CreditMetrics.t :=
  match DeFiActivity.action a with
  | borrow =>
      {| CreditMetrics.totalBorrowed :=
           CreditMetrics.totalBorrowed m + DeFiActivity.amount a;
         CreditMetrics.totalRepaid := CreditMetrics.totalRepaid m;
         CreditMetrics.onTimePayments := CreditMetrics.onTimePayments m;
         CreditMetrics.latePayments := CreditMetrics.latePayments m;
         CreditMetrics.defaults := CreditMetrics.defaults m;
         CreditMetrics.oldestActivityDays := CreditMetrics.oldestActivityDays m;
         CreditMetrics.uniqueProtocols := CreditMetrics.uniqueProtocols m;
         CreditMetrics.averageTransactionValue := CreditMetrics.averageTransactionValue m;
         CreditMetrics.totalTransactions := CreditMetrics.totalTransactions m;
         CreditMetrics.utilizationHistory := CreditMetrics.utilizationHistory m |}
  | repay =>
      {| CreditMetrics.totalBorrowed := CreditMetrics.totalBorrowed m;
         CreditMetrics.totalRepaid :=
           CreditMetrics.totalRepaid m + DeFiActivity.amount a;
         CreditMetrics.onTimePayments :=
           if truthy (DeFiActivity.onTime a)
           then CreditMetrics.onTimePayments m + 1
           else CreditMetrics.onTimePayments m;
         CreditMetrics.latePayments :=
           if truthy (DeFiActivity.onTime a)
           then CreditMetrics.latePayments m
           else CreditMetrics.latePayments m + 1;
         CreditMetrics.defaults := CreditMetrics.defaults m;
         CreditMetrics.oldestActivityDays := CreditMetrics.oldestActivityDays m;
         CreditMetrics.uniqueProtocols := CreditMetrics.uniqueProtocols m;
         CreditMetrics.averageTransactionValue := CreditMetrics.averageTransactionValue m;
         CreditMetrics.totalTransactions := CreditMetrics.totalTransactions m;
         CreditMetrics.utilizationHistory := CreditMetrics.utilizationHistory m |}
  | _ => m
  end.

(** One iteration of [for (const activity of activities)]. *)
Definition step (st : loop_state) (a : DeFiActivity.t) : loop_state :=
  {| metrics := account a (with_protocol (DeFiActivity.protocol a) (metrics st));
     totalValue := totalValue st + DeFiActivity.amount a |}.

(** Calculate credit metrics from DeFi activity.  [activities] is the
    awaited result of [extractDeFiActivity(address)], [now] the value of
    [Date.now()]. *)
Definition calculateCreditMetrics (now : number) (activities : list DeFiActivity.t)
  : CreditMetrics.t :=
  let metrics0 :=
    {| CreditMetrics.totalBorrowed := 0;
       CreditMetrics.totalRepaid := 0;
       CreditMetrics.onTimePayments := 0;
       CreditMetrics.latePayments := 0;
       CreditMetrics.defaults := 0;
       CreditMetrics.oldestActivityDays := 0;
       CreditMetrics.uniqueProtocols := [];
       CreditMetrics.averageTransactionValue := 0;
       CreditMetrics.totalTransactions := length_number activities;
       CreditMetrics.utilizationHistory := [] |} in
  if strict_eq (length_number activities) 0 then metrics0
  else
    let oldestTimestamp :=
      Math_min_list (List.map DeFiActivity.timestamp activities) in
    let now_s := now / 1000 in
    let oldestActivityDays :=
      Math_floor ((now_s - oldestTimestamp) / (60 * 60 * 24)) in
    let metrics1 :=
      {| CreditMetrics.totalBorrowed := CreditMetrics.totalBorrowed metrics0;
         CreditMetrics.totalRepaid := CreditMetrics.totalRepaid metrics0;
         CreditMetrics.onTimePayments := CreditMetrics.onTimePayments metrics0;
         CreditMetrics.latePayments := CreditMetrics.latePayments metrics0;
         CreditMetrics.defaults := CreditMetrics.defaults metrics0;
         CreditMetrics.oldestActivityDays := oldestActivityDays;
         CreditMetrics.uniqueProtocols := CreditMetrics.uniqueProtocols metrics0;
         CreditMetrics.averageTransactionValue :=
           CreditMetrics.averageTransactionValue metrics0;
         CreditMetrics.totalTransactions := CreditMetrics.totalTransactions metrics0;
         CreditMetrics.utilizationHistory := CreditMetrics.utilizationHistory metrics0 |} in
    let st := fold_left step activities {| metrics := metrics1; totalValue := 0 |} in
    let m := metrics st in
    let average := totalValue st / length_number activities in
    let borrowed := CreditMetrics.totalBorrowed m in
    let repaid := CreditMetrics.totalRepaid m in
    {| CreditMetrics.totalBorrowed := borrowed;
       CreditMetrics.totalRepaid := repaid;
       CreditMetrics.onTimePayments := CreditMetrics.onTimePayments m;
       CreditMetrics.latePayments := CreditMetrics.latePayments m;
       CreditMetrics.defaults := CreditMetrics.defaults m;
       CreditMetrics.oldestActivityDays := CreditMetrics.oldestActivityDays m;
       CreditMetrics.uniqueProtocols := CreditMetrics.uniqueProtocols m;
       CreditMetrics.averageTransactionValue := average;
       CreditMetrics.totalTransactions := CreditMetrics.totalTransactions m;
       CreditMetrics.utilizationHistory :=
         if gt borrowed 0
         then (CreditMetrics.utilizationHistory m ++ [(borrowed - repaid) / borrowed])%list
         else CreditMetrics.utilizationHistory m |}.

(** ** Activity extraction *)

(** The parts of a Helius [EnhancedTransaction] that the client reads.
    The data is parsed JSON: a field the code guards with [?.], [&&] or
    [||] may be missing, which is [None]. *)
Module NativeTransfer.
Record t := {
  fromUserAccount : string;
  toUserAccount : string;
  amount : number
}.
End NativeTransfer.

Module TokenTransfer.
Record t := {
  fromUserAccount : string;
  toUserAccount : string;
  tokenAmount : number;
  mint : string
}.
End TokenTransfer.

Module RawTokenAmount.
Record t := {
  tokenAmount : string;
  decimals : number
}.
End RawTokenAmount.

Module TokenInput.
Record t := {
  userAccount : string;
  tokenAccount : string;
  mint : string;
  rawTokenAmount : RawTokenAmount.t
}.
End TokenInput.

Module NativeInput.
Record t := {
  account : string;
  amount : string
}.
End NativeInput.

Module SwapEvent.
Record t := {
  nativeInput : option NativeInput.t;
  tokenInputs : option (list TokenInput.t)
}.
End SwapEvent.

Module TransactionEvent.
Record t := {
  swap : option SwapEvent.t
}.
End TransactionEvent.

Module EnhancedTransaction.
Record t := {
  signature : string;
  timestamp : number;
  type : option string;
  source : option string;
  description : option string;
  nativeTransfers : option (list NativeTransfer.t);
  tokenTransfers : option (list TokenTransfer.t);
  events : option TransactionEvent.t
}.
End EnhancedTransaction.

(** [s || d] for a string that may be missing: the empty string is falsy. *)
Definition str_or (s : option string) (d : string) : string :=
  match s with
  | Some x => if String.eqb x EmptyString then d else x
  | None => d
  end.

(** [s.includes(sub)]. *)
Fixpoint includes (s sub : string) : bool :=
  String.prefix sub s
  || match s with
     | EmptyString => false
     | String _ s' => includes s' sub
     end.

(** [xs && xs.length > 0] followed by [xs[0]]. *)
Definition first {A : Type} (xs : option (list A)) : option A :=
  match xs with
  | Some (x :: _) => Some x
  | _ => None
  end.

Section Parser.

(** Functions of the platform, left open: [String.prototype.toLowerCase]
    (the Unicode case mapping), [parseFloat] and [Math.pow]. *)
Variable toLowerCase : string -> string.
Variable parseFloat : string -> number.
Variable Math_pow : number -> number -> number.

Definition extractAmount (tx : EnhancedTransaction.t) : number :=
  match first (EnhancedTransaction.nativeTransfers tx) with
  | Some t => NativeTransfer.amount t / 1e9
  | None =>
    match first (EnhancedTransaction.tokenTransfers tx) with
    | Some t => TokenTransfer.tokenAmount t
    | None =>
      match
        match EnhancedTransaction.events tx with
        | Some ev => TransactionEvent.swap ev
        | None => None
        end
      with
      | Some sw =>
        match SwapEvent.nativeInput sw with
        | Some input => parseFloat (NativeInput.amount input) / 1e9
        | None =>
          match first (SwapEvent.tokenInputs sw) with
          | Some input =>
              parseFloat (RawTokenAmount.tokenAmount (TokenInput.rawTokenAmount input))
              / Math_pow 10 (RawTokenAmount.decimals (TokenInput.rawTokenAmount input))
          | None => 0
          end
        end
      | None => 0
      end
    end
  end.

Definition extractToken (tx : EnhancedTransaction.t) : string :=
  match first (EnhancedTransaction.tokenTransfers tx) with
  | Some t => TokenTransfer.mint t
  | None => "SOL"
  end.

(** The object literals of [parseActivityFromTransaction]; [onTime] is
    only written for a repayment. *)
Definition activity (tx : EnhancedTransaction.t) (source : string)
  (a : Action) (onTime : option bool) : DeFiActivity.t :=
  {| DeFiActivity.signature := EnhancedTransaction.signature tx;
     DeFiActivity.timestamp := EnhancedTransaction.timestamp tx;
     DeFiActivity.protocol := source;
     DeFiActivity.action := a;
     DeFiActivity.amount := extractAmount tx;
     DeFiActivity.token := extractToken tx;
     DeFiActivity.successful := true;
     DeFiActivity.onTime := onTime |}.

(** [tx.events?.swap] as a condition. *)
Definition has_swap (tx : EnhancedTransaction.t) : bool :=
  match EnhancedTransaction.events tx with
  | Some ev => match TransactionEvent.swap ev with Some _ => true | None => false end
  | None => false
  end.

(** Parse a single transaction into DeFi activity; [None] is [null]. *)
Definition parseActivityFromTransaction (tx : EnhancedTransaction.t)
  : option DeFiActivity.t :=
  let type := str_or (option_map toLowerCase (EnhancedTransaction.type tx)) "" in
  let description :=
    str_or (option_map toLowerCase (EnhancedTransaction.description tx)) "" in
  let source := str_or (EnhancedTransaction.source tx) "Unknown" in
  if String.eqb type "loan" || includes description "borrow"
     || includes description "loan"
  then Some (activity tx source borrow None)
  else if includes description "repay" || includes description "payback"
  then Some (activity tx source repay (Some true))
  else if String.eqb type "deposit" || includes description "deposit"
          || includes description "supply"
  then Some (activity tx source deposit None)
  else if String.eqb type "withdraw" || includes description "withdraw"
  then Some (activity tx source withdraw None)
  else if includes description "stake" && negb (includes description "unstake")
  then Some (activity tx source stake None)
  else if String.eqb type "swap" || has_swap tx
  then Some (activity tx source swap None)
  else None.

(** The loop of [extractDeFiActivity] over the transactions that
    [getEnhancedTransactions] returned. *)
Definition extractDeFiActivity (transactions : list EnhancedTransaction.t)
  : list DeFiActivity.t :=
  fold_left
    (fun activities tx =>
       match parseActivityFromTransaction tx with
       | Some a => (activities ++ [a])%list
       | None => activities
       end)
    transactions [].

End Parser.

End Helius.

(* ================================================================== *)
(** * Tiers and colours on display *)
(* ================================================================== *)

(** The string a [Rating] stands for. *)
Definition Rating_name (r : Rating) : string :=
  match r with
  | Poor => "Poor"
  | Fair => "Fair"
  | Good => "Good"
  | VeryGood => "Very Good"
  | Excellent => "Excellent"
  end.

(** [getTierColor] of [src/unnamed/part_000]. *)
Module TierColor.

Definition getTierColor (tier : Rating) : string :=
  match tier with
  | Excellent => "#10b981"
  | VeryGood => "#22c55e"
  | Good => "#eab308"
  | Fair => "#f97316"
  | Poor => "#ef4444"
  end.

End TierColor.

(** The computations of [src/frontend/components/ScoreDisplay.tsx] that do
    not render anything. *)
Module ScoreDisplay.
Import Constants.
Local Open Scope float_scope.

(** The [tier] memo of [ScoreDisplay] and of [MiniScore]. *)
Definition tier (score : number) : TierInfo :=
  if ge score (min CREDIT_TIERS.EXCELLENT) then CREDIT_TIERS.EXCELLENT
  else if ge score (min CREDIT_TIERS.VERY_GOOD) then CREDIT_TIERS.VERY_GOOD
  else if ge score (min CREDIT_TIERS.GOOD) then CREDIT_TIERS.GOOD
  else if ge score (min CREDIT_TIERS.FAIR) then CREDIT_TIERS.FAIR
  else CREDIT_TIERS.POOR.

(** The [tierConfig] memo of [TierBadge]: a [switch] on the tier string. *)
Definition tierConfig (tier : string) : TierInfo :=
  if String.eqb tier "Excellent" then CREDIT_TIERS.EXCELLENT
  else if String.eqb tier "Very Good" then CREDIT_TIERS.VERY_GOOD
  else if String.eqb tier "Good" then CREDIT_TIERS.GOOD
  else if String.eqb tier "Fair" then CREDIT_TIERS.FAIR
  else CREDIT_TIERS.POOR.

Definition getTierColorFromRating (rating : string) : string :=
  if String.eqb rating "Excellent" then color CREDIT_TIERS.EXCELLENT
  else if String.eqb rating "Very Good" then color CREDIT_TIERS.VERY_GOOD
  else if String.eqb rating "Good" then color CREDIT_TIERS.GOOD
  else if String.eqb rating "Fair" then color CREDIT_TIERS.FAIR
  else color CREDIT_TIERS.POOR.


End ScoreDisplay.

(* ================================================================== *)
(** * Properties *)
(* ================================================================== *)

Section ConcreteInputs.
Local Open Scope float_scope.

(** The all-zero metrics: no activity at all. *)
Definition all_zero_metrics : CreditMetrics.t :=
  {| CreditMetrics.totalBorrowed := 0;
     CreditMetrics.totalRepaid := 0;
     CreditMetrics.onTimePayments := 0;
     CreditMetrics.latePayments := 0;
     CreditMetrics.defaults := 0;
     CreditMetrics.oldestActivityDays := 0;
     CreditMetrics.uniqueProtocols := [];
     CreditMetrics.averageTransactionValue := 0;
     CreditMetrics.totalTransactions := 0;
     CreditMetrics.utilizationHistory := [] |}.

(** Metrics with the given payment counts and nothing else. *)
Definition payment_metrics (onTime late defaults : number) : CreditMetrics.t :=
  {| CreditMetrics.totalBorrowed := 0;
     CreditMetrics.totalRepaid := 0;
     CreditMetrics.onTimePayments := onTime;
     CreditMetrics.latePayments := late;
     CreditMetrics.defaults := defaults;
     CreditMetrics.oldestActivityDays := 0;
     CreditMetrics.uniqueProtocols := [];
     CreditMetrics.averageTransactionValue := 0;
     CreditMetrics.totalTransactions := 0;
     CreditMetrics.utilizationHistory := [] |}.

End ConcreteInputs.

(* ------------------------------------------------------------------ *)
(** ** Facts on numbers *)

Module NumberFacts.

Lemma SFcompare_antisym (x y : spec_float) :
  SFcompare y x = option_map CompOpp (SFcompare x y).
Proof.
  destruct x as [[]|[]| |[] mx ex], y as [[]|[]| |[] my ey]; try reflexivity;
    cbn [SFcompare option_map]; f_equal;
    rewrite (Z.compare_antisym ex ey);
    destruct (ex ?= ey)%Z; cbn [CompOpp]; try reflexivity;
    rewrite (Pos.compare_cont_antisym mx my Eq); cbn [CompOpp];
    reflexivity.
Qed.

Lemma SFcompare_refl (x : spec_float) :
  x <> S754_nan -> SFcompare x x = Some Eq.
Proof.
  destruct x as [[]|[]| |[] m e]; intros H; try reflexivity; try congruence;
    cbn [SFcompare]; rewrite Z.compare_refl;
    change (Pos.compare_cont Eq m m) with (m ?= m)%positive;
    now rewrite Pos.compare_refl.
Qed.

Lemma is_nan_spec (x : number) :
  is_nan x = true <-> Prim2SF x = S754_nan.
Proof.
  unfold is_nan. rewrite eqb_spec. unfold SFeqb. split.
  - destruct (Prim2SF x) eqn:E; try reflexivity; intros H;
      rewrite SFcompare_refl in H by congruence; discriminate.
  - intros ->. reflexivity.
Qed.

Lemma not_nan_spec (x : number) :
  is_nan x = false <-> Prim2SF x <> S754_nan.
Proof.
  rewrite <- is_nan_spec. destruct (is_nan x); split; congruence.
Qed.

Lemma ltb_leb (x y : number) :
  PrimFloat.ltb x y = true -> PrimFloat.leb x y = true.
Proof.
  rewrite ltb_spec, leb_spec. unfold SFltb, SFleb.
  destruct (SFcompare _ _) as [[]|]; congruence.
Qed.

(** Among numbers, [not (a < b)] gives [b <= a]. *)
Lemma not_ltb_leb (a b : number) :
  is_nan a = false -> is_nan b = false ->
  PrimFloat.ltb a b = false -> PrimFloat.leb b a = true.
Proof.
  rewrite !not_nan_spec, ltb_spec, leb_spec. unfold SFltb, SFleb.
  intros Ha Hb. rewrite (SFcompare_antisym (Prim2SF a) (Prim2SF b)).
  destruct (Prim2SF a) as [[]|[]| |[] ma ea], (Prim2SF b) as [[]|[]| |[] mb eb];
    try congruence; cbn [SFcompare option_map CompOpp]; try congruence;
    destruct (ea ?= eb)%Z; cbn [CompOpp]; try congruence;
    destruct (Pos.compare_cont Eq ma mb); cbn [CompOpp]; congruence.
Qed.

Lemma leb_not_nan_l (a b : number) : PrimFloat.leb a b = true -> is_nan a = false.
Proof.
  rewrite leb_spec, not_nan_spec. unfold SFleb. intros H E. rewrite E in H.
  discriminate.
Qed.

Lemma leb_not_nan_r (a b : number) : PrimFloat.leb a b = true -> is_nan b = false.
Proof.
  rewrite leb_spec, not_nan_spec. unfold SFleb. intros H E. rewrite E in H.
  destruct (Prim2SF a); discriminate.
Qed.

(** [Math.max] and [Math.min] propagate NaN and nothing else. *)
Lemma Math_max_nan (a b : number) :
  is_nan (Math_max a b) = is_nan a || is_nan b.
Proof.
  unfold Math_max.
  destruct (is_nan a) eqn:Ha, (is_nan b) eqn:Hb; cbn [orb]; try reflexivity.
  destruct (PrimFloat.ltb a b); [exact Hb|].
  destruct (PrimFloat.ltb b a); [exact Ha|].
  destruct (get_sign a); assumption.
Qed.

Lemma Math_min_nan (a b : number) :
  is_nan (Math_min a b) = is_nan a || is_nan b.
Proof.
  unfold Math_min.
  destruct (is_nan a) eqn:Ha, (is_nan b) eqn:Hb; cbn [orb]; try reflexivity.
  destruct (PrimFloat.ltb a b); [exact Ha|].
  destruct (PrimFloat.ltb b a); [exact Hb|].
  destruct (get_sign a); assumption.
Qed.

(** [Math.round] leaves NaN alone. *)
Lemma Math_round_nan (x : number) : is_nan x = true -> Math_round x = x.
Proof.
  rewrite is_nan_spec. unfold Math_round. now intros ->.
Qed.

(** Clamping a number to [lo, hi] with [Math.min(hi, Math.max(lo, x))]. *)
Lemma clamp_bounds (lo hi x : number) :
  PrimFloat.leb lo hi = true -> is_nan x = false ->
  let c := Math_min hi (Math_max lo x) in
  PrimFloat.leb lo c = true /\ PrimFloat.leb c hi = true.
Proof.
  intros Hlh Hx.
  pose proof (leb_not_nan_l _ _ Hlh) as Hlo.
  pose proof (leb_not_nan_r _ _ Hlh) as Hhi.
  assert (Hll : PrimFloat.leb lo lo = true).
  { apply not_ltb_leb; trivial.
    rewrite ltb_spec. unfold SFltb.
    apply not_nan_spec in Hlo. now rewrite SFcompare_refl. }
  assert (Hhh : PrimFloat.leb hi hi = true).
  { apply not_ltb_leb; trivial.
    rewrite ltb_spec. unfold SFltb.
    apply not_nan_spec in Hhi. now rewrite SFcompare_refl. }
  assert (Hm : is_nan (Math_max lo x) = false /\
               PrimFloat.leb lo (Math_max lo x) = true).
  { split; [now rewrite Math_max_nan, Hlo, Hx|].
    unfold Math_max. rewrite Hlo, Hx. cbn [orb].
    destruct (PrimFloat.ltb lo x) eqn:E1; [now apply ltb_leb|].
    destruct (PrimFloat.ltb x lo) eqn:E2; [assumption|].
    destruct (get_sign lo); [now apply not_ltb_leb | assumption]. }
  destruct Hm as [Hmn Hml]. set (m := Math_max lo x) in *.
  cbv zeta. unfold Math_min. rewrite Hhi, Hmn. cbn [orb].
  destruct (PrimFloat.ltb hi m) eqn:E1; [now split|].
  destruct (PrimFloat.ltb m hi) eqn:E2; [split; [assumption | now apply ltb_leb]|].
  destruct (get_sign hi); [now split|].
  split; [assumption | now apply not_ltb_leb].
Qed.

Lemma digits2_pos_bounds (m : positive) :
  2 ^ (Z.pos (digits2_pos m) - 1) <= Z.pos m < 2 ^ Z.pos (digits2_pos m).
Proof.
  induction m as [m IH|m IH|]; cbn [digits2_pos].
  - rewrite Pos2Z.inj_succ.
    replace (Z.succ (Z.pos (digits2_pos m)) - 1)
      with (Z.succ (Z.pos (digits2_pos m) - 1)) by lia.
    rewrite !Z.pow_succ_r by lia. lia.
  - rewrite Pos2Z.inj_succ.
    replace (Z.succ (Z.pos (digits2_pos m)) - 1)
      with (Z.succ (Z.pos (digits2_pos m) - 1)) by lia.
    rewrite !Z.pow_succ_r by lia. lia.
  - cbn. lia.
Qed.

Lemma compare_cont_Eq (p q : positive) :
  Pos.compare_cont Eq p q = (p ?= q)%positive.
Proof. reflexivity. Qed.

(** The doubles between 300 and 850 have exponent -44 or -43; the bounds
    on the mantissa are [300 * 2^44], [2^53], [2^52] and [850 * 2^43]. *)
Lemma between_300_850 (x : number) :
  PrimFloat.leb 300 x = true -> PrimFloat.leb x 850 = true ->
  exists m : positive,
    (Prim2SF x = S754_finite false m (-44)
     /\ 5277655813324800 <= Z.pos m < 9007199254740992)
    \/ (Prim2SF x = S754_finite false m (-43)
        /\ 4503599627370496 <= Z.pos m <= 7476679068876800).
Proof.
  rewrite !leb_spec. intros H1 H2.
  pose proof (Prim2SF_valid x) as Hv.
  change (Prim2SF 300) with (S754_finite false 5277655813324800 (-44)) in H1.
  change (Prim2SF 850) with (S754_finite false 7476679068876800 (-43)) in H2.
  destruct (Prim2SF x) as [s|s| |s m e];
    try (destruct s; discriminate); try discriminate.
  destruct s; [discriminate|].
  exists m.
  unfold SFleb in H1, H2. cbn [SFcompare] in H1, H2.
  cbn [valid_binary] in Hv.
  unfold bounded, canonical_mantissa, fexp, SpecFloat.emin in Hv.
  apply andb_prop in Hv. destruct Hv as [Hc _]. apply Z.eqb_eq in Hc.
  change prec with 53 in Hc. change emax with 1024 in Hc.
  assert (He : e = -44 \/ e = -43).
  { destruct (Z.compare_spec (-44) e) as [E1|E1|E1]; try discriminate H1;
    destruct (Z.compare_spec e (-43)) as [E2|E2|E2]; try discriminate H2;
    clear H1 H2 Hc; lia. }
  assert (Hdig : Z.pos (digits2_pos m) = 53).
  { clear H1 H2. revert Hc. generalize (Z.pos (digits2_pos m)). intros d Hc.
    destruct He; subst e; lia. }
  pose proof (digits2_pos_bounds m) as Hd. rewrite Hdig in Hd.
  change (2 ^ (53 - 1)) with 4503599627370496 in Hd.
  change (2 ^ 53) with 9007199254740992 in Hd.
  clear Hc Hdig.
  destruct He; subst e.
  - left. split; [reflexivity|].
    rewrite Z.compare_refl in H1.
    rewrite compare_cont_Eq in H1.
    destruct (Pos.compare_spec 5277655813324800 m) as [E|E|E];
      try discriminate H1; clear H1 H2;
      [ subst m | apply Pos2Z.pos_lt_pos in E ]; lia.
  - right. split; [reflexivity|].
    rewrite Z.compare_refl in H2.
    rewrite compare_cont_Eq in H2.
    destruct (Pos.compare_spec m 7476679068876800) as [E|E|E];
      try discriminate H2; clear H1 H2;
      [ subst m | apply Pos2Z.pos_lt_pos in E ]; lia.
Qed.

(** The integers from [lo], [n] of them. *)
Fixpoint Zrange (lo : Z) (n : nat) : list Z :=
  match n with
  | O => []
  | S n' => lo :: Zrange (lo + 1) n'
  end.

Lemma Zrange_In (lo : Z) (n : nat) (z : Z) :
  lo <= z < lo + Z.of_nat n -> In z (Zrange lo n).
Proof.
  revert lo. induction n as [|n IH]; intros lo Hz; [lia|].
  cbn [Zrange]. destruct (Z.eq_dec lo z) as [->|Hne]; [now left|].
  right. apply IH. lia.
Qed.

(** A property of the integers of a range, checked by enumeration. *)
Lemma Zrange_forall (P : Z -> bool) (lo : Z) (n : nat) :
  forallb P (Zrange lo n) = true ->
  forall z, lo <= z < lo + Z.of_nat n -> P z = true.
Proof.
  intros H z Hz. rewrite forallb_forall in H. apply H. now apply Zrange_In.
Qed.

(** The integers 300..850, as numbers, compare as the integers do. *)
Lemma of_int_between (n : Z) :
  300 <= n <= 850 ->
  PrimFloat.leb 300 (of_int n) = true /\ PrimFloat.leb (of_int n) 850 = true.
Proof.
  intros Hn. apply andb_prop.
  apply (Zrange_forall
           (fun z => PrimFloat.leb 300 (of_int z) && PrimFloat.leb (of_int z) 850)
           300 551).
  - vm_compute. reflexivity.
  - lia.
Qed.

(** [Math.round] maps the numbers between 300 and 850 to the integers
    between 300 and 850. *)
Lemma Math_round_between (x : number) :
  PrimFloat.leb 300 x = true -> PrimFloat.leb x 850 = true ->
  exists n : Z, 300 <= n <= 850 /\ Math_round x = of_int n.
Proof.
  intros H1 H2.
  destruct (between_300_850 x H1 H2) as [m [[E Hm]|[E Hm]]];
    unfold Math_round; rewrite E.
  - change (0 <=? -44) with false. cbv iota.
    assert (Hn : fin_num false m (-44) = Z.pos m).
    { unfold fin_num. change (2 ^ Z.max (-44) 0) with 1. apply Z.mul_1_r. }
    assert (Hd : fin_den (-44) = 17592186044416) by reflexivity.
    rewrite Hn, Hd. clear Hn Hd E H1 H2.
    set (r := (2 * Z.pos m + 17592186044416) / (2 * 17592186044416)).
    assert (Hr : 300 <= r <= 512).
    { subst r. revert Hm. generalize (Z.pos m). intros z Hz. split.
      - apply Z.div_le_lower_bound; lia.
      - apply Z.lt_succ_r. apply Z.div_lt_upper_bound; lia. }
    exists r. split; [lia|].
    destruct (Z.eqb_spec r 0); [lia | reflexivity].
  - change (0 <=? -43) with false. cbv iota.
    assert (Hn : fin_num false m (-43) = Z.pos m).
    { unfold fin_num. change (2 ^ Z.max (-43) 0) with 1. apply Z.mul_1_r. }
    assert (Hd : fin_den (-43) = 8796093022208) by reflexivity.
    rewrite Hn, Hd. clear Hn Hd E H1 H2.
    set (r := (2 * Z.pos m + 8796093022208) / (2 * 8796093022208)).
    assert (Hr : 512 <= r <= 850).
    { subst r. revert Hm. generalize (Z.pos m). intros z Hz. split.
      - apply Z.div_le_lower_bound; lia.
      - apply Z.lt_succ_r. apply Z.div_lt_upper_bound; lia. }
    exists r. split; [lia|].
    destruct (Z.eqb_spec r 0); [lia | reflexivity].
Qed.

(** NaN is absorbing for the arithmetic and makes every comparison false. *)
Lemma add_nan_r (a b : number) : is_nan b = true -> is_nan (a + b)%float = true.
Proof.
  rewrite !is_nan_spec, add_spec. intros ->.
  now destruct (Prim2SF a) as [[]|[]| |].
Qed.

Lemma add_nan_l (a b : number) : is_nan a = true -> is_nan (a + b)%float = true.
Proof.
  rewrite !is_nan_spec, add_spec. now intros ->.
Qed.

Lemma mul_nan_l (a b : number) : is_nan a = true -> is_nan (a * b)%float = true.
Proof.
  rewrite !is_nan_spec, mul_spec. now intros ->.
Qed.

Lemma mul_nan_r (a b : number) : is_nan b = true -> is_nan (a * b)%float = true.
Proof.
  rewrite !is_nan_spec, mul_spec. intros ->.
  now destruct (Prim2SF a) as [[]|[]| |].
Qed.

Lemma div_nan_l (a b : number) : is_nan a = true -> is_nan (a / b)%float = true.
Proof.
  rewrite !is_nan_spec, div_spec. now intros ->.
Qed.

Lemma ltb_nan_l (a b : number) : is_nan a = true -> PrimFloat.ltb a b = false.
Proof.
  rewrite is_nan_spec, ltb_spec. now intros ->.
Qed.

Lemma ltb_nan_r (a b : number) : is_nan b = true -> PrimFloat.ltb a b = false.
Proof.
  rewrite is_nan_spec, ltb_spec. intros ->. unfold SFltb.
  now destruct (Prim2SF a) as [[]|[]| |].
Qed.

Lemma leb_nan_l (a b : number) : is_nan a = true -> PrimFloat.leb a b = false.
Proof.
  rewrite is_nan_spec, leb_spec. now intros ->.
Qed.

Lemma leb_nan_r (a b : number) : is_nan b = true -> PrimFloat.leb a b = false.
Proof.
  rewrite is_nan_spec, leb_spec. intros ->. unfold SFleb.
  now destruct (Prim2SF a) as [[]|[]| |].
Qed.

Lemma leb_not_ltb (a b : number) :
  PrimFloat.leb a b = true -> PrimFloat.ltb b a = false.
Proof.
  rewrite leb_spec, ltb_spec. unfold SFleb, SFltb.
  rewrite (SFcompare_antisym (Prim2SF a) (Prim2SF b)).
  destruct (SFcompare (Prim2SF a) (Prim2SF b)) as [[]|]; cbn; congruence.
Qed.

End NumberFacts.

(* ------------------------------------------------------------------ *)
(** ** Integers as numbers: exact below [2^53] *)

Module IntegerFacts.
Import NumberFacts.

(** [iter_pos] is iteration. *)
Lemma iter_pos_nat {A : Type} (f : A -> A) (p : positive) (x : A) :
  iter_pos f p x = Nat.iter (Pos.to_nat p) f x.
Proof.
  revert x. induction p as [p IH|p IH|]; intros x; cbn [iter_pos].
  - rewrite !IH.
    replace (Pos.to_nat p~1) with (S (Pos.to_nat p + Pos.to_nat p)) by lia.
    now rewrite Nat.iter_succ_r, Nat.iter_add.
  - rewrite !IH.
    replace (Pos.to_nat p~0) with (Pos.to_nat p + Pos.to_nat p)%nat by lia.
    now rewrite Nat.iter_add.
  - reflexivity.
Qed.

Lemma iter_xO_nat (n : nat) (q : positive) :
  Z.pos (Nat.iter n xO q) = Z.pos q * 2 ^ Z.of_nat n.
Proof.
  induction n as [|n IH]; [cbn; lia|].
  rewrite Nat.iter_succ, Pos2Z.inj_xO, IH, Nat2Z.inj_succ, Z.pow_succ_r by lia.
  lia.
Qed.

Lemma digits_xO_nat (n : nat) (q : positive) :
  Z.pos (digits2_pos (Nat.iter n xO q)) = Z.pos (digits2_pos q) + Z.of_nat n.
Proof.
  induction n as [|n IH]; [cbn; lia|].
  rewrite Nat.iter_succ. cbn [digits2_pos]. rewrite Pos2Z.inj_succ, IH. lia.
Qed.

Lemma shr_1_nat (n : nat) (q : positive) :
  Nat.iter n shr_1 (Build_shr_record (Z.pos (Nat.iter n xO q)) false false)
  = Build_shr_record (Z.pos q) false false.
Proof.
  revert q. induction n as [|n IH]; intros q; [reflexivity|].
  rewrite Nat.iter_succ_r, Nat.iter_succ.
  cbn [shr_1 orb]. apply IH.
Qed.

Lemma iter_xO_inj (k : nat) (q M : positive) :
  Z.pos M = Z.pos q * 2 ^ Z.of_nat k -> M = Nat.iter k xO q.
Proof.
  intros H. apply Pos2Z.inj. now rewrite iter_xO_nat.
Qed.

(** Rounding a mantissa that only carries trailing zeros beyond 53 bits is
    exact. *)
Lemma binary_round_aux_exact (s : bool) (M q : positive) (e : Z) (k : nat) :
  Z.pos (digits2_pos q) = 53 ->
  Z.pos M = Z.pos q * 2 ^ Z.of_nat k ->
  -1074 <= e + Z.of_nat k <= 971 ->
  binary_round_aux prec emax s (Z.pos M) e loc_Exact
  = S754_finite s q (e + Z.of_nat k).
Proof.
  intros Hq HM He. apply iter_xO_inj in HM. subst M.
  unfold binary_round_aux, shr_fexp.
  cbn [Zdigits2 shr_record_of_loc].
  rewrite digits_xO_nat, Hq.
  unfold fexp, SpecFloat.emin. change prec with 53. change emax with 1024.
  replace (Z.max (53 + Z.of_nat k + e - 53) (3 - 1024 - 53) - e)
    with (Z.of_nat k) by lia.
  assert (Hshr :
    shr {| shr_m := Z.pos (Nat.iter k xO q); shr_r := false; shr_s := false |}
        e (Z.of_nat k)
    = ({| shr_m := Z.pos q; shr_r := false; shr_s := false |}, e + Z.of_nat k)).
  { destruct k as [|k]; [cbn; f_equal; lia|].
    unfold shr.
    change (Z.of_nat (S k)) with (Z.pos (Pos.of_succ_nat k)).
    cbv iota beta. rewrite iter_pos_nat, SuccNat2Pos.id_succ, shr_1_nat.
    reflexivity. }
  rewrite Hshr. cbn [shr_m loc_of_shr_record round_nearest_even Zdigits2
                     shr_record_of_loc].
  rewrite Hq.
  replace (Z.max (53 + (e + Z.of_nat k) - 53) (3 - 1024 - 53) - (e + Z.of_nat k))
    with 0 by lia.
  cbn [shr shr_m].
  destruct (Z.leb_spec (e + Z.of_nat k) (1024 - 53)); [reflexivity | lia].
Qed.

Lemma fexp_eq (x : Z) : -1074 <= x - 53 -> fexp prec emax x = x - 53.
Proof.
  intros H. unfold fexp, SpecFloat.emin. change prec with 53.
  change emax with 1024. lia.
Qed.

Lemma shl_align_ge (mx : positive) (ex ex' : Z) :
  ex <= ex' -> shl_align mx ex ex' = (mx, ex).
Proof.
  intros H. unfold shl_align. destruct (ex' - ex) eqn:E; try reflexivity. lia.
Qed.

Lemma shl_align_lt (mx : positive) (ex : Z) (k : nat) :
  shl_align mx ex (ex - Z.of_nat k) = (Nat.iter k xO mx, ex - Z.of_nat k).
Proof.
  unfold shl_align. replace (ex - Z.of_nat k - ex) with (- Z.of_nat k) by lia.
  destruct k as [|k]; [cbn; f_equal; lia|].
  change (- Z.of_nat (S k)) with (Z.neg (Pos.of_succ_nat k)). cbv iota beta.
  now rewrite Pos2Nat.inj_iter, SuccNat2Pos.id_succ.
Qed.

Lemma binary_round_shr (s : bool) (M q : positive) (e : Z) (k : nat) :
  Z.pos (digits2_pos q) = 53 ->
  Z.pos M = Z.pos q * 2 ^ Z.of_nat k ->
  -1074 <= e + Z.of_nat k <= 971 ->
  binary_round prec emax s M e = S754_finite s q (e + Z.of_nat k).
Proof.
  intros Hq HM He. unfold binary_round.
  assert (Hd : Z.pos (digits2_pos M) = 53 + Z.of_nat k).
  { rewrite (iter_xO_inj _ _ _ HM), digits_xO_nat. lia. }
  rewrite Hd, fexp_eq by lia.
  rewrite shl_align_ge by lia.
  now apply binary_round_aux_exact.
Qed.

Lemma binary_round_shl (s : bool) (M q : positive) (e : Z) (k : nat) :
  Z.pos (digits2_pos q) = 53 ->
  Z.pos q = Z.pos M * 2 ^ Z.of_nat k ->
  -1074 <= e - Z.of_nat k <= 971 ->
  binary_round prec emax s M e = S754_finite s q (e - Z.of_nat k).
Proof.
  intros Hq HM He. unfold binary_round.
  pose proof (iter_xO_inj _ _ _ HM) as Hiter.
  assert (Hd : Z.pos (digits2_pos M) = 53 - Z.of_nat k).
  { rewrite <- Hq, Hiter, digits_xO_nat. lia. }
  rewrite Hd, fexp_eq by lia.
  replace (53 - Z.of_nat k + e - 53) with (e - Z.of_nat k) by lia.
  rewrite shl_align_lt, <- Hiter.
  replace (e - Z.of_nat k) with (e - Z.of_nat k + Z.of_nat 0) at 2
    by (cbn [Z.of_nat]; lia).
  apply binary_round_aux_exact; trivial; cbn [Z.of_nat]; lia.
Qed.

(** The number of positions by which the 53-bit mantissa of an integer
    below [2^53] is shifted. *)
Definition shift_of (p : positive) : nat :=
  Z.to_nat (53 - Z.pos (digits2_pos p)).

(** The binary64 representation of a non-negative integer below [2^53]. *)
Definition SFint (a : Z) : spec_float :=
  match a with
  | Z.pos p =>
      S754_finite false (Nat.iter (shift_of p) xO p) (- Z.of_nat (shift_of p))
  | _ => S754_zero false
  end.

Lemma digits_le_53 (p : positive) :
  Z.pos p < 2 ^ 53 -> Z.pos (digits2_pos p) <= 53.
Proof.
  intros H. pose proof (digits2_pos_bounds p) as [Hlo _].
  destruct (Z.le_gt_cases (Z.pos (digits2_pos p)) 53) as [|Hgt]; [assumption|].
  assert (2 ^ 53 <= 2 ^ (Z.pos (digits2_pos p) - 1))
    by (apply Z.pow_le_mono_r; lia).
  lia.
Qed.

Lemma shift_of_spec (p : positive) :
  Z.pos p < 2 ^ 53 ->
  Z.of_nat (shift_of p) = 53 - Z.pos (digits2_pos p).
Proof.
  intros H. pose proof (digits_le_53 p H). unfold shift_of. lia.
Qed.

Lemma SFint_digits (p : positive) :
  Z.pos p < 2 ^ 53 ->
  Z.pos (digits2_pos (Nat.iter (shift_of p) xO p)) = 53.
Proof.
  intros H. rewrite digits_xO_nat, shift_of_spec by assumption. lia.
Qed.

Lemma Prim2SF_of_int (a : Z) :
  0 <= a < 2 ^ 53 -> Prim2SF (of_int a) = SFint a.
Proof.
  intros Ha. unfold of_int.
  destruct (Z.ltb_spec a 0) as [|_]; [lia|].
  rewrite of_uint63_spec, Uint63.of_Z_spec.
  rewrite Z.mod_small.
  2:{ split; [lia|]. apply Z.lt_trans with (2 ^ 53); [lia | reflexivity]. }
  destruct a as [|p|p]; [reflexivity | | lia].
  cbn [binary_normalize SFint].
  replace (- Z.of_nat (shift_of p)) with (0 - Z.of_nat (shift_of p)) by lia.
  apply binary_round_shl.
  - apply SFint_digits. lia.
  - apply iter_xO_nat.
  - rewrite shift_of_spec by lia.
    pose proof (digits_le_53 p (proj2 Ha)). lia.
Qed.

Lemma mul_compare_r (c x y : Z) : 0 < c -> (x * c ?= y * c) = (x ?= y).
Proof.
  intros Hc. destruct (Z.compare_spec x y) as [E|E|E].
  - subst. apply Z.compare_refl.
  - apply Z.compare_lt_iff. now apply Z.mul_lt_mono_pos_r.
  - apply Z.compare_gt_iff. now apply Z.mul_lt_mono_pos_r.
Qed.

Lemma SFint_compare (a b : Z) :
  0 <= a < 2 ^ 53 -> 0 <= b < 2 ^ 53 ->
  SFcompare (SFint a) (SFint b) = Some (a ?= b).
Proof.
  intros Ha Hb.
  destruct a as [|pa|pa], b as [|pb|pb]; try lia; try reflexivity.
  cbn [SFint SFcompare]. f_equal.
  pose proof (shift_of_spec pa (proj2 Ha)) as Hka.
  pose proof (shift_of_spec pb (proj2 Hb)) as Hkb.
  pose proof (digits2_pos_bounds pa) as [Hla Hua].
  pose proof (digits2_pos_bounds pb) as [Hlb Hub].
  destruct (Z.compare_spec (- Z.of_nat (shift_of pa)) (- Z.of_nat (shift_of pb)))
    as [E|E|E].
  - assert (Hk : shift_of pa = shift_of pb) by lia.
    rewrite compare_cont_Eq, Pos2Z.inj_compare, !iter_xO_nat, Hk.
    apply mul_compare_r. apply Z.pow_pos_nonneg; lia.
  - symmetry. apply Z.compare_lt_iff.
    assert (2 ^ Z.pos (digits2_pos pa) <= 2 ^ (Z.pos (digits2_pos pb) - 1))
      by (apply Z.pow_le_mono_r; lia).
    lia.
  - symmetry. apply Z.compare_gt_iff.
    assert (2 ^ Z.pos (digits2_pos pb) <= 2 ^ (Z.pos (digits2_pos pa) - 1))
      by (apply Z.pow_le_mono_r; lia).
    lia.
Qed.

(** Integers below [2^53], as numbers, compare as the integers do. *)
Lemma of_int_ltb (a b : Z) :
  0 <= a < 2 ^ 53 -> 0 <= b < 2 ^ 53 ->
  PrimFloat.ltb (of_int a) (of_int b) = (a <? b).
Proof.
  intros Ha Hb. rewrite ltb_spec, !Prim2SF_of_int by assumption.
  unfold SFltb. rewrite SFint_compare by assumption.
  unfold Z.ltb. destruct (a ?= b); reflexivity.
Qed.

Lemma of_int_leb (a b : Z) :
  0 <= a < 2 ^ 53 -> 0 <= b < 2 ^ 53 ->
  PrimFloat.leb (of_int a) (of_int b) = (a <=? b).
Proof.
  intros Ha Hb. rewrite leb_spec, !Prim2SF_of_int by assumption.
  unfold SFleb. rewrite SFint_compare by assumption.
  unfold Z.leb. destruct (a ?= b); reflexivity.
Qed.

Lemma of_int_eqb (a b : Z) :
  0 <= a < 2 ^ 53 -> 0 <= b < 2 ^ 53 ->
  PrimFloat.eqb (of_int a) (of_int b) = (a =? b).
Proof.
  intros Ha Hb. rewrite eqb_spec, !Prim2SF_of_int by assumption.
  unfold SFeqb. rewrite SFint_compare by assumption.
  destruct (Z.compare_spec a b) as [E|E|E]; symmetry;
    [apply Z.eqb_eq | apply Z.eqb_neq | apply Z.eqb_neq]; lia.
Qed.

Lemma digits_mono (p q : positive) :
  Z.pos p <= Z.pos q -> Z.pos (digits2_pos p) <= Z.pos (digits2_pos q).
Proof.
  intros H. pose proof (digits2_pos_bounds p) as [Hlo _].
  pose proof (digits2_pos_bounds q) as [_ Hhi].
  assert (Hlt : 2 ^ (Z.pos (digits2_pos p) - 1) < 2 ^ Z.pos (digits2_pos q)) by lia.
  apply Z.pow_lt_mono_r_iff in Hlt; lia.
Qed.

Lemma SFint_add (a b : Z) :
  0 <= a -> 0 <= b -> a + b < 2 ^ 53 ->
  SFadd prec emax (SFint a) (SFint b) = SFint (a + b).
Proof.
  intros Ha Hb Hab.
  destruct a as [|pa|pa], b as [|pb|pb]; try lia; try reflexivity.
  cbn [Z.add SFint SFadd cond_Zopp].
  assert (Hpa : Z.pos pa < 2 ^ 53) by lia.
  assert (Hpb : Z.pos pb < 2 ^ 53) by lia.
  assert (Hp3 : Z.pos (pa + pb) < 2 ^ 53) by lia.
  pose proof (shift_of_spec pa Hpa) as Hka.
  pose proof (shift_of_spec pb Hpb) as Hkb.
  pose proof (shift_of_spec (pa + pb) Hp3) as Hk3.
  pose proof (digits_mono pa (pa + pb)) as Hda.
  pose proof (digits_mono pb (pa + pb)) as Hdb.
  set (ka := shift_of pa) in *. set (kb := shift_of pb) in *.
  set (k3 := shift_of (pa + pb)) in *.
  set (K := Nat.max ka kb).
  assert (Hez : Z.min (- Z.of_nat ka) (- Z.of_nat kb) = - Z.of_nat K) by lia.
  rewrite Hez.
  replace (- Z.of_nat K) with (- Z.of_nat ka - Z.of_nat (K - ka)) at 1 by lia.
  rewrite shl_align_lt.
  replace (- Z.of_nat K) with (- Z.of_nat kb - Z.of_nat (K - kb)) at 1 by lia.
  rewrite shl_align_lt. cbn [fst Z.add binary_normalize].
  replace (- Z.of_nat k3) with (- Z.of_nat K + Z.of_nat (K - k3)) by lia.
  apply binary_round_shr.
  - subst k3. apply SFint_digits. assumption.
  - rewrite Pos2Z.inj_add, !iter_xO_nat, Pos2Z.inj_add.
    replace (Z.of_nat (K - ka)) with (Z.of_nat K - Z.of_nat ka) by lia.
    replace (Z.of_nat (K - kb)) with (Z.of_nat K - Z.of_nat kb) by lia.
    replace (Z.of_nat (K - k3)) with (Z.of_nat K - Z.of_nat k3) by lia.
    rewrite <- !Z.mul_assoc, <- !Z.pow_add_r by lia.
    replace (Z.of_nat ka + (Z.of_nat K - Z.of_nat ka)) with (Z.of_nat K) by lia.
    replace (Z.of_nat kb + (Z.of_nat K - Z.of_nat kb)) with (Z.of_nat K) by lia.
    replace (Z.of_nat k3 + (Z.of_nat K - Z.of_nat k3)) with (Z.of_nat K) by lia.
    lia.
  - lia.
Qed.

(** Adding integers, as numbers, is exact below [2^53]. *)
Lemma of_int_add (a b : Z) :
  0 <= a -> 0 <= b -> a + b < 2 ^ 53 ->
  PrimFloat.add (of_int a) (of_int b) = of_int (a + b).
Proof.
  intros Ha Hb Hab. apply Prim2SF_inj.
  rewrite add_spec, !Prim2SF_of_int by lia.
  now apply SFint_add.
Qed.

(** A number divided by itself is exactly 1. *)
Lemma div_eucl_self (m : positive) :
  Z.div_eucl (Z.shiftl (Z.pos m) 53) (Z.pos m) = (9007199254740992, 0).
Proof.
  rewrite Z.shiftl_mul_pow2 by lia.
  pose proof (Z.div_mul (2 ^ 53) (Z.pos m) ltac:(lia)) as Hq.
  pose proof (Z.mod_mul (2 ^ 53) (Z.pos m) ltac:(lia)) as Hr.
  rewrite (Z.mul_comm (2 ^ 53)) in Hq, Hr.
  unfold Z.div, Z.modulo in Hq, Hr.
  destruct (Z.div_eucl (Z.pos m * 2 ^ 53) (Z.pos m)) as [q r].
  cbn [fst snd] in Hq, Hr. subst q r. reflexivity.
Qed.

Lemma SFdiv_self (s : bool) (m : positive) (e : Z) :
  SFdiv prec emax (S754_finite s m e) (S754_finite s m e)
  = S754_finite false 4503599627370496 (-52).
Proof.
  unfold SFdiv, SFdiv_core_binary.
  replace (Zdigits2 (Z.pos m) + e - (Zdigits2 (Z.pos m) + e)) with 0 by lia.
  rewrite Z.sub_diag.
  change (Z.min (fexp prec emax 0) 0) with (-53).
  change (0 - -53) with 53.
  cbv iota beta zeta.
  rewrite div_eucl_self.
  replace (xorb s s) with false by (now destruct s).
  assert (Hl : new_location (Z.pos m) 0 = loc_Exact).
  { unfold new_location. destruct (Z.even (Z.pos m)); reflexivity. }
  rewrite Hl.
  change (-52) with (-53 + Z.of_nat 1).
  apply binary_round_aux_exact; [reflexivity | reflexivity | cbn; lia].
Qed.

Lemma of_int_div_self (k : Z) :
  0 < k < 2 ^ 53 -> (of_int k / of_int k)%float = 1%float.
Proof.
  intros Hk. apply Prim2SF_inj.
  rewrite div_spec, Prim2SF_of_int by lia.
  destruct k as [|p|p]; try lia.
  unfold SFint. apply SFdiv_self.
Qed.

End IntegerFacts.

(* ------------------------------------------------------------------ *)
(** ** The empty-activity scenario *)

Module EmptyActivity.
Import CreditScore.
Local Open Scope float_scope.

(** The five component scores of a result, in the order payment history,
    utilization, account history, diversity, recent activity. *)
Definition component_scores (r : CreditScoreResult.t) : list number :=
  let b := CreditScoreResult.breakdown r in
  [ ComponentScore.score (ScoreBreakdown.paymentHistory b);
    ComponentScore.score (ScoreBreakdown.creditUtilization b);
    ComponentScore.score (ScoreBreakdown.accountHistory b);
    ComponentScore.score (ScoreBreakdown.protocolDiversity b);
    ComponentScore.score (ScoreBreakdown.recentActivity b) ].

(** The scenario with a given tier: component scores 50, 70, 20, 20, 20,
    weighted total 45.5, final score 550. *)
Definition scenario (now : number) (tier : Rating) : Prop :=
  let r := calculateCreditScore now all_zero_metrics in
  component_scores r = [50; 70; 20; 20; 20]
  /\ totalWeighted all_zero_metrics = 45.5
  /\ CreditScoreResult.score r = 550
  /\ CreditScoreResult.tier r = tier.

(** C4, as stated, fails: the score 550 of the all-zero metrics lies below
    [CREDIT_TIERS.FAIR.min = 580], so the tier is not "Fair". *)
Lemma empty_activity_tier_not_Fair : ~ scenario 0 Fair.
Proof.
  unfold scenario. intros (_ & _ & _ & Htier).
  vm_compute in Htier. discriminate Htier.
Qed.

(** C4, amended: for the all-zero metrics [calculateCreditScore] returns
    the component scores 50, 70, 20, 20, 20, the weighted total 45.5, the
    final score 550, and the tier "Poor". *)
Theorem empty_activity_scenario : forall now, scenario now Poor.
Proof.
  intros now. unfold scenario. vm_compute. repeat split; reflexivity.
Qed.

End EmptyActivity.

(* ------------------------------------------------------------------ *)
(** ** The two payment-history functions *)

Module PaymentHistory.
Local Open Scope float_scope.

(** The bands of the specified policy: Excellent from 90, Very Good from
    75, Good from 60, Fair from 40, else Poor. *)
Definition policy_rating (score : number) : Rating :=
  if ge score 90 then Excellent
  else if ge score 75 then VeryGood
  else if ge score 60 then Good
  else if ge score 40 then Fair
  else Poor.

(** The specified policy, in the specification's words: no payment at all
    gives 50, rated Fair; otherwise
    [score = max(0, onTimeRate*100 - defaults*15 - latePayments*5)],
    banded by [policy_rating]. *)
Definition policy (onTime late defaults : number) : number * Rating :=
  let total := onTime + late + defaults in
  if strict_eq total 0 then (50, Fair)
  else
    let onTimeRate := onTime / total in
    let score := Math_max 0 (onTimeRate * 100 - defaults * 15 - late * 5) in
    (score, policy_rating score).

Definition policy_of (m : CreditMetrics.t) : number * Rating :=
  policy (CreditMetrics.onTimePayments m) (CreditMetrics.latePayments m)
         (CreditMetrics.defaults m).

(** Score and rating returned by each implementation. *)
Definition main_result (m : CreditMetrics.t) : number * Rating :=
  let c := CreditScore.calculatePaymentHistoryScore m in
  (CreditScore.ComponentScore.score c, CreditScore.ComponentScore.rating c).

Definition lib_result (m : CreditMetrics.t) : number * Rating :=
  let c := CreditScoreLib.calculatePaymentHistoryScore m in
  (CreditScoreLib.ComponentScore.score c, CreditScoreLib.ComponentScore.rating c).

(** C5, as stated, fails: with 9 on-time payments and 1 late payment the
    function of [part_000] returns 85, Very Good (the policy), and the one
    of [creditScore.ts] returns 70, Fair. *)
Lemma payment_history_functions_differ :
  main_result (payment_metrics 9 1 0) = (85, VeryGood)
  /\ policy_of (payment_metrics 9 1 0) = (85, VeryGood)
  /\ lib_result (payment_metrics 9 1 0) = (70, Fair)
  /\ lib_result (payment_metrics 9 1 0) <> main_result (payment_metrics 9 1 0).
Proof.
  vm_compute. repeat split; try reflexivity. discriminate.
Qed.

(** C5, amended: [calculatePaymentHistoryScore] of [part_000] computes the
    specified policy on every input; the function of [creditScore.ts]
    counts [onTimePayments + latePayments] only, returns 50 rated Fair when
    that sum is 0, and otherwise follows bands of its own on the on-time
    rate (100 Excellent from 0.98, 90 Good from 0.95, 70 Fair from 0.90,
    else [max(20, rate*100)] Poor). *)
Theorem payment_history_policy (m : CreditMetrics.t) :
  main_result m = policy_of m
  /\ lib_result m =
       (let onTime := CreditMetrics.onTimePayments m in
        let total := onTime + CreditMetrics.latePayments m in
        if strict_eq total 0 then (50, Fair)
        else if ge (onTime / total) 0.98 then (100, Excellent)
        else if ge (onTime / total) 0.95 then (90, Good)
        else if ge (onTime / total) 0.90 then (70, Fair)
        else (Math_max 20 (onTime / total * 100), Poor)).
Proof.
  split.
  - unfold main_result, policy_of, policy, policy_rating,
      CreditScore.calculatePaymentHistoryScore.
    destruct (strict_eq _ 0); [reflexivity|].
    cbv zeta.
    set (score := Math_max 0 _).
    destruct (ge score 90); [reflexivity|].
    destruct (ge score 75); [reflexivity|].
    destruct (ge score 60); [reflexivity|].
    destruct (ge score 40); reflexivity.
  - unfold lib_result, CreditScoreLib.calculatePaymentHistoryScore.
    cbv zeta.
    destruct (strict_eq _ 0); [reflexivity|].
    destruct (ge _ 0.98); [reflexivity|].
    destruct (ge _ 0.95); [reflexivity|].
    destruct (ge _ 0.90); reflexivity.
Qed.

End PaymentHistory.

(* ------------------------------------------------------------------ *)
(** ** The score engine *)

Module ScoreProperties.
Import NumberFacts IntegerFacts Constants CreditScore.
Local Open Scope float_scope.

Lemma score_unfold (now : number) (m : CreditMetrics.t) :
  CreditScoreResult.score (calculateCreditScore now m)
  = Math_round (Math_min 850 (Math_max 300 (rawScore m))).
Proof. reflexivity. Qed.

Lemma score_integer (now : number) (m : CreditMetrics.t) :
  is_nan (rawScore m) = false ->
  exists n : Z,
    (300 <= n <= 850)%Z
    /\ CreditScoreResult.score (calculateCreditScore now m) = of_int n.
Proof.
  intros Hraw. rewrite score_unfold.
  destruct (clamp_bounds 300 850 (rawScore m) eq_refl Hraw) as [Hlo Hhi].
  exact (Math_round_between _ Hlo Hhi).
Qed.

(** Whenever the raw score is a number, the final score is an integer
    between 300 and 850, also under the comparisons of the language. *)
Theorem score_in_range (now : number) (m : CreditMetrics.t) :
  is_nan (rawScore m) = false ->
  exists n : Z,
    (300 <= n <= 850)%Z
    /\ CreditScoreResult.score (calculateCreditScore now m) = of_int n
    /\ le 300 (CreditScoreResult.score (calculateCreditScore now m)) = true
    /\ le (CreditScoreResult.score (calculateCreditScore now m)) 850 = true.
Proof.
  intros Hraw.
  destruct (score_integer now m Hraw) as (n & Hn & E).
  exists n. rewrite E. split; [exact Hn|]. split; [reflexivity|].
  apply of_int_between. exact Hn.
Qed.

Lemma score_in_range_witness :
  exists n : Z,
    (300 <= n <= 850)%Z
    /\ CreditScoreResult.score (calculateCreditScore 0 all_zero_metrics) = of_int n
    /\ le 300 (CreditScoreResult.score (calculateCreditScore 0 all_zero_metrics)) = true
    /\ le (CreditScoreResult.score (calculateCreditScore 0 all_zero_metrics)) 850 = true.
Proof.
  apply (score_in_range 0 all_zero_metrics). reflexivity.
Defined.

Lemma activity_nan (m : CreditMetrics.t) :
  is_nan (CreditMetrics.averageTransactionValue m) = true ->
  strict_eq (CreditMetrics.totalTransactions m) 0 = false ->
  is_nan (ComponentScore.weighted (calculateActivityScore m)) = true.
Proof.
  intros Havg Htx. unfold calculateActivityScore. rewrite Htx. cbv zeta.
  set (base := if ge _ 20 then _ else _).
  set (score := Math_min 100 _).
  assert (Hs : is_nan score = true).
  { subst score. rewrite Math_min_nan. apply orb_true_iff. right.
    apply add_nan_r. rewrite Math_min_nan. apply orb_true_iff. right.
    now apply div_nan_l. }
  unfold ge. rewrite !(leb_nan_r _ score Hs).
  cbn [component ComponentScore.weighted].
  apply mul_nan_l. now apply div_nan_l.
Qed.

Lemma rawScore_nan (m : CreditMetrics.t) :
  is_nan (ComponentScore.weighted (calculateActivityScore m)) = true ->
  is_nan (rawScore m) = true.
Proof.
  intros H. unfold rawScore, totalWeighted.
  apply add_nan_r, mul_nan_l, div_nan_l, add_nan_r. exact H.
Qed.

Lemma score_nan (now : number) (m : CreditMetrics.t) :
  is_nan (rawScore m) = true ->
  is_nan (CreditScoreResult.score (calculateCreditScore now m)) = true.
Proof.
  intros H. rewrite score_unfold.
  assert (Hc : is_nan (Math_min 850 (Math_max 300 (rawScore m))) = true).
  { rewrite Math_min_nan, Math_max_nan, H. reflexivity. }
  now rewrite (Math_round_nan _ Hc).
Qed.

(** A NaN average transaction value, with a non-zero transaction count,
    makes the final score NaN and the tier "Poor". *)
Theorem nan_average_gives_nan_score (now : number) (m : CreditMetrics.t) :
  is_nan (CreditMetrics.averageTransactionValue m) = true ->
  strict_eq (CreditMetrics.totalTransactions m) 0 = false ->
  let r := calculateCreditScore now m in
  is_nan (CreditScoreResult.score r) = true
  /\ le 300 (CreditScoreResult.score r) = false
  /\ CreditScoreResult.tier r = Poor.
Proof.
  intros Havg Htx r.
  assert (Hs : is_nan (CreditScoreResult.score r) = true).
  { apply score_nan, rawScore_nan, activity_nan; assumption. }
  split; [exact Hs|]. split; [now apply leb_nan_r|].
  change (CreditScoreResult.tier r)
    with (getTierFromScore (CreditScoreResult.score r)).
  unfold getTierFromScore, ge. now rewrite !(leb_nan_r _ _ Hs).
Qed.

(** One transaction whose average value is NaN. *)
Definition nan_average_metrics : CreditMetrics.t :=
  {| CreditMetrics.totalBorrowed := 0;
     CreditMetrics.totalRepaid := 0;
     CreditMetrics.onTimePayments := 0;
     CreditMetrics.latePayments := 0;
     CreditMetrics.defaults := 0;
     CreditMetrics.oldestActivityDays := 0;
     CreditMetrics.uniqueProtocols := [];
     CreditMetrics.averageTransactionValue := nan;
     CreditMetrics.totalTransactions := 1;
     CreditMetrics.utilizationHistory := [] |}.

Lemma nan_average_gives_nan_score_witness :
  let r := calculateCreditScore 0 nan_average_metrics in
  is_nan (CreditScoreResult.score r) = true
  /\ le 300 (CreditScoreResult.score r) = false
  /\ CreditScoreResult.tier r = Poor.
Proof.
  apply (nan_average_gives_nan_score 0 nan_average_metrics); reflexivity.
Defined.

(** For the integers 300..850, the row of [CREDIT_TIERS] that the display
    picks brackets the score and carries the name of [getTierFromScore]. *)
Lemma tier_row_of_int (n : Z) :
  (300 <= n <= 850)%Z ->
  let row := ScoreDisplay.tier (of_int n) in
  le (min row) (of_int n) = true /\ le (of_int n) (max row) = true
  /\ name row = Rating_name (getTierFromScore (of_int n))
  /\ row = ScoreDisplay.tierConfig (Rating_name (getTierFromScore (of_int n))).
Proof.
  intros Hn.
  pose (P := fun z =>
    let row := ScoreDisplay.tier (of_int z) in
    le (min row) (of_int z) && le (of_int z) (max row)
    && String.eqb (name row) (Rating_name (getTierFromScore (of_int z)))
    && String.eqb (name row)
         (name (ScoreDisplay.tierConfig (Rating_name (getTierFromScore (of_int z)))))).
  assert (HP : P n = true).
  { apply (Zrange_forall P 300 551); [vm_compute; reflexivity | lia]. }
  subst P. cbv beta zeta in HP.
  apply andb_prop in HP. destruct HP as [HP H4].
  apply andb_prop in HP. destruct HP as [HP H3].
  apply andb_prop in HP. destruct HP as [H1 H2].
  apply String.eqb_eq in H3. 
  cbv zeta. repeat split; try assumption.
  unfold ScoreDisplay.tier, getTierFromScore.
  destruct (ge (of_int n) (min CREDIT_TIERS.EXCELLENT)); [reflexivity|].
  destruct (ge (of_int n) (min CREDIT_TIERS.VERY_GOOD)); [reflexivity|].
  destruct (ge (of_int n) (min CREDIT_TIERS.GOOD)); [reflexivity|].
  destruct (ge (of_int n) (min CREDIT_TIERS.FAIR)); reflexivity.
Qed.

(** The tier reported with a score brackets it: the score lies between
    the [min] and [max] of the row of [CREDIT_TIERS] named by the tier. *)
Theorem tier_brackets_score (now : number) (m : CreditMetrics.t) :
  is_nan (rawScore m) = false ->
  let r := calculateCreditScore now m in
  let row := ScoreDisplay.tierConfig (Rating_name (CreditScoreResult.tier r)) in
  le (min row) (CreditScoreResult.score r) = true
  /\ le (CreditScoreResult.score r) (max row) = true
  /\ name row = Rating_name (CreditScoreResult.tier r)
  /\ ScoreDisplay.tier (CreditScoreResult.score r) = row.
Proof.
  intros Hraw r row.
  destruct (score_integer now m Hraw) as (n & Hn & E).
  fold r in E.
  change (CreditScoreResult.tier r)
    with (getTierFromScore (CreditScoreResult.score r)) in *.
  subst row. rewrite E.
  destruct (tier_row_of_int n Hn) as (H1 & H2 & H3 & H4).
  rewrite <- H4. auto.
Qed.

Lemma tier_brackets_score_witness :
  let r := calculateCreditScore 0 all_zero_metrics in
  let row := ScoreDisplay.tierConfig (Rating_name (CreditScoreResult.tier r)) in
  le (min row) (CreditScoreResult.score r) = true
  /\ le (CreditScoreResult.score r) (max row) = true
  /\ name row = Rating_name (CreditScoreResult.tier r)
  /\ ScoreDisplay.tier (CreditScoreResult.score r) = row.
Proof.
  apply (tier_brackets_score 0 all_zero_metrics). reflexivity.
Defined.

(** The display and the engine agree on every number, NaN included: the
    row shown for a score is the row of the tier [getTierFromScore] names,
    and the three places that pick a colour for a tier return the same
    colour. *)
Theorem display_agrees_with_engine (score : number) :
  let t := getTierFromScore score in
  ScoreDisplay.tier score = ScoreDisplay.tierConfig (Rating_name t)
  /\ name (ScoreDisplay.tier score) = Rating_name t
  /\ color (ScoreDisplay.tier score) = TierColor.getTierColor t
  /\ ScoreDisplay.getTierColorFromRating (Rating_name t) = TierColor.getTierColor t.
Proof.
  cbv zeta. unfold ScoreDisplay.tier, getTierFromScore.
  destruct (ge score (min CREDIT_TIERS.EXCELLENT)); [repeat split|].
  destruct (ge score (min CREDIT_TIERS.VERY_GOOD)); [repeat split|].
  destruct (ge score (min CREDIT_TIERS.GOOD)); [repeat split|].
  destruct (ge score (min CREDIT_TIERS.FAIR)); repeat split.
Qed.




(** *** Tiers in order *)

Definition rank (r : Rating) : Z :=
  match r with
  | Poor => 0 | Fair => 1 | Good => 2 | VeryGood => 3 | Excellent => 4
  end.

Lemma tier_of_int (n : Z) :
  (0 <= n < 2 ^ 53)%Z ->
  getTierFromScore (of_int n)
  = if (800 <=? n)%Z then Excellent
    else if (740 <=? n)%Z then VeryGood
    else if (670 <=? n)%Z then Good
    else if (580 <=? n)%Z then Fair
    else Poor.
Proof.
  intros Hn. unfold getTierFromScore, ge.
  change (min CREDIT_TIERS.EXCELLENT) with (of_int 800).
  change (min CREDIT_TIERS.VERY_GOOD) with (of_int 740).
  change (min CREDIT_TIERS.GOOD) with (of_int 670).
  change (min CREDIT_TIERS.FAIR) with (of_int 580).
  rewrite !of_int_leb by lia. reflexivity.
Qed.

(** A higher score never has a lower tier: on the integers that a number
    holds exactly, [getTierFromScore] is monotone for the order Poor, Fair,
    Good, Very Good, Excellent. *)
Theorem tier_monotone (a b : Z) :
  (0 <= a)%Z -> (a <= b)%Z -> (b < 2 ^ 53)%Z ->
  (rank (getTierFromScore (of_int a)) <= rank (getTierFromScore (of_int b)))%Z.
Proof.
  intros H0 Hab Hb. rewrite !tier_of_int by lia.
  repeat match goal with
         | |- context [(?x <=? ?y)%Z] => destruct (Z.leb_spec x y)
         end; cbn [rank]; lia.
Qed.

Lemma tier_monotone_witness :
  (rank (getTierFromScore (of_int 579)) <= rank (getTierFromScore (of_int 580)))%Z.
Proof.
  apply (tier_monotone 579 580); [lia | lia | reflexivity].
Defined.

(** *** The progress ring *)




End ScoreProperties.

(* ------------------------------------------------------------------ *)
(** ** Commitments *)

Module CommitmentProperties.
Import NumberFacts Bytes Exn Noble ZkProof.
Local Open Scope string_scope.
Local Open Scope Z_scope.

Lemma Ok_inj {A : Type} (a b : A) : Ok a = Ok b -> a = b.
Proof. now intros [= ->]. Qed.

(** *** Hexadecimal round trip *)

Lemma hexToBytes_from_byte (b : Byte.byte) (rest : string) (hi : Z) :
  hexToBytes_from hi (hexes b ++ rest)
  = bind (hexToBytes_from (hi + 2) rest) (fun bs => Ok (b :: bs)).
Proof. destruct b; reflexivity. Qed.

Lemma hexToBytes_from_bytesToHex (bs : Bytes.t) (hi : Z) :
  hexToBytes_from hi (bytesToHex bs) = Ok bs.
Proof.
  revert hi. induction bs as [|b bs IH]; intros hi; [reflexivity|].
  cbn [bytesToHex]. now rewrite hexToBytes_from_byte, IH.
Qed.

Lemma length_append (s1 s2 : string) :
  String.length (s1 ++ s2) = (String.length s1 + String.length s2)%nat.
Proof. induction s1 as [|c s1 IH]; cbn; [reflexivity | now rewrite IH]. Qed.

Lemma bytesToHex_length (bs : Bytes.t) :
  String.length (bytesToHex bs) = (2 * List.length bs)%nat.
Proof.
  induction bs as [|b bs IH]; [reflexivity|].
  cbn [bytesToHex List.length]. rewrite length_append, IH.
  change (String.length (hexes b)) with 2%nat. lia.
Qed.

(** [hexToBytes] inverts [bytesToHex]. *)
Lemma hexToBytes_bytesToHex (bs : Bytes.t) : hexToBytes (bytesToHex bs) = Ok bs.
Proof.
  unfold hexToBytes. rewrite bytesToHex_length.
  replace (Nat.modulo (2 * List.length bs) 2) with 0%nat.
  - apply hexToBytes_from_bytesToHex.
  - symmetry. rewrite Nat.mul_comm. apply Nat.Div0.mod_mul.
Qed.

(** *** The shape of a commitment *)

Definition is_lower_hex (c : ascii) : bool :=
  let n := nat_of_ascii c in
  (Nat.leb 48 n && Nat.leb n 57) || (Nat.leb 97 n && Nat.leb n 102).

Fixpoint all_chars (P : ascii -> bool) (s : string) : bool :=
  match s with
  | EmptyString => true
  | String c s' => P c && all_chars P s'
  end.

Lemma all_chars_append (P : ascii -> bool) (s1 s2 : string) :
  all_chars P (s1 ++ s2) = all_chars P s1 && all_chars P s2.
Proof.
  induction s1 as [|c s1 IH]; cbn; [reflexivity|].
  now rewrite IH, andb_assoc.
Qed.

Lemma hexes_lower (b : Byte.byte) : all_chars is_lower_hex (hexes b) = true.
Proof. destruct b; reflexivity. Qed.

Lemma bytesToHex_lower (bs : Bytes.t) :
  all_chars is_lower_hex (bytesToHex bs) = true.
Proof.
  induction bs as [|b bs IH]; [reflexivity|].
  cbn [bytesToHex]. now rewrite all_chars_append, hexes_lower, IH.
Qed.

Lemma sha256_length (data : Bytes.t) : List.length (sha256 data) = 32%nat.
Proof. reflexivity. Qed.

(** A commitment is the digest in hexadecimal: 64 characters among
    [0-9a-f], whatever the score and the salt. *)
Theorem commitment_format (score : number) (salt c : string) :
  createCommitment score salt = Ok c ->
  String.length c = 64%nat /\ all_chars is_lower_hex c = true.
Proof.
  unfold createCommitment.
  destruct (lt score 300%float || gt score 850%float); [discriminate|].
  destruct (hexToBytes salt) as [saltBytes|e]; [|discriminate].
  cbn [bind]. intros H. apply Ok_inj in H. subst c.
  rewrite bytesToHex_length, sha256_length, bytesToHex_lower. now split.
Qed.

(** A salt of 32 bytes and the commitment to 700 under it. *)
Definition sample_salt : string := generateSalt (List.repeat Byte.x2a 32).

Definition sample_commitment : string :=
  Eval vm_compute in
    match createCommitment 700%float sample_salt with
    | Ok c => c
    | Throw _ => EmptyString
    end.

Lemma commitment_format_witness :
  String.length sample_commitment = 64%nat
  /\ all_chars is_lower_hex sample_commitment = true.
Proof.
  apply (commitment_format 700%float sample_salt sample_commitment).
  vm_compute. reflexivity.
Defined.

(** *** Verification *)

Lemma verifyCommitment_returns (score : number) (salt commitment : string) :
  exists b, verifyCommitment score salt commitment = Ok b.
Proof.
  unfold verifyCommitment.
  destruct (createCommitment score salt); cbn [bind try_catch]; eauto.
Qed.

Lemma verifyCommitment_true_iff (score : number) (salt commitment : string) :
  verifyCommitment score salt commitment = Ok true
  <-> createCommitment score salt = Ok commitment.
Proof.
  unfold verifyCommitment.
  destruct (createCommitment score salt) as [computed|e]; cbn [bind try_catch].
  - split.
    + intros H. apply Ok_inj in H. apply String.eqb_eq in H. now subst.
    + intros H. apply Ok_inj in H. subst. now rewrite String.eqb_refl.
  - split; discriminate.
Qed.

(** [verifyCommitment] never throws; it answers [true] exactly when
    [createCommitment] returns the commitment it is given, and so
    [false] whenever [createCommitment] throws. *)
Theorem verifyCommitment_spec (score : number) (salt commitment : string) :
  (exists b, verifyCommitment score salt commitment = Ok b)
  /\ (verifyCommitment score salt commitment = Ok true
      <-> createCommitment score salt = Ok commitment)
  /\ (forall e, createCommitment score salt = Throw e ->
      verifyCommitment score salt commitment = Ok false).
Proof.
  split; [apply verifyCommitment_returns|].
  split; [apply verifyCommitment_true_iff|].
  intros e He. unfold verifyCommitment. rewrite He. reflexivity.
Qed.

(** The range guard of [createCommitment] lets the scores between 300
    and 850 through. *)
Lemma guard_passes (score : number) :
  le 300%float score = true -> le score 850%float = true ->
  lt score 300%float || gt score 850%float = false.
Proof.
  intros H1 H2. unfold lt, gt.
  now rewrite (leb_not_ltb _ _ H1), (leb_not_ltb _ _ H2).
Qed.

(** Registration: for a score between 300 and 850 and any random bytes,
    [createCommitmentData] returns a record with nonce 1 and 30 days to
    live whose salt is the hexadecimal of the random bytes and whose hash
    [verifyCommitment] accepts for that score and salt. *)
Theorem createCommitmentData_verifies (random : Bytes.t) (score : number) :
  le 300%float score = true -> le score 850%float = true ->
  exists d,
    createCommitmentData random score = Ok d
    /\ CommitmentData.salt d = bytesToHex random
    /\ CommitmentData.nonce d = 1%float
    /\ CommitmentData.expiresIn d = 30%float
    /\ String.length (CommitmentData.hash d) = 64%nat
    /\ verifyCommitment score (CommitmentData.salt d) (CommitmentData.hash d)
       = Ok true.
Proof.
  intros H1 H2. unfold createCommitmentData, generateSalt.
  assert (Hc : createCommitment score (bytesToHex random)
               = Ok (bytesToHex (sha256 (setUint32_be score ++ random)%list))).
  { unfold createCommitment.
    rewrite (guard_passes score H1 H2), hexToBytes_bytesToHex. reflexivity. }
  rewrite Hc. cbn [bind]. eexists. split; [reflexivity|].
  cbn [CommitmentData.salt CommitmentData.nonce CommitmentData.expiresIn
       CommitmentData.hash].
  split; [reflexivity|]. split; [reflexivity|]. split; [reflexivity|].
  split.
  - now rewrite bytesToHex_length, sha256_length.
  - now apply verifyCommitment_true_iff.
Qed.

Lemma createCommitmentData_verifies_witness :
  exists d,
    createCommitmentData (List.repeat Byte.x2a 32) 700%float = Ok d
    /\ CommitmentData.salt d = bytesToHex (List.repeat Byte.x2a 32)
    /\ CommitmentData.nonce d = 1%float
    /\ CommitmentData.expiresIn d = 30%float
    /\ String.length (CommitmentData.hash d) = 64%nat
    /\ verifyCommitment 700%float (CommitmentData.salt d) (CommitmentData.hash d)
       = Ok true.
Proof.
  apply (createCommitmentData_verifies (List.repeat Byte.x2a 32) 700%float);
    reflexivity.
Defined.

(** Outside 300..850 nothing is registered: [createCommitment], and with
    it [createCommitmentData], throws before the salt is even decoded. *)
Theorem out_of_range_is_rejected (random : Bytes.t) (score : number) (salt : string) :
  lt score 300%float = true \/ gt score 850%float = true ->
  createCommitment score salt = throw "Score must be between 300 and 850"
  /\ createCommitmentData random score = throw "Score must be between 300 and 850"
  /\ forall c, verifyCommitment score salt c = Ok false.
Proof.
  intros H.
  assert (Hg : lt score 300%float || gt score 850%float = true).
  { apply orb_true_iff. exact H. }
  assert (Hc : forall s, createCommitment score s
                         = throw "Score must be between 300 and 850").
  { intros s. unfold createCommitment. now rewrite Hg. }
  split; [apply Hc|]. split.
  - unfold createCommitmentData. now rewrite Hc.
  - intros c. unfold verifyCommitment. now rewrite Hc.
Qed.

Lemma out_of_range_is_rejected_witness :
  createCommitment 900%float sample_salt = throw "Score must be between 300 and 850"
  /\ createCommitmentData [] 900%float = throw "Score must be between 300 and 850"
  /\ forall c, verifyCommitment 900%float sample_salt c = Ok false.
Proof.
  apply (out_of_range_is_rejected [] 900%float sample_salt).
  right. reflexivity.
Defined.

Lemma ToUint32_of_int (n : Z) : 300 <= n <= 850 -> ToUint32 (of_int n) = n.
Proof.
  intros Hn. apply Z.eqb_eq.
  apply (Zrange_forall (fun z => (ToUint32 (of_int z) =? z)%Z) 300 551);
    [vm_compute; reflexivity | lia].
Qed.

(** Between 300 and 850, [Math.floor] yields an integer of the range and
    [ToUint32] sees the same integer before and after. *)
Lemma floor_between (x : number) :
  PrimFloat.leb 300 x = true -> PrimFloat.leb x 850 = true ->
  exists n : Z, 300 <= n <= 850 /\ Math_floor x = of_int n /\ ToUint32 x = n.
Proof.
  intros H1 H2.
  destruct (between_300_850 x H1 H2) as [m [[E Hm]|[E Hm]]];
    unfold Math_floor, ToUint32; rewrite E.
  - change (0 <=? -44) with false. cbv iota.
    assert (Hn : fin_num false m (-44) = Z.pos m).
    { unfold fin_num. change (2 ^ Z.max (-44) 0) with 1. apply Z.mul_1_r. }
    assert (Hd : fin_den (-44) = 17592186044416) by reflexivity.
    rewrite Hn, Hd. clear Hn Hd E H1 H2.
    rewrite Z.quot_div_nonneg by lia.
    set (r := Z.pos m / 17592186044416).
    assert (Hr : 300 <= r <= 511).
    { subst r. revert Hm. generalize (Z.pos m). intros z Hz. split.
      - apply Z.div_le_lower_bound; lia.
      - apply Z.lt_succ_r. apply Z.div_lt_upper_bound; lia. }
    exists r. split; [lia|]. split.
    + destruct (Z.eqb_spec r 0); [lia | reflexivity].
    + apply Z.mod_small. lia.
  - change (0 <=? -43) with false. cbv iota.
    assert (Hn : fin_num false m (-43) = Z.pos m).
    { unfold fin_num. change (2 ^ Z.max (-43) 0) with 1. apply Z.mul_1_r. }
    assert (Hd : fin_den (-43) = 8796093022208) by reflexivity.
    rewrite Hn, Hd. clear Hn Hd E H1 H2.
    rewrite Z.quot_div_nonneg by lia.
    set (r := Z.pos m / 8796093022208).
    assert (Hr : 512 <= r <= 850).
    { subst r. revert Hm. generalize (Z.pos m). intros z Hz. split.
      - apply Z.div_le_lower_bound; lia.
      - apply Z.lt_succ_r. apply Z.div_lt_upper_bound; lia. }
    exists r. split; [lia|]. split.
    + destruct (Z.eqb_spec r 0); [lia | reflexivity].
    + apply Z.mod_small. lia.
Qed.

(** The commitment binds the integer part of the score only: between 300
    and 850, a score and its [Math.floor] have the same commitment under
    every salt. *)
Theorem commitment_ignores_fraction (score : number) (salt : string) :
  le 300%float score = true -> le score 850%float = true ->
  createCommitment (Math_floor score) salt = createCommitment score salt.
Proof.
  intros H1 H2.
  destruct (floor_between score H1 H2) as (n & Hn & Hf & Hu).
  destruct (of_int_between n Hn) as [G1 G2].
  unfold createCommitment.
  rewrite (guard_passes score H1 H2), Hf, (guard_passes (of_int n) G1 G2).
  unfold setUint32_be. now rewrite Hu, (ToUint32_of_int n Hn).
Qed.

Lemma commitment_ignores_fraction_witness :
  createCommitment (Math_floor 700.5%float) sample_salt
  = createCommitment 700.5%float sample_salt.
Proof.
  apply (commitment_ignores_fraction 700.5%float sample_salt); reflexivity.
Defined.

(** *** The salt *)

(** The digits [hexToBytes] accepts: [0-9], [a-f] and [A-F]. *)
Definition is_hex_digit (c : ascii) : bool :=
  match asciiToBase16 c with Some _ => true | None => false end.

Lemma hexToBytes_from_Ok (n : nat) :
  forall (hi : Z) (s : string) (bs : Bytes.t),
    String.length s = (2 * n)%nat ->
    hexToBytes_from hi s = Ok bs ->
    List.length bs = n /\ all_chars is_hex_digit s = true.
Proof.
  induction n as [|n IH]; intros hi s bs Hlen H.
  - destruct s; [|discriminate Hlen]. cbn in H. apply Ok_inj in H. now subst.
  - destruct s as [|c1 [|c2 rest]]; cbn [String.length] in Hlen; try lia.
    assert (Hrest : String.length rest = (2 * n)%nat) by lia.
    cbn [hexToBytes_from all_chars] in *. unfold is_hex_digit at 1 2.
    destruct (asciiToBase16 c1) as [n1|]; [|discriminate H].
    destruct (asciiToBase16 c2) as [n2|]; [|discriminate H].
    destruct (hexToBytes_from (hi + 2) rest) as [bs'|e] eqn:E; [|discriminate H].
    cbn [bind] in H. apply Ok_inj in H. subst bs.
    destruct (IH (hi + 2) rest bs' Hrest E) as [Hl Hc].
    cbn [List.length andb]. now rewrite Hl, Hc.
Qed.

Lemma hexToBytes_from_valid (n : nat) :
  forall (hi : Z) (s : string),
    String.length s = (2 * n)%nat ->
    all_chars is_hex_digit s = true ->
    exists bs, hexToBytes_from hi s = Ok bs.
Proof.
  induction n as [|n IH]; intros hi s Hlen H.
  - destruct s; [|discriminate Hlen]. cbn. eauto.
  - destruct s as [|c1 [|c2 rest]]; cbn [String.length] in Hlen; try lia.
    assert (Hrest : String.length rest = (2 * n)%nat) by lia.
    cbn [hexToBytes_from all_chars] in *. unfold is_hex_digit at 1 2 in H.
    destruct (asciiToBase16 c1) as [n1|]; [|discriminate H].
    destruct (asciiToBase16 c2) as [n2|]; [|discriminate H].
    destruct (IH (hi + 2) rest Hrest H) as [bs ->]. cbn [bind]. eauto.
Qed.

Lemma even_half (n : nat) : Nat.modulo n 2 = 0%nat -> exists k, n = (2 * k)%nat.
Proof.
  intros H. exists (Nat.div n 2).
  pose proof (Nat.div_mod_eq n 2). lia.
Qed.

Lemma even_mod (n : nat) : Nat.even n = Nat.eqb (Nat.modulo n 2) 0.
Proof.
  destruct (Nat.eqb_spec (Nat.modulo n 2) 0) as [H|H].
  - destruct (even_half n H) as [k ->]. apply Nat.even_spec. now exists k.
  - destruct (Nat.even n) eqn:E; [|reflexivity].
    apply Nat.even_spec in E. destruct E as [k ->].
    elim H. rewrite Nat.mul_comm. apply Nat.Div0.mod_mul.
Qed.

(** [createCommitment] takes any salt that is an even number of
    hexadecimal digits, in either case: no length is required of it, and
    the empty salt is valid. *)
Theorem createCommitment_salt_check (score : number) (salt : string) :
  lt score 300%float || gt score 850%float = false ->
  ((exists c, createCommitment score salt = Ok c)
   <-> Nat.even (String.length salt) && all_chars is_hex_digit salt = true)
  /\ (forall c, createCommitment score salt = Ok c ->
      exists saltBytes,
        hexToBytes salt = Ok saltBytes
        /\ String.length salt = (2 * List.length saltBytes)%nat
        /\ c = bytesToHex (sha256 (setUint32_be score ++ saltBytes)%list)).
Proof.
  intros Hg. unfold createCommitment. rewrite Hg. cbv zeta.
  unfold hexToBytes. rewrite even_mod.
  destruct (Nat.eqb_spec (Nat.modulo (String.length salt) 2) 0) as [He|Ho];
    cbn [andb].
  - destruct (even_half _ He) as [k Hk]. split; [split|].
    + intros [c H].
      destruct (hexToBytes_from 0 salt) as [bs|e] eqn:E; [|discriminate H].
      exact (proj2 (hexToBytes_from_Ok k 0 salt bs Hk E)).
    + intros H. destruct (hexToBytes_from_valid k 0 salt Hk H) as [bs ->].
      cbn [bind]. eauto.
    + intros c H.
      destruct (hexToBytes_from 0 salt) as [bs|e] eqn:E; [|discriminate H].
      cbn [bind] in H. apply Ok_inj in H. subst c.
      exists bs. split; [reflexivity|]. split; [|reflexivity].
      destruct (hexToBytes_from_Ok k 0 salt bs Hk E) as [Hl _]. lia.
  - split; [split|].
    + intros [c H]. discriminate H.
    + discriminate.
    + intros c H. discriminate H.
Qed.

Lemma createCommitment_salt_check_witness :
  ((exists c, createCommitment 700%float "00FFaa" = Ok c)
   <-> Nat.even (String.length "00FFaa") && all_chars is_hex_digit "00FFaa" = true)
  /\ (forall c, createCommitment 700%float "00FFaa" = Ok c ->
      exists saltBytes,
        hexToBytes "00FFaa" = Ok saltBytes
        /\ String.length "00FFaa" = (2 * List.length saltBytes)%nat
        /\ c = bytesToHex (sha256 (setUint32_be 700%float ++ saltBytes)%list)).
Proof.
  apply (createCommitment_salt_check 700%float "00FFaa"). reflexivity.
Defined.

End CommitmentProperties.

(* ------------------------------------------------------------------ *)
(** ** Proof generation *)

Module ProofProperties.
Import NumberFacts IntegerFacts Bytes Exn Noble ZkProof CommitmentProperties.
Local Open Scope string_scope.
Local Open Scope Z_scope.

Lemma Ok_not_Throw {A : Type} (a : A) (e : Error) : Ok a <> Throw e.
Proof. discriminate. Qed.

Lemma throw_inj {A : Type} (m1 m2 : string) :
  @throw A m1 = throw m2 -> m1 = m2.
Proof. unfold throw. now intros [= ->]. Qed.

Lemma generateZKProof_accepts (inputs : ProofInputs.t) :
  createCommitment (ProofInputs.score inputs) (ProofInputs.salt inputs)
  = Ok (ProofInputs.commitment inputs) ->
  lt (ProofInputs.score inputs) (ProofInputs.minScore inputs) = false ->
  exists p, generateZKProof inputs = Ok p.
Proof.
  intros Hc Hlt. unfold generateZKProof.
  rewrite (proj2 (verifyCommitment_true_iff _ _ _) Hc). cbn [bind negb].
  assert (Hg : lt (ProofInputs.score inputs) 300%float
               || gt (ProofInputs.score inputs) 850%float = false).
  { unfold createCommitment in Hc.
    destruct (lt (ProofInputs.score inputs) 300%float
              || gt (ProofInputs.score inputs) 850%float);
      [discriminate Hc | reflexivity]. }
  rewrite Hg, Hlt. eauto.
Qed.

(** The three outcomes of [generateZKProof], in the order of its checks;
    the third check, on the score range, can never fail, because the
    commitment check before it has already recomputed the commitment. *)
Theorem generateZKProof_outcome (inputs : ProofInputs.t) :
  let score := ProofInputs.score inputs in
  let minScore := ProofInputs.minScore inputs in
  let committed :=
    createCommitment score (ProofInputs.salt inputs) in
  (committed <> Ok (ProofInputs.commitment inputs) ->
   generateZKProof inputs
   = throw "Commitment verification failed - score/salt mismatch")
  /\ (committed = Ok (ProofInputs.commitment inputs) ->
      lt score minScore = true ->
      generateZKProof inputs
      = throw ("Score " ++ Number_toString score
                 ++ " does not meet minimum threshold "
                 ++ Number_toString minScore))
  /\ (committed = Ok (ProofInputs.commitment inputs) ->
      lt score minScore = false ->
      exists p, generateZKProof inputs = Ok p)
  /\ generateZKProof inputs <> throw "Invalid score range".
Proof.
  intros score minScore committed.
  destruct (verifyCommitment_returns score (ProofInputs.salt inputs)
              (ProofInputs.commitment inputs)) as [b Hb].
  pose proof (verifyCommitment_true_iff score (ProofInputs.salt inputs)
                (ProofInputs.commitment inputs)) as Hiff.
  fold committed in Hiff.
  unfold generateZKProof. fold score minScore. rewrite Hb. cbn [bind].
  destruct b; cbn [negb].
  - assert (Hc : committed = Ok (ProofInputs.commitment inputs))
      by now apply Hiff.
    assert (Hg : lt score 300%float || gt score 850%float = false).
    { subst committed. unfold createCommitment in Hc.
      destruct (lt score 300%float || gt score 850%float); [discriminate Hc | reflexivity]. }
    rewrite Hg.
    split; [intros Hne; now elim Hne|].
    destruct (lt score minScore).
    + split; [reflexivity|]. split; [discriminate|].
      intros H. apply throw_inj in H. discriminate H.
    + split; [discriminate|]. split; [eauto|]. apply Ok_not_Throw.
  - assert (Hc : committed <> Ok (ProofInputs.commitment inputs)).
    { intros Hc. apply Hiff in Hc. rewrite Hb in Hc. discriminate Hc. }
    split; [reflexivity|].
    split; [intros H; now elim Hc|]. split; [intros H; now elim Hc|].
    intros H. apply throw_inj in H. discriminate H.
Qed.

(** Inputs for a threshold proof over [sample_commitment]. *)
Definition sample_inputs (score minScore : number) : ProofInputs.t :=
  {| ProofInputs.score := score;
     ProofInputs.salt := sample_salt;
     ProofInputs.commitment := sample_commitment;
     ProofInputs.minScore := minScore;
     ProofInputs.poolId := "usdc-prime";
     ProofInputs.nonce := 1%float |}.

Lemma generateZKProof_outcome_witness :
  generateZKProof (sample_inputs 700%float 720%float)
  = throw "Score 700 does not meet minimum threshold 720"
  /\ (exists p, generateZKProof (sample_inputs 700%float 650%float) = Ok p)
  /\ generateZKProof (sample_inputs 701%float 650%float)
     = throw "Commitment verification failed - score/salt mismatch".
Proof.
  split; [|split].
  - apply (generateZKProof_outcome (sample_inputs 700%float 720%float));
      vm_compute; reflexivity.
  - apply (generateZKProof_outcome (sample_inputs 700%float 650%float));
      vm_compute; reflexivity.
  - apply (generateZKProof_outcome (sample_inputs 701%float 650%float)).
    vm_compute. discriminate.
Defined.

(** A NaN score passes every check: it slips through the range guard of
    [createCommitment], and with the commitment so obtained
    [generateZKProof] resolves whatever the threshold. *)
Theorem nan_score_is_accepted (salt poolId : string) (saltBytes : Bytes.t)
  (minScore nonce : number) :
  hexToBytes salt = Ok saltBytes ->
  exists c p,
    createCommitment nan salt = Ok c
    /\ generateZKProof
         {| ProofInputs.score := nan;
            ProofInputs.salt := salt;
            ProofInputs.commitment := c;
            ProofInputs.minScore := minScore;
            ProofInputs.poolId := poolId;
            ProofInputs.nonce := nonce |} = Ok p.
Proof.
  intros Hsalt.
  assert (Hc : createCommitment nan salt
               = Ok (bytesToHex (sha256 (setUint32_be nan ++ saltBytes)%list))).
  { unfold createCommitment.
    change (lt nan 300%float || gt nan 850%float) with false.
    now rewrite Hsalt. }
  eexists.
  destruct (generateZKProof_accepts
    {| ProofInputs.score := nan;
       ProofInputs.salt := salt;
       ProofInputs.commitment := bytesToHex (sha256 (setUint32_be nan ++ saltBytes)%list);
       ProofInputs.minScore := minScore;
       ProofInputs.poolId := poolId;
       ProofInputs.nonce := nonce |}) as [p Hp].
  { exact Hc. }
  { apply ltb_nan_l. reflexivity. }
  exists p. split; [exact Hc | exact Hp].
Qed.

Lemma nan_score_is_accepted_witness :
  exists c p,
    createCommitment nan sample_salt = Ok c
    /\ generateZKProof
         {| ProofInputs.score := nan;
            ProofInputs.salt := sample_salt;
            ProofInputs.commitment := c;
            ProofInputs.minScore := 850%float;
            ProofInputs.poolId := "usdc-prime";
            ProofInputs.nonce := 1%float |} = Ok p.
Proof.
  apply (nan_score_is_accepted sample_salt "usdc-prime"
           (List.repeat Byte.x2a 32) 850%float 1%float).
  vm_compute. reflexivity.
Defined.

(** *** Validity window *)

Lemma hour_ms : (60 * 60 * 1000)%float = of_int 3600000.
Proof. reflexivity. Qed.

(** A proof stamped at the integral clock reading [t] expires at
    [t + 3600000]: it is not expired up to and including that instant and
    expired from the next millisecond on. *)
Lemma window (t t' : Z) (p : GeneratedProof.t) :
  0 <= t -> t + 3600000 < 2 ^ 53 -> 0 <= t' < 2 ^ 53 ->
  GeneratedProof.expiresAt p = (of_int t + 60 * 60 * 1000)%float ->
  GeneratedProof.expiresAt p = of_int (t + 3600000)
  /\ isProofExpired (of_int t') p = (t + 3600000 <? t').
Proof.
  intros Ht Hw Ht' E.
  assert (E' : GeneratedProof.expiresAt p = of_int (t + 3600000)).
  { rewrite E, hour_ms. apply of_int_add; lia. }
  split; [exact E'|].
  unfold isProofExpired, gt. rewrite E'. apply of_int_ltb; lia.
Qed.

(** Both kinds of proof, the threshold proof of [generateCompleteProof]
    and the composite proof of [generateCreditworthyProof], carry the
    clock reading as timestamp and are valid for exactly 3 600 000 ms:
    [isProofExpired] is false until [t + 3600000] included and true
    afterwards. *)
Theorem validity_window (t t' : Z) :
  0 <= t -> t + 3600000 < 2 ^ 53 -> 0 <= t' < 2 ^ 53 ->
  (forall inputs p,
     generateCompleteProof (of_int t) inputs = Ok p ->
     GeneratedProof.timestamp p = of_int t
     /\ GeneratedProof.expiresAt p = of_int (t + 3600000)
     /\ isProofExpired (of_int t') p = (t + 3600000 <? t'))
  /\ (forall inputs q,
        generateCreditworthyProof (of_int t) inputs = Ok q ->
        GeneratedProof.timestamp q = of_int t
        /\ GeneratedProof.expiresAt q = of_int (t + 3600000)
        /\ isProofExpired (of_int t') q = (t + 3600000 <? t')).
Proof.
  intros Ht Hw Ht'. split.
  - intros inputs p Hp. unfold generateCompleteProof in Hp.
    destruct (generateZKProof inputs) as [proof|e]; [|discriminate Hp].
    cbn [bind] in Hp. apply Ok_inj in Hp. subst p.
    split; [reflexivity|]. now apply window.
  - intros inputs q Hq. unfold generateCreditworthyProof in Hq.
    destruct (lt _ _); [discriminate Hq|].
    destruct (gt _ _); [discriminate Hq|].
    destruct (lt _ _); [discriminate Hq|].
    apply Ok_inj in Hq. subst q.
    split; [reflexivity|]. now apply window.
Qed.

(** Composite inputs over [sample_inputs]. *)
Definition sample_composite (base : ProofInputs.t)
  (income debt onTime total maxDTI minRate minCount : number)
  : CreditworthyProofInputs.t :=
  {| CreditworthyProofInputs.base := base;
     CreditworthyProofInputs.monthlyIncome := income;
     CreditworthyProofInputs.monthlyDebt := debt;
     CreditworthyProofInputs.onTimePayments := onTime;
     CreditworthyProofInputs.totalPayments := total;
     CreditworthyProofInputs.maxDTI := maxDTI;
     CreditworthyProofInputs.minPaymentRate := minRate;
     CreditworthyProofInputs.minPaymentCount := minCount |}.

(** The proofs generated on 2025-11-03 at 00:00:00 UTC. *)
Definition sample_proof : GeneratedProof.t :=
  Eval vm_compute in
    match generateCompleteProof 1762128000000%float
            (sample_inputs 700%float 650%float) with
    | Ok p => p
    | Throw _ =>
        {| GeneratedProof.proof := ""; GeneratedProof.publicInputs := [];
           GeneratedProof.commitment := ""; GeneratedProof.timestamp := 0%float;
           GeneratedProof.expiresAt := 0%float |}
    end.

Definition sample_composite_proof : GeneratedProof.t :=
  Eval vm_compute in
    match generateCreditworthyProof 1762128000000%float
            (sample_composite (sample_inputs 700%float 650%float)
               5000%float 1000%float 12%float 12%float
               4000%float 9000%float 6%float) with
    | Ok p => p
    | Throw _ =>
        {| GeneratedProof.proof := ""; GeneratedProof.publicInputs := [];
           GeneratedProof.commitment := ""; GeneratedProof.timestamp := 0%float;
           GeneratedProof.expiresAt := 0%float |}
    end.

Lemma validity_window_witness :
  (isProofExpired (of_int 1762131600000) sample_proof = false
   /\ isProofExpired (of_int 1762131600001) sample_proof = true)
  /\ (isProofExpired (of_int 1762131600000) sample_composite_proof = false
      /\ isProofExpired (of_int 1762131600001) sample_composite_proof = true).
Proof.
  assert (H0 : 0 <= 1762128000000) by lia.
  assert (H1 : 1762128000000 + 3600000 < 2 ^ 53) by (vm_compute; reflexivity).
  assert (Ha : 0 <= 1762131600000 < 2 ^ 53) by (split; vm_compute; congruence).
  assert (Hb : 0 <= 1762131600001 < 2 ^ 53) by (split; vm_compute; congruence).
  assert (Hp : generateCompleteProof (of_int 1762128000000)
                 (sample_inputs 700%float 650%float) = Ok sample_proof)
    by (vm_compute; reflexivity).
  assert (Hq : generateCreditworthyProof (of_int 1762128000000)
                 (sample_composite (sample_inputs 700%float 650%float)
                    5000%float 1000%float 12%float 12%float
                    4000%float 9000%float 6%float) = Ok sample_composite_proof)
    by (vm_compute; reflexivity).
  split; split.
  - apply (proj1 (validity_window 1762128000000 1762131600000 H0 H1 Ha) _ _ Hp).
  - apply (proj1 (validity_window 1762128000000 1762131600001 H0 H1 Hb) _ _ Hp).
  - apply (proj2 (validity_window 1762128000000 1762131600000 H0 H1 Ha) _ _ Hq).
  - apply (proj2 (validity_window 1762128000000 1762131600001 H0 H1 Hb) _ _ Hq).
Defined.

(** *** The composite proof *)

(** The three comparisons [generateCreditworthyProof] makes. *)
Definition composite_checks (i : CreditworthyProofInputs.t) : bool :=
  negb (lt (CreditworthyProofInputs.score i) (CreditworthyProofInputs.minScore i))
  && negb (gt ((CreditworthyProofInputs.monthlyDebt i
                / CreditworthyProofInputs.monthlyIncome i) * 10000)%float
              (CreditworthyProofInputs.maxDTI i))
  && negb (lt ((CreditworthyProofInputs.onTimePayments i
                / CreditworthyProofInputs.totalPayments i) * 10000)%float
              (CreditworthyProofInputs.minPaymentRate i)).

(** The same inputs with another commitment, salt, pool, nonce and
    minimum payment count. *)
Definition retarget (i : CreditworthyProofInputs.t)
  (salt commitment poolId : string) (nonce minCount : number)
  : CreditworthyProofInputs.t :=
  {| CreditworthyProofInputs.base :=
       {| ProofInputs.score := CreditworthyProofInputs.score i;
          ProofInputs.salt := salt;
          ProofInputs.commitment := commitment;
          ProofInputs.minScore := CreditworthyProofInputs.minScore i;
          ProofInputs.poolId := poolId;
          ProofInputs.nonce := nonce |};
     CreditworthyProofInputs.monthlyIncome := CreditworthyProofInputs.monthlyIncome i;
     CreditworthyProofInputs.monthlyDebt := CreditworthyProofInputs.monthlyDebt i;
     CreditworthyProofInputs.onTimePayments := CreditworthyProofInputs.onTimePayments i;
     CreditworthyProofInputs.totalPayments := CreditworthyProofInputs.totalPayments i;
     CreditworthyProofInputs.maxDTI := CreditworthyProofInputs.maxDTI i;
     CreditworthyProofInputs.minPaymentRate := CreditworthyProofInputs.minPaymentRate i;
     CreditworthyProofInputs.minPaymentCount := minCount |}.

(** [generateCreditworthyProof] resolves exactly when its three
    comparisons pass.  It never looks at the salt, at the commitment or at
    [minPaymentCount]: the proof is issued for whatever commitment is
    supplied, and it carries that commitment. *)
Theorem composite_proof_checks (now : number) (i : CreditworthyProofInputs.t) :
  ((exists p, generateCreditworthyProof now i = Ok p) <-> composite_checks i = true)
  /\ forall salt commitment poolId nonce minCount,
       composite_checks i = true ->
       exists p,
         generateCreditworthyProof now
           (retarget i salt commitment poolId nonce minCount) = Ok p
         /\ GeneratedProof.commitment p = commitment.
Proof.
  split.
  - unfold generateCreditworthyProof, composite_checks.
    destruct (lt _ _); cbn [negb andb].
    { split; [intros [p H]; discriminate H | discriminate]. }
    destruct (gt _ _); cbn [negb andb].
    { split; [intros [p H]; discriminate H | discriminate]. }
    destruct (lt _ _); cbn [negb andb].
    { split; [intros [p H]; discriminate H | discriminate]. }
    split; [reflexivity | eauto].
  - intros salt commitment poolId nonce minCount H.
    unfold composite_checks in H.
    apply andb_prop in H. destruct H as [H H3].
    apply andb_prop in H. destruct H as [H1 H2].
    apply negb_true_iff in H1, H2, H3.
    unfold generateCreditworthyProof.
    change (CreditworthyProofInputs.score (retarget i salt commitment poolId nonce minCount))
      with (CreditworthyProofInputs.score i).
    change (CreditworthyProofInputs.minScore (retarget i salt commitment poolId nonce minCount))
      with (CreditworthyProofInputs.minScore i).
    cbn [retarget CreditworthyProofInputs.monthlyDebt
         CreditworthyProofInputs.monthlyIncome CreditworthyProofInputs.maxDTI
         CreditworthyProofInputs.onTimePayments CreditworthyProofInputs.totalPayments
         CreditworthyProofInputs.minPaymentRate].
    rewrite H1, H2, H3. eexists. split; reflexivity.
Qed.

(** A caller whose commitment does not match the score and who has made
    2 payments where 12 are required still obtains the composite proof. *)
Lemma composite_proof_checks_witness :
  verifyCommitment 700%float sample_salt "00" = Ok false
  /\ lt 2%float 12%float = true
  /\ exists p,
       generateCreditworthyProof 1762128000000%float
         (retarget
            (sample_composite (sample_inputs 700%float 650%float)
               5000%float 1000%float 2%float 2%float
               4000%float 9000%float 6%float)
            sample_salt "00" "usdc-prime" 1%float 12%float) = Ok p
       /\ GeneratedProof.commitment p = "00".
Proof.
  split; [vm_compute; reflexivity|]. split; [reflexivity|].
  apply (proj2 (composite_proof_checks 1762128000000%float
     (sample_composite (sample_inputs 700%float 650%float)
        5000%float 1000%float 2%float 2%float
        4000%float 9000%float 6%float))).
  vm_compute. reflexivity.
Defined.

(** *** Zero over zero *)

Lemma is_zero_spec (x : number) :
  is_zero x = true -> exists s, Prim2SF x = S754_zero s.
Proof.
  unfold is_zero. rewrite eqb_spec. unfold SFeqb.
  change (Prim2SF zero) with (S754_zero false).
  destruct (Prim2SF x) as [s|[]| |[] m e]; try discriminate; eauto.
Qed.

Lemma zero_ratio_nan (a b : number) :
  is_zero a = true -> is_zero b = true ->
  is_nan (a / b * 10000)%float = true.
Proof.
  intros Ha Hb. apply mul_nan_l. apply is_nan_spec. rewrite div_spec.
  destruct (is_zero_spec a Ha) as [sa ->].
  destruct (is_zero_spec b Hb) as [sb ->]. reflexivity.
Qed.

(** With no income and no debt the ratio is [0 / 0], which is NaN, and NaN
    is not greater than any maximum: [generateDTIProof] resolves for
    every [maxDTI], zero included. *)
Theorem zero_income_passes_dti (inputs : DTIProofInputs.t) :
  is_zero (DTIProofInputs.monthlyIncome inputs) = true ->
  is_zero (DTIProofInputs.monthlyDebt inputs) = true ->
  exists p, generateDTIProof inputs = Ok p.
Proof.
  intros Hi Hd. unfold generateDTIProof. cbv zeta. unfold gt.
  rewrite (ltb_nan_r _ _ (zero_ratio_nan _ _ Hd Hi)). eauto.
Qed.

Lemma zero_income_passes_dti_witness :
  exists p,
    generateDTIProof
      {| DTIProofInputs.monthlyIncome := 0%float;
         DTIProofInputs.monthlyDebt := 0%float;
         DTIProofInputs.incomeSalt := sample_salt;
         DTIProofInputs.debtSalt := sample_salt;
         DTIProofInputs.incomeCommitment := "";
         DTIProofInputs.debtCommitment := "";
         DTIProofInputs.maxDTI := 0%float;
         DTIProofInputs.poolId := "usdc-prime";
         DTIProofInputs.nonce := 1%float |} = Ok p.
Proof.
  apply zero_income_passes_dti; reflexivity.
Defined.

(** The same holds for the composite proof: with no income, no debt and
    no payment at all, both ratios are NaN and the proof is issued for
    every [maxDTI], [minPaymentRate] and [minPaymentCount], as soon as
    the score is not below [minScore]. *)
Theorem empty_history_passes_composite (now : number)
  (i : CreditworthyProofInputs.t) :
  lt (CreditworthyProofInputs.score i) (CreditworthyProofInputs.minScore i) = false ->
  is_zero (CreditworthyProofInputs.monthlyIncome i) = true ->
  is_zero (CreditworthyProofInputs.monthlyDebt i) = true ->
  is_zero (CreditworthyProofInputs.onTimePayments i) = true ->
  is_zero (CreditworthyProofInputs.totalPayments i) = true ->
  exists p, generateCreditworthyProof now i = Ok p.
Proof.
  intros Hs Hi Hd Ho Ht. unfold generateCreditworthyProof.
  unfold gt, lt in *. rewrite Hs.
  rewrite (ltb_nan_r _ _ (zero_ratio_nan _ _ Hd Hi)).
  rewrite (ltb_nan_l _ _ (zero_ratio_nan _ _ Ho Ht)). eauto.
Qed.

Lemma empty_history_passes_composite_witness :
  exists p,
    generateCreditworthyProof 1762128000000%float
      (sample_composite (sample_inputs 700%float 650%float)
         0%float 0%float 0%float 0%float 0%float 10000%float 100%float)
    = Ok p.
Proof.
  apply empty_history_passes_composite; reflexivity.
Defined.

(** *** Serialization for the chain *)




(** *** Proofs and their public inputs *)

(** What a threshold proof that was issued tells about its inputs. *)
Lemma generateZKProof_inv (inputs : ProofInputs.t) (p : string) :
  generateZKProof inputs = Ok p ->
  createCommitment (ProofInputs.score inputs) (ProofInputs.salt inputs)
  = Ok (ProofInputs.commitment inputs)
  /\ lt (ProofInputs.score inputs) (ProofInputs.minScore inputs) = false
  /\ p = serialize
        (proofData
           (generateProofElement (ProofInputs.score inputs) (ProofInputs.salt inputs) "a")
           (generateProofElement (ProofInputs.score inputs) (ProofInputs.salt inputs) "b")
           (generateProofElement (ProofInputs.score inputs) (ProofInputs.salt inputs) "c")
           "prove_score_threshold").
Proof.
  unfold generateZKProof.
  destruct (verifyCommitment_returns (ProofInputs.score inputs)
              (ProofInputs.salt inputs) (ProofInputs.commitment inputs)) as [b Hb].
  rewrite Hb. cbn [bind].
  destruct b; cbn [negb];
    [|intros H; exfalso; exact (Ok_not_Throw _ _ (eq_sym H))].
  apply verifyCommitment_true_iff in Hb.
  destruct (lt _ _); [intros H; exfalso; exact (Ok_not_Throw _ _ (eq_sym H))|].
  destruct (_ || _); [intros H; exfalso; exact (Ok_not_Throw _ _ (eq_sym H))|].
  intros H. apply Ok_inj in H. subst p. repeat split. exact Hb.
Qed.

(** The proof string says nothing of the pool, the nonce, the threshold or
    the time: two threshold proofs for the same score and salt have the
    same proof string and the same commitment, whatever their other
    inputs. *)
Theorem proof_string_unbound (now1 now2 : number) (i1 i2 : ProofInputs.t)
  (p1 p2 : GeneratedProof.t) :
  ProofInputs.score i1 = ProofInputs.score i2 ->
  ProofInputs.salt i1 = ProofInputs.salt i2 ->
  generateCompleteProof now1 i1 = Ok p1 ->
  generateCompleteProof now2 i2 = Ok p2 ->
  GeneratedProof.proof p1 = GeneratedProof.proof p2
  /\ GeneratedProof.commitment p1 = GeneratedProof.commitment p2.
Proof.
  intros Hs Hsalt. unfold generateCompleteProof.
  destruct (generateZKProof i1) as [s1|e1] eqn:E1; cbn [bind];
    [|intros H; exfalso; exact (Ok_not_Throw _ _ (eq_sym H))].
  destruct (generateZKProof i2) as [s2|e2] eqn:E2; cbn [bind];
    [|intros _ H; exfalso; exact (Ok_not_Throw _ _ (eq_sym H))].
  intros H1 H2. apply Ok_inj in H1, H2. subst p1 p2.
  cbn [GeneratedProof.proof GeneratedProof.commitment].
  split.
  - destruct (generateZKProof_inv i1 s1 E1) as (_ & _ & ->).
    destruct (generateZKProof_inv i2 s2 E2) as (_ & _ & ->).
    rewrite Hs, Hsalt. reflexivity.
  - destruct (generateZKProof_inv i1 s1 E1) as (C1 & _).
    destruct (generateZKProof_inv i2 s2 E2) as (C2 & _).
    rewrite Hs, Hsalt in C1. rewrite C1 in C2. now apply Ok_inj in C2.
Qed.

Lemma proof_string_unbound_witness :
  exists p2,
    generateCompleteProof 1762130000000%float
      {| ProofInputs.score := 700%float;
         ProofInputs.salt := sample_salt;
         ProofInputs.commitment := sample_commitment;
         ProofInputs.minScore := 600%float;
         ProofInputs.poolId := "defi-max";
         ProofInputs.nonce := 7%float |} = Ok p2
    /\ GeneratedProof.proof sample_proof = GeneratedProof.proof p2
    /\ GeneratedProof.commitment sample_proof = GeneratedProof.commitment p2.
Proof.
  eexists. split; [vm_compute; reflexivity|].
  apply (proof_string_unbound 1762128000000%float 1762130000000%float
           (sample_inputs 700%float 650%float)
           {| ProofInputs.score := 700%float;
              ProofInputs.salt := sample_salt;
              ProofInputs.commitment := sample_commitment;
              ProofInputs.minScore := 600%float;
              ProofInputs.poolId := "defi-max";
              ProofInputs.nonce := 7%float |});
    vm_compute; reflexivity.
Defined.

(** *** The payment history proof *)

Lemma zero_toString (x : number) : is_zero x = true -> Number_toString x = "0".
Proof.
  intros H. destruct (is_zero_spec x H) as [s Hs].
  assert (E : x = (if s then (-0)%float else 0%float)).
  { apply Prim2SF_inj. rewrite Hs. now destruct s. }
  subst x. now destruct s.
Qed.

(** With no payment at all the rate [0 / 0] is NaN and passes for every
    [minPaymentRate]; the count alone decides: the proof is refused when
    [0 < minPaymentCount] and issued otherwise. *)
Theorem empty_history_payment_proof (i : PaymentHistoryProofInputs.t) :
  is_zero (PaymentHistoryProofInputs.onTimePayments i) = true ->
  is_zero (PaymentHistoryProofInputs.totalPayments i) = true ->
  (lt (PaymentHistoryProofInputs.totalPayments i)
      (PaymentHistoryProofInputs.minPaymentCount i) = true ->
   generatePaymentHistoryProof i
   = throw ("Only 0 payments, minimum "
              ++ Number_toString (PaymentHistoryProofInputs.minPaymentCount i)
              ++ " required"))
  /\ (lt (PaymentHistoryProofInputs.totalPayments i)
         (PaymentHistoryProofInputs.minPaymentCount i) = false ->
      exists p, generatePaymentHistoryProof i = Ok p).
Proof.
  intros Ho Ht. unfold generatePaymentHistoryProof. cbv zeta.
  unfold lt at 1 3.
  rewrite (ltb_nan_l _ _ (zero_ratio_nan _ _ Ho Ht)).
  split; intros ->.
  - now rewrite (zero_toString _ Ht).
  - eauto.
Qed.

Lemma empty_history_payment_proof_witness :
  exists p,
    generatePaymentHistoryProof
      {| PaymentHistoryProofInputs.onTimePayments := 0%float;
         PaymentHistoryProofInputs.totalPayments := 0%float;
         PaymentHistoryProofInputs.historySalt := sample_salt;
         PaymentHistoryProofInputs.historyCommitment := "";
         PaymentHistoryProofInputs.minPaymentRate := 10000%float;
         PaymentHistoryProofInputs.minPaymentCount := 0%float;
         PaymentHistoryProofInputs.poolId := "usdc-prime";
         PaymentHistoryProofInputs.nonce := 1%float |} = Ok p.
Proof.
  apply empty_history_payment_proof; reflexivity.
Defined.

End ProofProperties.

(* ------------------------------------------------------------------ *)
(** ** The metrics aggregator *)

Module AggregatorProperties.
Import NumberFacts IntegerFacts Helius.
Local Open Scope Z_scope.

(** The sum [((0 + x1) + x2) + ...] of numbers, in the order of the loop. *)
Definition sum_from (acc : number) (xs : list number) : number :=
  fold_left PrimFloat.add xs acc.

Definition is_action (a : Action) (x : DeFiActivity.t) : bool :=
  match a, DeFiActivity.action x with
  | borrow, borrow | repay, repay => true
  | _, _ => false
  end.

(** The amounts of the activities with a given action. *)
Definition amounts_of (a : Action) (acts : list DeFiActivity.t) : list number :=
  List.map DeFiActivity.amount (List.filter (is_action a) acts).

Definition is_repay (onTime : bool) (x : DeFiActivity.t) : bool :=
  is_action repay x && Bool.eqb (truthy (DeFiActivity.onTime x)) onTime.

(** The number of repayments flagged on time ([true]) or not ([false]). *)
Definition count_repay (onTime : bool) (acts : list DeFiActivity.t) : Z :=
  Z.of_nat (List.length (List.filter (is_repay onTime) acts)).

Lemma step_sums (acts : list DeFiActivity.t) (st : loop_state) :
  let st' := fold_left step acts st in
  CreditMetrics.totalBorrowed (metrics st')
  = sum_from (CreditMetrics.totalBorrowed (metrics st)) (amounts_of borrow acts)
  /\ CreditMetrics.totalRepaid (metrics st')
     = sum_from (CreditMetrics.totalRepaid (metrics st)) (amounts_of repay acts)
  /\ totalValue st'
     = sum_from (totalValue st) (List.map DeFiActivity.amount acts)
  /\ CreditMetrics.defaults (metrics st') = CreditMetrics.defaults (metrics st)
  /\ CreditMetrics.oldestActivityDays (metrics st')
     = CreditMetrics.oldestActivityDays (metrics st)
  /\ CreditMetrics.totalTransactions (metrics st')
     = CreditMetrics.totalTransactions (metrics st)
  /\ CreditMetrics.utilizationHistory (metrics st')
     = CreditMetrics.utilizationHistory (metrics st).
Proof.
  revert st. induction acts as [|a acts IH]; intros st.
  - cbn. repeat split.
  - cbn [fold_left]. specialize (IH (step st a)). cbv zeta in IH |- *.
    destruct IH as (H1 & H2 & H3 & H4 & H5 & H6 & H7).
    rewrite H1, H2, H3, H4, H5, H6, H7.
    unfold amounts_of, step, account, with_protocol, is_action.
    cbn [List.filter List.map metrics totalValue].
    destruct (DeFiActivity.action a);
      cbn [List.map sum_from fold_left CreditMetrics.totalBorrowed
           CreditMetrics.totalRepaid CreditMetrics.defaults
           CreditMetrics.oldestActivityDays CreditMetrics.totalTransactions
           CreditMetrics.utilizationHistory];
      repeat split.
Qed.

Lemma length_number_zero {A : Type} (xs : list A) :
  Z.of_nat (List.length xs) < 2 ^ 53 ->
  strict_eq (length_number xs) 0%float = true -> xs = [].
Proof.
  intros Hlen. unfold strict_eq, length_number.
  change 0%float with (of_int 0). rewrite of_int_eqb by lia.
  intros H. apply Z.eqb_eq in H. destruct xs; [reflexivity | discriminate H].
Qed.

Lemma aggregator_defaults (now : number) (acts : list DeFiActivity.t) :
  Z.of_nat (List.length acts) < 2 ^ 53 ->
  CreditMetrics.defaults (calculateCreditMetrics now acts) = 0%float.
Proof.
  intros Hlen. unfold calculateCreditMetrics.
  destruct (strict_eq (length_number acts) 0%float) eqn:E.
  - apply (length_number_zero acts Hlen) in E. subst acts. reflexivity.
  - set (st0 := {| metrics := _; totalValue := 0%float |}).
    pose proof (step_sums acts st0) as Hs. cbv zeta in Hs.
    destruct Hs as (_ & _ & _ & H4 & _).
    cbn [CreditMetrics.defaults]. rewrite H4. reflexivity.
Qed.

(** What the aggregator returns, for an array (fewer than [2^32]
    elements): the transaction count is the length of the list; the
    borrowed and repaid totals are the sums of the borrow and repay
    amounts; nothing is ever counted as a default; without activity every
    field is zero (the average is 0, not [0 / 0]), and otherwise the
    average is the sum of all amounts over the count; the utilization
    history holds [(borrowed - repaid) / borrowed] when [borrowed > 0] and
    nothing otherwise. *)
Theorem aggregator_totals (now : number) (acts : list DeFiActivity.t) :
  Z.of_nat (List.length acts) < 2 ^ 32 ->
  let m := calculateCreditMetrics now acts in
  let borrowed := sum_from 0%float (amounts_of borrow acts) in
  let repaid := sum_from 0%float (amounts_of repay acts) in
  CreditMetrics.totalTransactions m = length_number acts
  /\ CreditMetrics.totalBorrowed m = borrowed
  /\ CreditMetrics.totalRepaid m = repaid
  /\ CreditMetrics.defaults m = 0%float
  /\ (acts = [] -> m = all_zero_metrics)
  /\ (acts <> [] ->
      CreditMetrics.averageTransactionValue m
      = (sum_from 0%float (List.map DeFiActivity.amount acts)
         / length_number acts)%float)
  /\ CreditMetrics.utilizationHistory m
     = (if gt borrowed 0%float then [((borrowed - repaid) / borrowed)%float]
        else []).
Proof.
  intros Hlen. cbv zeta.
  assert (Hlen' : Z.of_nat (List.length acts) < 2 ^ 53).
  { eapply Z.lt_trans; [exact Hlen | reflexivity]. }
  unfold calculateCreditMetrics.
  destruct (strict_eq (length_number acts) 0%float) eqn:E.
  - apply (length_number_zero acts Hlen') in E. subst acts.
    cbn. repeat split. intros H. now elim H.
  - set (st0 := {| metrics := _; totalValue := 0%float |}).
    pose proof (step_sums acts st0) as Hs. cbv zeta in Hs.
    destruct Hs as (H1 & H2 & H3 & H4 & H5 & H6 & H7).
    cbn [CreditMetrics.totalTransactions CreditMetrics.totalBorrowed
         CreditMetrics.totalRepaid CreditMetrics.defaults
         CreditMetrics.averageTransactionValue CreditMetrics.utilizationHistory].
    rewrite H1, H2, H3, H4, H6, H7. subst st0.
    cbn [metrics totalValue CreditMetrics.totalTransactions
         CreditMetrics.totalBorrowed CreditMetrics.totalRepaid
         CreditMetrics.defaults CreditMetrics.utilizationHistory].
    split; [reflexivity|]. split; [reflexivity|]. split; [reflexivity|].
    split; [reflexivity|]. split.
    { intros ->. discriminate E. }
    split; [reflexivity|].
    destruct (gt _ _); reflexivity.
Qed.


(** Three activities: a borrow of 1000, an on-time repayment of 400, and
    a repayment of 100 that carries no [onTime] flag. *)
Definition sample_activity (protocol : string) (a : Action) (amount : number)
  (onTime : option bool) : DeFiActivity.t :=
  {| DeFiActivity.signature := "sig";
     DeFiActivity.timestamp := 1760000000%float;
     DeFiActivity.protocol := protocol;
     DeFiActivity.action := a;
     DeFiActivity.amount := amount;
     DeFiActivity.token := "SOL";
     DeFiActivity.successful := true;
     DeFiActivity.onTime := onTime |}.

Definition sample_activities : list DeFiActivity.t :=
  [ sample_activity "KAMINO" borrow 1000%float None;
    sample_activity "KAMINO" repay 400%float (Some true);
    sample_activity "SOLEND" repay 100%float None ].

Lemma aggregator_totals_witness :
  let m := calculateCreditMetrics 1762128000000%float sample_activities in
  CreditMetrics.totalTransactions m = 3%float
  /\ CreditMetrics.totalBorrowed m = 1000%float
  /\ CreditMetrics.totalRepaid m = 500%float
  /\ CreditMetrics.defaults m = 0%float
  /\ CreditMetrics.averageTransactionValue m = 500%float
  /\ CreditMetrics.utilizationHistory m = [0.5%float].
Proof.
  assert (Hlen : Z.of_nat (List.length sample_activities) < 2 ^ 32)
    by (vm_compute; reflexivity).
  destruct (aggregator_totals 1762128000000%float sample_activities Hlen)
    as (H1 & H2 & H3 & H4 & _ & H6 & H7).
  cbv zeta. rewrite H1, H2, H3, H4, H6, H7 by discriminate.
  vm_compute. repeat split.
Defined.

(** *** Counting repayments *)

Lemma step_counts (acts : list DeFiActivity.t) (st : loop_state) (k l : Z) :
  0 <= k -> 0 <= l ->
  k + Z.of_nat (List.length acts) < 2 ^ 53 ->
  l + Z.of_nat (List.length acts) < 2 ^ 53 ->
  CreditMetrics.onTimePayments (metrics st) = of_int k ->
  CreditMetrics.latePayments (metrics st) = of_int l ->
  let st' := fold_left step acts st in
  CreditMetrics.onTimePayments (metrics st') = of_int (k + count_repay true acts)
  /\ CreditMetrics.latePayments (metrics st') = of_int (l + count_repay false acts).
Proof.
  revert st k l. induction acts as [|a acts IH]; intros st k l Hk Hl Hkn Hln Ek El.
  - cbn [fold_left]. unfold count_repay. cbn. now rewrite !Z.add_0_r.
  - cbn [fold_left List.length] in *. cbv zeta.
    unfold count_repay, is_repay, is_action. cbn [List.filter].
    destruct (DeFiActivity.action a) eqn:Ea; cbn [andb];
      try (apply IH; try lia;
           unfold step, account, with_protocol; rewrite Ea;
           cbn [metrics CreditMetrics.onTimePayments CreditMetrics.latePayments];
           assumption).
    destruct (truthy (DeFiActivity.onTime a)) eqn:Et; cbn [Bool.eqb List.length].
    + destruct (IH (step st a) (k + 1) l) as [H1 H2]; try lia.
      * unfold step, account, with_protocol. rewrite Ea, Et.
        cbn [metrics CreditMetrics.onTimePayments]. rewrite Ek.
        change 1%float with (of_int 1). apply of_int_add; lia.
      * unfold step, account, with_protocol. rewrite Ea, Et.
        cbn [metrics CreditMetrics.latePayments]. exact El.
      * cbv zeta in H1, H2. rewrite H1, H2. unfold count_repay, is_repay, is_action.
        split; f_equal; lia.
    + destruct (IH (step st a) k (l + 1)) as [H1 H2]; try lia.
      * unfold step, account, with_protocol. rewrite Ea, Et.
        cbn [metrics CreditMetrics.onTimePayments]. exact Ek.
      * unfold step, account, with_protocol. rewrite Ea, Et.
        cbn [metrics CreditMetrics.latePayments]. rewrite El.
        change 1%float with (of_int 1). apply of_int_add; lia.
      * cbv zeta in H1, H2. rewrite H1, H2. unfold count_repay, is_repay, is_action.
        split; f_equal; lia.
Qed.


Lemma aggregator_counters (now : number) (acts : list DeFiActivity.t) :
  Z.of_nat (List.length acts) < 2 ^ 53 ->
  CreditMetrics.onTimePayments (calculateCreditMetrics now acts)
  = of_int (count_repay true acts)
  /\ CreditMetrics.latePayments (calculateCreditMetrics now acts)
     = of_int (count_repay false acts).
Proof.
  intros Hlen. unfold calculateCreditMetrics.
  destruct (strict_eq (length_number acts) 0%float) eqn:E.
  - apply (length_number_zero acts Hlen) in E. subst acts. split; reflexivity.
  - set (st0 := {| metrics := _; totalValue := 0%float |}).
    destruct (step_counts acts st0 0 0) as [H1 H2];
      try lia; try reflexivity.
    cbn [CreditMetrics.onTimePayments CreditMetrics.latePayments].
    split; [exact H1 | exact H2].
Qed.

Lemma count_repay_bounds (b : bool) (acts : list DeFiActivity.t) :
  0 <= count_repay b acts <= Z.of_nat (List.length acts).
Proof.
  unfold count_repay. split; [lia|].
  apply Nat2Z.inj_le, filter_length_le.
Qed.

Lemma count_repay_sum (acts : list DeFiActivity.t) :
  count_repay true acts + count_repay false acts
  = Z.of_nat (List.length (List.filter (is_action repay) acts)).
Proof.
  unfold count_repay, is_repay.
  induction acts as [|a acts IH]; [reflexivity|].
  cbn [List.filter]. destruct (is_action repay a); cbn [andb]; [|exact IH].
  destruct (truthy (DeFiActivity.onTime a)); cbn [Bool.eqb List.length];
    rewrite ?Nat2Z.inj_succ in *; lia.
Qed.

(** The payment counters are exact: [onTimePayments] is the number of
    repayments whose [onTime] flag is true, [latePayments] the number of
    all other repayments (flag false or absent), and their sum, the total
    that the score engine divides by, is the number of repayments. *)
Theorem aggregator_counts (now : number) (acts : list DeFiActivity.t) :
  Z.of_nat (List.length acts) < 2 ^ 32 ->
  let m := calculateCreditMetrics now acts in
  CreditMetrics.onTimePayments m = of_int (count_repay true acts)
  /\ CreditMetrics.latePayments m = of_int (count_repay false acts)
  /\ (CreditMetrics.onTimePayments m + CreditMetrics.latePayments m
      + CreditMetrics.defaults m)%float
     = of_int (Z.of_nat (List.length (List.filter (is_action repay) acts))).
Proof.
  intros Hlen. cbv zeta.
  assert (Hlen' : Z.of_nat (List.length acts) < 2 ^ 53).
  { eapply Z.lt_trans; [exact Hlen | reflexivity]. }
  destruct (aggregator_counters now acts Hlen') as [H1 H2].
  rewrite H1, H2, (aggregator_defaults now acts Hlen').
  split; [reflexivity|]. split; [reflexivity|].
  pose proof (count_repay_bounds true acts).
  pose proof (count_repay_bounds false acts).
  change 0%float with (of_int 0).
  rewrite !of_int_add by lia.
  f_equal. rewrite <- count_repay_sum. lia.
Qed.

Lemma aggregator_counts_witness :
  let m := calculateCreditMetrics 1762128000000%float sample_activities in
  CreditMetrics.onTimePayments m = of_int 1
  /\ CreditMetrics.latePayments m = of_int 1
  /\ (CreditMetrics.onTimePayments m + CreditMetrics.latePayments m
      + CreditMetrics.defaults m)%float = of_int 2.
Proof.
  apply (aggregator_counts 1762128000000%float sample_activities).
  vm_compute. reflexivity.
Defined.

(** *** The protocol set *)

Lemma Set_add_In (x y : string) (s : list string) :
  In y (Set_add x s) <-> y = x \/ In y s.
Proof.
  unfold Set_add. destruct (existsb (String.eqb x) s) eqn:E.
  - split; [now right|]. intros [->|H]; [|exact H].
    apply existsb_exists in E. destruct E as (z & Hz & Hxz).
    apply String.eqb_eq in Hxz. now subst.
  - rewrite in_app_iff. cbn. intuition.
Qed.

Lemma Set_add_NoDup (x : string) (s : list string) :
  NoDup s -> NoDup (Set_add x s).
Proof.
  intros H. unfold Set_add. destruct (existsb (String.eqb x) s) eqn:E; [exact H|].
  apply NoDup_app; [exact H | repeat constructor; intros [] |].
  intros y Hy [Hyx|[]]. subst y.
  assert (existsb (String.eqb x) s = true); [|congruence].
  apply existsb_exists. exists x. split; [exact Hy | apply String.eqb_refl].
Qed.

Lemma step_protocols (acts : list DeFiActivity.t) (st : loop_state) :
  NoDup (CreditMetrics.uniqueProtocols (metrics st)) ->
  let ps := CreditMetrics.uniqueProtocols (metrics (fold_left step acts st)) in
  NoDup ps
  /\ forall p, In p ps <->
       In p (CreditMetrics.uniqueProtocols (metrics st))
       \/ In p (List.map DeFiActivity.protocol acts).
Proof.
  revert st. induction acts as [|a acts IH]; intros st Hnd.
  - cbn. split; [exact Hnd | intuition].
  - cbn [fold_left List.map]. cbv zeta.
    assert (Hu : CreditMetrics.uniqueProtocols (metrics (step st a))
                 = Set_add (DeFiActivity.protocol a)
                     (CreditMetrics.uniqueProtocols (metrics st))).
    { unfold step, account, with_protocol. cbn [metrics].
      destruct (DeFiActivity.action a); reflexivity. }
    destruct (IH (step st a)) as [H1 H2].
    { rewrite Hu. now apply Set_add_NoDup. }
    split; [exact H1|]. intros p. rewrite H2, Hu, Set_add_In. cbn [In].
    intuition.
Qed.

(** [uniqueProtocols] lists each protocol that occurs in the activities,
    once; so the diversity component counts distinct protocols, at most
    one per activity. *)
Theorem aggregator_protocols (now : number) (acts : list DeFiActivity.t) :
  Z.of_nat (List.length acts) < 2 ^ 32 ->
  let ps := CreditMetrics.uniqueProtocols (calculateCreditMetrics now acts) in
  NoDup ps
  /\ (forall p, In p ps <-> In p (List.map DeFiActivity.protocol acts))
  /\ (List.length ps <= List.length acts)%nat.
Proof.
  intros Hlen. cbv zeta.
  assert (Hlen' : Z.of_nat (List.length acts) < 2 ^ 53).
  { eapply Z.lt_trans; [exact Hlen | reflexivity]. }
  assert (H : NoDup (CreditMetrics.uniqueProtocols (calculateCreditMetrics now acts))
          /\ forall p,
               In p (CreditMetrics.uniqueProtocols (calculateCreditMetrics now acts))
               <-> In p (List.map DeFiActivity.protocol acts)).
  { unfold calculateCreditMetrics.
    destruct (strict_eq (length_number acts) 0%float) eqn:E.
    - apply (length_number_zero acts Hlen') in E. subst acts. cbn.
      split; [constructor | intuition].
    - set (st0 := {| metrics := _; totalValue := 0%float |}).
      destruct (step_protocols acts st0) as [H1 H2]; [constructor|].
      cbn [CreditMetrics.uniqueProtocols]. split; [exact H1|].
      intros p. rewrite H2. cbn. intuition. }
  destruct H as [H1 H2]. split; [exact H1|]. split; [exact H2|].
  rewrite <- (length_map DeFiActivity.protocol acts).
  apply NoDup_incl_length; [exact H1|]. intros p. apply H2.
Qed.

Lemma aggregator_protocols_witness :
  let ps := CreditMetrics.uniqueProtocols
              (calculateCreditMetrics 1762128000000%float sample_activities) in
  NoDup ps
  /\ (forall p, In p ps <-> In p (List.map DeFiActivity.protocol sample_activities))
  /\ (List.length ps <= List.length sample_activities)%nat.
Proof.
  apply (aggregator_protocols 1762128000000%float sample_activities).
  vm_compute. reflexivity.
Defined.

End AggregatorProperties.
(* ------------------------------------------------------------------ *)
(** ** Activity extraction *)

Module ParserProperties.
Import NumberFacts IntegerFacts Helius AggregatorProperties.
Local Open Scope string_scope.
Local Open Scope Z_scope.

(** [toLowerCase] on strings of ASCII characters. *)
Definition ascii_lower (c : ascii) : ascii :=
  let n := nat_of_ascii c in
  if Nat.leb 65 n && Nat.leb n 90 then ascii_of_nat (n + 32) else c.

Fixpoint lower (s : string) : string :=
  match s with
  | EmptyString => EmptyString
  | String c s' => String (ascii_lower c) (lower s')
  end.

Section Platform.
Variable toLowerCase : string -> string.
Variable parseFloat : string -> number.
Variable Math_pow : number -> number -> number.

Abbreviation parse := (parseActivityFromTransaction toLowerCase parseFloat Math_pow).
Abbreviation extract := (extractDeFiActivity toLowerCase parseFloat Math_pow).

Definition on_time_of (a : Action) : option bool :=
  match a with repay => Some true | _ => None end.

Definition extracted (a : Action) : bool :=
  match a with unstake | liquidate => false | _ => true end.


Lemma parse_shape (tx : EnhancedTransaction.t) (a : DeFiActivity.t) :
  parse tx = Some a ->
  exists act,
    a = activity parseFloat Math_pow tx
          (str_or (EnhancedTransaction.source tx) "Unknown") act (on_time_of act)
    /\ extracted act = true.
Proof.
  unfold parseActivityFromTransaction. cbv zeta.
  repeat match goal with
         | |- (if ?c then _ else _) = _ -> _ => destruct c
         end;
    intros H; try discriminate H; injection H as <-;
    match goal with
    | |- exists act, activity _ _ _ _ ?a _ = _ /\ _ =>
        exists a; split; reflexivity
    end.
Qed.







(** [onTime] is set exactly on repayments. *)
Definition flagged (a : DeFiActivity.t) : Prop :=
  DeFiActivity.onTime a = on_time_of (DeFiActivity.action a).

Lemma extract_from (txs : list EnhancedTransaction.t) (acc : list DeFiActivity.t) :
  let acts :=
    fold_left
      (fun activities tx =>
         match parse tx with
         | Some a => (activities ++ [a])%list
         | None => activities
         end) txs acc in
  (Forall flagged acc -> Forall flagged acts)
  /\ (List.length acts <= List.length acc + List.length txs)%nat.
Proof.
  revert acc. induction txs as [|tx txs IH]; intros acc; cbn [fold_left].
  - split; [trivial | cbn; lia].
  - destruct (parse tx) as [a|] eqn:E.
    + destruct (IH (acc ++ [a])%list) as [H1 H2]. cbv zeta in H1, H2. split.
      * intros Hacc. apply H1. apply Forall_app. split; [exact Hacc|].
        constructor; [|constructor].
        destruct (parse_shape tx a E) as (act & -> & _). reflexivity.
      * rewrite length_app in H2. cbn [List.length] in *. lia.
    + destruct (IH acc) as [H1 H2]. cbv zeta in H1, H2. split; [exact H1|].
      cbn [List.length]. lia.
Qed.

Lemma flagged_late (acts : list DeFiActivity.t) :
  Forall flagged acts -> count_repay false acts = 0.
Proof.
  intros H. unfold count_repay.
  replace (List.filter (is_repay false) acts) with (@nil DeFiActivity.t);
    [reflexivity|].
  induction H as [|a acts Ha _ IH]; [reflexivity|].
  cbn [List.filter]. rewrite <- IH.
  unfold is_repay, is_action, flagged in *.
  destruct (DeFiActivity.action a); cbn [andb]; try reflexivity.
  rewrite Ha. reflexivity.
Qed.

(** The metrics of extracted activities never hold a late payment or a
    default, and count every repayment as on time; the payment history
    component is therefore 50 (Fair) without a repayment and 100
    (Excellent, 35 weighted points) with one or more. *)
Theorem extracted_payment_history (now : number) (txs : list EnhancedTransaction.t) :
  Z.of_nat (List.length txs) < 2 ^ 32 ->
  let acts := extract txs in
  let m := calculateCreditMetrics now acts in
  let repayments := Z.of_nat (List.length (List.filter (is_action repay) acts)) in
  let c := CreditScore.calculatePaymentHistoryScore m in
  CreditMetrics.latePayments m = 0%float
  /\ CreditMetrics.defaults m = 0%float
  /\ CreditMetrics.onTimePayments m = of_int repayments
  /\ (repayments = 0 ->
      CreditScore.ComponentScore.score c = 50%float
      /\ CreditScore.ComponentScore.rating c = Fair)
  /\ (0 < repayments ->
      CreditScore.ComponentScore.score c = 100%float
      /\ CreditScore.ComponentScore.rating c = Excellent
      /\ CreditScore.ComponentScore.weighted c = 35%float).
Proof.
  intros Hlen. cbv zeta.
  set (acts := extract txs).
  destruct (extract_from txs []) as [Hflag Hle]. cbv zeta in Hflag, Hle.
  fold (extract txs) in Hflag, Hle. fold acts in Hflag, Hle.
  specialize (Hflag (Forall_nil _)). cbn [List.length Nat.add] in Hle.
  assert (Hlen' : Z.of_nat (List.length acts) < 2 ^ 53).
  { apply Z.le_lt_trans with (Z.of_nat (List.length txs)); [lia|].
    eapply Z.lt_trans; [exact Hlen | reflexivity]. }
  destruct (aggregator_counters now acts Hlen') as [H1 H2].
  pose proof (aggregator_defaults now acts Hlen') as H3.
  pose proof (count_repay_sum acts) as Hsum.
  pose proof (count_repay_bounds true acts) as Hb.
  rewrite (flagged_late acts Hflag) in H2, Hsum.
  rewrite Z.add_0_r in Hsum. rewrite Hsum in H1, Hb.
  set (k := Z.of_nat (List.length (List.filter (is_action repay) acts))) in *.
  split; [exact H2|]. split; [exact H3|]. split; [exact H1|].
  unfold CreditScore.calculatePaymentHistoryScore. cbv zeta.
  rewrite H1, H2, H3.
  change 0%float with (of_int 0).
  rewrite !of_int_add by lia. rewrite !Z.add_0_r.
  unfold strict_eq. rewrite of_int_eqb by lia.
  split.
  - intros ->. split; reflexivity.
  - intros Hk. destruct (Z.eqb_spec k 0) as [|_]; [lia|].
    rewrite of_int_div_self by lia.
    split; [reflexivity|]. split; reflexivity.
Qed.

End Platform.

(** A transaction described as repaying a loan, with no source. *)
Definition sample_tx (description : string) (lamports : number)
  : EnhancedTransaction.t :=
  {| EnhancedTransaction.signature := "5h6x";
     EnhancedTransaction.timestamp := 1760000000%float;
     EnhancedTransaction.type := Some "UNKNOWN";
     EnhancedTransaction.source := Some "";
     EnhancedTransaction.description := Some description;
     EnhancedTransaction.nativeTransfers :=
       Some [ {| NativeTransfer.fromUserAccount := "A";
                 NativeTransfer.toUserAccount := "B";
                 NativeTransfer.amount := lamports |} ];
     EnhancedTransaction.tokenTransfers := None;
     EnhancedTransaction.events := None |}.


Definition sample_transactions : list EnhancedTransaction.t :=
  [ sample_tx "Borrowed 2 SOL" 2000000000%float;
    sample_tx "Payback of 1 SOL" 1000000000%float;
    sample_tx "Minted an NFT" 5000%float;
    sample_tx "Repay 1 SOL to Solend" 1000000000%float ].

Lemma extracted_payment_history_witness :
  let m :=
    calculateCreditMetrics 1762128000000%float
      (extractDeFiActivity lower (fun _ => nan) (fun _ _ => nan)
         sample_transactions) in
  CreditMetrics.totalTransactions m = 3%float
  /\ CreditMetrics.onTimePayments m = of_int 2
  /\ CreditMetrics.latePayments m = 0%float
  /\ CreditScore.ComponentScore.score
       (CreditScore.calculatePaymentHistoryScore m) = 100%float.
Proof.
  assert (Hlen : Z.of_nat (List.length sample_transactions) < 2 ^ 32)
    by (vm_compute; reflexivity).
  destruct (extracted_payment_history lower (fun _ => nan) (fun _ _ => nan)
              1762128000000%float sample_transactions Hlen)
    as (H1 & _ & H3 & _ & H5).
  cbv zeta. split; [vm_compute; reflexivity|].
  split; [rewrite H3; vm_compute; reflexivity|]. split; [exact H1|].
  apply H5. vm_compute. reflexivity.
Defined.

End ParserProperties.
(* ------------------------------------------------------------------ *)
(** ** [JSON.parse]: what it consumes and the fuel it needs *)

Module JSONFacts.
Import Exn Text JSONParse.
Local Open Scope nat_scope.

Lemma skip_ws_length (s : Text.t) : List.length (skip_ws s) <= List.length s.
Proof.
  induction s as [|c s IH]; [cbn; lia|].
  cbn [skip_ws]. destruct (is_ws c); cbn [List.length]; lia.
Qed.

Lemma cons_unit_Some (u : Z) (r : option (Text.t * Text.t)) (str rest : Text.t) :
  cons_unit u r = Some (str, rest) ->
  exists str', r = Some (str', rest).
Proof.
  destruct r as [[s' r']|]; [|discriminate]. cbn. intros [= <- <-]. eauto.
Qed.

Lemma parse_string_shorter (n : nat) :
  forall (s str rest : Text.t),
    List.length s <= n ->
    parse_string s = Some (str, rest) -> List.length rest < List.length s.
Proof.
  induction n as [|n IH]; intros s str rest Hn H.
  - destruct s; [discriminate H | cbn in Hn; lia].
  - destruct s as [|c s1]; [discriminate H|]. cbn [parse_string] in H.
    cbn [List.length] in *.
    destruct (c =? 34)%Z; [injection H as <- <-; lia|].
    destruct (c <? 32)%Z; [discriminate H|].
    destruct (c =? 92)%Z.
    + destruct s1 as [|e s2]; [discriminate H|]. cbn [List.length] in *.
      destruct (e =? 117)%Z.
      * destruct s2 as [|h1 [|h2 [|h3 [|h4 s3]]]]; try discriminate H.
        destruct (hex4 h1 h2 h3 h4); [|discriminate H].
        apply cons_unit_Some in H. destruct H as [str' H].
        apply IH in H; cbn [List.length] in *; lia.
      * destruct (single_escape e); [|discriminate H].
        apply cons_unit_Some in H. destruct H as [str' H].
        apply IH in H; lia.
    + apply cons_unit_Some in H. destruct H as [str' H].
      apply IH in H; lia.
Qed.

Lemma digits_rest (s : Text.t) :
  forall (acc : Z) (n : nat) (m : Z) (k : nat) (r : Text.t),
    digits acc n s = (m, k, r) -> List.length r <= List.length s.
Proof.
  induction s as [|c s IH]; intros acc n m k r H; cbn [digits] in H.
  - injection H as <- <- <-. lia.
  - destruct (is_digit c).
    + apply IH in H. cbn [List.length]. lia.
    + injection H as <- <- <-. lia.
Qed.

Lemma parse_number_shorter (s : Text.t) (x : number) (rest : Text.t) :
  parse_number s = Some (x, rest) -> List.length rest < List.length s.
Proof.
  unfold parse_number.
  set (sign := match s with
               | c :: r => if (c =? 45)%Z then (true, r) else (false, s)
               | [] => (false, s)
               end).
  assert (Hs : List.length (snd sign) <= List.length s).
  { subst sign. destruct s as [|c r]; [cbn; lia|].
    destruct (c =? 45)%Z; cbn [snd List.length]; lia. }
  destruct sign as [negative s0]. cbn [snd] in Hs.
  set (int_part := match s0 with
                   | c :: r =>
                       if (c =? 48)%Z then Some (0%Z, r)
                       else if is_digit c
                            then let '(m, _, r') := digits 0 0 s0 in Some (m, r')
                            else None
                   | [] => None
                   end).
  assert (Hi : forall m1 s1, int_part = Some (m1, s1) ->
                             List.length s1 < List.length s0).
  { subst int_part. intros m1 s1. destruct s0 as [|c r]; [discriminate|].
    destruct (c =? 48)%Z; [intros [= <- <-]; cbn; lia|].
    destruct (is_digit c) eqn:Ed; [|discriminate].
    cbn [digits]. rewrite Ed.
    destruct (digits _ _ r) as [[m k] r'] eqn:E. intros [= <- <-].
    apply digits_rest in E. cbn [List.length]. lia. }
  destruct int_part as [[m1 s1]|]; [|discriminate].
  specialize (Hi m1 s1 eq_refl).
  set (frac := match s1 with
               | c :: r =>
                   if (c =? 46)%Z
                   then match digits m1 0 r with
                        | (_, O, _) => None
                        | (m2, n, r') => Some (m2, Z.of_nat n, r')
                        end
                   else Some (m1, 0%Z, s1)
               | [] => Some (m1, 0%Z, s1)
               end).
  assert (Hf : forall m2 n s2, frac = Some (m2, n, s2) ->
                               List.length s2 <= List.length s1).
  { subst frac. intros m2 n s2. destruct s1 as [|c r]; [intros [= <- <- <-]; lia|].
    destruct (c =? 46)%Z; [|intros [= <- <- <-]; lia].
    destruct (digits m1 0 r) as [[m k] r'] eqn:E.
    apply digits_rest in E.
    destruct k; [discriminate|]. intros [= <- <- <-]. cbn [List.length]. lia. }
  destruct frac as [[[m2 n] s2]|]; [|discriminate].
  specialize (Hf m2 n s2 eq_refl).
  set (exponent := match s2 with
                   | c :: r =>
                       if ((c =? 101) || (c =? 69))%Z
                       then
                         let '(minus, r1) :=
                           match r with
                           | d :: r' =>
                               if (d =? 45)%Z then (true, r')
                               else if (d =? 43)%Z then (false, r')
                               else (false, r)
                           | [] => (false, r)
                           end in
                         match digits 0 0 r1 with
                         | (_, O, _) => None
                         | (x, _, r2) => Some (if minus then (- x)%Z else x, r2)
                         end
                       else Some (0%Z, s2)
                   | [] => Some (0%Z, s2)
                   end).
  assert (He : forall x0 s3, exponent = Some (x0, s3) ->
                             List.length s3 <= List.length s2).
  { subst exponent. intros x0 s3. destruct s2 as [|c r]; [intros [= <- <-]; lia|].
    destruct ((c =? 101) || (c =? 69))%Z; [|intros [= <- <-]; lia].
    set (sg := match r with
               | d :: r' =>
                   if (d =? 45)%Z then (true, r')
                   else if (d =? 43)%Z then (false, r')
                   else (false, r)
               | [] => (false, r)
               end).
    assert (Hsg : List.length (snd sg) <= List.length r).
    { subst sg. destruct r as [|d r']; [cbn; lia|].
      destruct (d =? 45)%Z; [cbn; lia|].
      destruct (d =? 43)%Z; cbn; lia. }
    destruct sg as [minus r1]. cbn [snd] in Hsg.
    destruct (digits 0 0 r1) as [[m k] r2] eqn:E.
    apply digits_rest in E.
    destruct k; [discriminate|]. intros [= <- <-]. cbn [List.length]. lia. }
  destruct exponent as [[x0 s3]|]; [|discriminate].
  specialize (He x0 s3 eq_refl).
  intros [= <- <-]. lia.
Qed.

Lemma literal_shorter (word : Text.t) (v v' : value) (s rest : Text.t) :
  word <> [] ->
  literal word v s = Done v' rest -> List.length rest < List.length s.
Proof.
  intros Hw. unfold literal.
  destruct (list_eq_dec Z.eq_dec (firstn (List.length word) s) word) as [E|];
    [|discriminate].
  intros [= _ <-].
  assert (Hl : List.length (firstn (List.length word) s) = List.length word)
    by now rewrite E.
  rewrite length_firstn in Hl. rewrite length_skipn.
  destruct word; [now elim Hw|]. cbn [List.length] in *. lia.
Qed.

Lemma literal_fuel (word : Text.t) (v : value) (s : Text.t) :
  literal word v s <> OutOfFuel.
Proof.
  unfold literal. destruct (list_eq_dec _ _ _); discriminate.
Qed.

(** What a parser consumes: a result leaves less text than it was
    given. *)
Definition consumes {A : Type} (p : Text.t -> outcome A) : Prop :=
  forall s a rest, p s = Done a rest -> List.length rest < List.length s.

Lemma value_body_consumes elements members :
  consumes elements -> consumes members ->
  consumes (value_body elements members).
Proof.
  intros He Hm s v rest. unfold value_body.
  destruct s as [|c r]; [discriminate|]. cbn [List.length].
  destruct (c =? 34)%Z.
  { destruct (parse_string r) as [[str rest']|] eqn:E; [|discriminate].
    intros [= _ <-]. apply (parse_string_shorter _ _ _ _ (le_n _)) in E. lia. }
  destruct (c =? 91)%Z.
  { pose proof (skip_ws_length r) as Hr.
    destruct (skip_ws r) as [|d r']; [discriminate|]. cbn [List.length] in Hr.
    destruct (d =? 93)%Z; [intros [= _ <-]; lia|].
    destruct (elements (d :: r')) as [xs rest'| |] eqn:E; try discriminate.
    intros [= _ <-]. apply He in E. cbn [List.length] in E. lia. }
  destruct (c =? 123)%Z.
  { pose proof (skip_ws_length r) as Hr.
    destruct (skip_ws r) as [|d r']; [discriminate|]. cbn [List.length] in Hr.
    destruct (d =? 125)%Z; [intros [= _ <-]; lia|].
    destruct (members (d :: r')) as [xs rest'| |] eqn:E; try discriminate.
    intros [= _ <-]. apply He in E || apply Hm in E. cbn [List.length] in E. lia. }
  destruct (c =? 116)%Z.
  { intros H. apply literal_shorter in H; [exact H | discriminate]. }
  destruct (c =? 102)%Z.
  { intros H. apply literal_shorter in H; [exact H | discriminate]. }
  destruct (c =? 110)%Z.
  { intros H. apply literal_shorter in H; [exact H | discriminate]. }
  destruct (parse_number (c :: r)) as [[x rest']|] eqn:E; [|discriminate].
  intros [= _ <-]. apply parse_number_shorter in E. exact E.
Qed.

Lemma elements_body_consumes value_ elements :
  consumes value_ -> consumes elements ->
  consumes (elements_body value_ elements).
Proof.
  intros Hv He s vs rest. unfold elements_body.
  destruct (value_ s) as [v r1| |] eqn:E1; try discriminate.
  apply Hv in E1. pose proof (skip_ws_length r1) as H1.
  destruct (skip_ws r1) as [|d r]; [discriminate|]. cbn [List.length] in H1.
  destruct (d =? 44)%Z.
  { pose proof (skip_ws_length r) as H2.
    destruct (elements (skip_ws r)) as [xs rest'| |] eqn:E2; try discriminate.
    intros [= _ <-]. apply He in E2. lia. }
  destruct (d =? 93)%Z; [|discriminate].
  intros [= _ <-]. lia.
Qed.

Lemma members_body_consumes value_ members :
  consumes value_ -> consumes members ->
  consumes (members_body value_ members).
Proof.
  intros Hv Hm s ms rest. unfold members_body.
  destruct s as [|q r0]; [discriminate|]. cbn [List.length].
  destruct (q =? 34)%Z; [|discriminate].
  destruct (parse_string r0) as [[name r1]|] eqn:E0; [|discriminate].
  apply (parse_string_shorter _ _ _ _ (le_n _)) in E0.
  pose proof (skip_ws_length r1) as H1.
  destruct (skip_ws r1) as [|colon r2]; [discriminate|]. cbn [List.length] in H1.
  destruct (colon =? 58)%Z; [|discriminate].
  pose proof (skip_ws_length r2) as H2.
  destruct (value_ (skip_ws r2)) as [v r3| |] eqn:E1; try discriminate.
  apply Hv in E1. pose proof (skip_ws_length r3) as H3.
  destruct (skip_ws r3) as [|d r]; [discriminate|]. cbn [List.length] in H3.
  destruct (d =? 44)%Z.
  { pose proof (skip_ws_length r) as H4.
    destruct (members (skip_ws r)) as [xs rest'| |] eqn:E2; try discriminate.
    intros [= _ <-]. apply Hm in E2. lia. }
  destruct (d =? 125)%Z; [|discriminate].
  intros [= _ <-]. lia.
Qed.

Lemma parse_consumes (fuel : nat) :
  consumes (parse_value fuel) /\ consumes (parse_elements fuel)
  /\ consumes (parse_members fuel).
Proof.
  induction fuel as [|f (IHv & IHe & IHm)].
  - repeat split; intros s a rest H; discriminate H.
  - split; [|split].
    + now apply value_body_consumes.
    + now apply elements_body_consumes.
    + now apply members_body_consumes.
Qed.

(** The fuel [JSON.parse] starts with is never used up. *)
Lemma parse_fuel (fuel : nat) :
  (forall s, 2 * List.length s + 1 <= fuel -> parse_value fuel s <> OutOfFuel)
  /\ (forall s, 2 * List.length s + 2 <= fuel -> parse_elements fuel s <> OutOfFuel)
  /\ (forall s, 2 * List.length s + 2 <= fuel -> parse_members fuel s <> OutOfFuel).
Proof.
  induction fuel as [|f (IHv & IHe & IHm)].
  - repeat split; intros s H; lia.
  - destruct (parse_consumes f) as (Cv & Ce & Cm).
    split; [|split]; intros s Hf.
    + cbn [parse_value]. unfold value_body.
      destruct s as [|c r]; [discriminate|]. cbn [List.length] in Hf.
      destruct (c =? 34)%Z.
      { destruct (parse_string r) as [[str rest']|]; discriminate. }
      destruct (c =? 91)%Z.
      { pose proof (skip_ws_length r) as Hr.
        destruct (skip_ws r) as [|d r']; [discriminate|].
        destruct (d =? 93)%Z; [discriminate|].
        specialize (IHe (d :: r') ltac:(lia)).
        destruct (parse_elements f (d :: r')); [discriminate | discriminate | now elim IHe]. }
      destruct (c =? 123)%Z.
      { pose proof (skip_ws_length r) as Hr.
        destruct (skip_ws r) as [|d r']; [discriminate|].
        destruct (d =? 125)%Z; [discriminate|].
        specialize (IHm (d :: r') ltac:(lia)).
        destruct (parse_members f (d :: r')); [discriminate | discriminate | now elim IHm]. }
      destruct (c =? 116)%Z; [apply literal_fuel|].
      destruct (c =? 102)%Z; [apply literal_fuel|].
      destruct (c =? 110)%Z; [apply literal_fuel|].
      destruct (parse_number (c :: r)) as [[x rest']|]; discriminate.
    + cbn [parse_elements]. unfold elements_body.
      specialize (IHv s ltac:(lia)).
      destruct (parse_value f s) as [v r1| |] eqn:E1;
        [|discriminate|now elim IHv].
      apply Cv in E1. pose proof (skip_ws_length r1) as H1.
      destruct (skip_ws r1) as [|d r]; [discriminate|]. cbn [List.length] in H1.
      destruct (d =? 44)%Z.
      { pose proof (skip_ws_length r) as H2.
        specialize (IHe (skip_ws r) ltac:(lia)).
        destruct (parse_elements f (skip_ws r));
          [discriminate | discriminate | now elim IHe]. }
      destruct (d =? 93)%Z; discriminate.
    + cbn [parse_members]. unfold members_body.
      destruct s as [|q r0]; [discriminate|]. cbn [List.length] in Hf.
      destruct (q =? 34)%Z; [|discriminate].
      destruct (parse_string r0) as [[name r1]|] eqn:E0; [|discriminate].
      apply (parse_string_shorter _ _ _ _ (le_n _)) in E0.
      pose proof (skip_ws_length r1) as H1.
      destruct (skip_ws r1) as [|colon r2]; [discriminate|]. cbn [List.length] in H1.
      destruct (colon =? 58)%Z; [|discriminate].
      pose proof (skip_ws_length r2) as H2.
      specialize (IHv (skip_ws r2) ltac:(lia)).
      destruct (parse_value f (skip_ws r2)) as [v r3| |] eqn:E1;
        [|discriminate|now elim IHv].
      apply Cv in E1. pose proof (skip_ws_length r3) as H3.
      destruct (skip_ws r3) as [|d r]; [discriminate|]. cbn [List.length] in H3.
      destruct (d =? 44)%Z.
      { pose proof (skip_ws_length r) as H4.
        specialize (IHm (skip_ws r) ltac:(lia)).
        destruct (parse_members f (skip_ws r));
          [discriminate | discriminate | now elim IHm]. }
      destruct (d =? 125)%Z; discriminate.
Qed.

Lemma parse_never_out_of_fuel (text : Text.t) :
  parse_value (2 * List.length text + 2) (skip_ws text) <> OutOfFuel.
Proof.
  apply parse_fuel. pose proof (skip_ws_length text). lia.
Qed.

End JSONFacts.

(* ------------------------------------------------------------------ *)
(** ** The structure check on proofs *)

Module StructureProperties.
Import NumberFacts Bytes Exn Noble ZkProof CommitmentProperties ProofProperties.
Import Text JSONParse.
Local Open Scope string_scope.
Local Open Scope Z_scope.

(** *** Text without escapes *)

(** A character that [JSON.stringify] writes as it is and that is one
    byte of UTF-8. *)
Definition plain (c : ascii) : bool :=
  let n := Z.of_nat (nat_of_ascii c) in
  (32 <=? n) && negb (n =? 34) && negb (n =? 92) && (n <? 128).

(** A character of ASCII: one byte of UTF-8, one code unit. *)
Definition ascii7 (c : ascii) : bool := Z.of_nat (nat_of_ascii c) <? 128.

Definition unit_of (c : ascii) : Z := Z.of_nat (nat_of_ascii c).

Lemma plain_ascii7 (c : ascii) : plain c = true -> ascii7 c = true.
Proof.
  unfold plain, ascii7. intros H. now apply andb_prop in H.
Qed.

Lemma units_cons (c : ascii) (s : string) :
  units (String c s) = unit_of c :: units s.
Proof. reflexivity. Qed.

Lemma units_app (s1 s2 : string) : units (s1 ++ s2) = (units s1 ++ units s2)%list.
Proof.
  induction s1 as [|c s1 IH]; [reflexivity|].
  cbn [append]. rewrite !units_cons, IH. reflexivity.
Qed.

Lemma units_length (s : string) : List.length (units s) = String.length s.
Proof.
  induction s as [|c s IH]; [reflexivity|].
  rewrite units_cons. cbn [List.length String.length]. now rewrite IH.
Qed.

Lemma all_chars_weaken (P Q : ascii -> bool) (s : string) :
  (forall c, P c = true -> Q c = true) ->
  all_chars P s = true -> all_chars Q s = true.
Proof.
  intros HPQ. induction s as [|c s IH]; [reflexivity|].
  cbn [all_chars]. intros H. apply andb_prop in H. destruct H as [Hc Hs].
  now rewrite (HPQ c Hc), (IH Hs).
Qed.

Lemma lower_hex_plain (c : ascii) : is_lower_hex c = true -> plain c = true.
Proof.
  destruct c as [[] [] [] [] [] [] [] []]; intros H; try discriminate H; reflexivity.
Qed.

Lemma escape_char_plain (c : ascii) :
  plain c = true -> JSON.escape_char c = String c EmptyString.
Proof.
  destruct c as [[] [] [] [] [] [] [] []]; intros H; try discriminate H; reflexivity.
Qed.

Lemma escape_plain (s : string) : all_chars plain s = true -> JSON.escape s = s.
Proof.
  induction s as [|c s IH]; [reflexivity|].
  cbn [all_chars JSON.escape]. intros H. apply andb_prop in H. destruct H as [Hc Hs].
  now rewrite (escape_char_plain c Hc), (IH Hs).
Qed.

Lemma parse_string_step (c : ascii) (s : Text.t) :
  plain c = true ->
  parse_string (unit_of c :: s) = cons_unit (unit_of c) (parse_string s).
Proof.
  destruct c as [[] [] [] [] [] [] [] []]; intros H; try discriminate H; reflexivity.
Qed.

Lemma parse_string_plain (s : string) (rest : Text.t) :
  all_chars plain s = true ->
  parse_string (units s ++ 34 :: rest)%list = Some (units s, rest).
Proof.
  induction s as [|c s IH]; [reflexivity|].
  cbn [all_chars]. intros H. apply andb_prop in H. destruct H as [Hc Hs].
  rewrite units_cons. cbn [List.app].
  now rewrite (parse_string_step c _ Hc), (IH Hs).
Qed.

(** *** Decoding what was encoded *)

Lemma to_Z_byte (c : ascii) : Bytes.to_Z (byte_of_ascii c) = unit_of c.
Proof. destruct c as [[] [] [] [] [] [] [] []]; reflexivity. Qed.

Lemma utf8_run_ascii (s : string) :
  all_chars ascii7 s = true ->
  utf8_run utf8_initial (List.map Bytes.to_Z (TextEncoder_encode s)) = units s.
Proof.
  unfold TextEncoder_encode.
  induction s as [|c s IH]; [reflexivity|].
  cbn [all_chars]. intros H. apply andb_prop in H. destruct H as [Hc Hs].
  unfold list_byte_of_string in *.
  cbn [list_ascii_of_string List.map utf8_run]. rewrite to_Z_byte, units_cons.
  rewrite <- (IH Hs). clear IH Hs.
  destruct c as [[] [] [] [] [] [] [] []]; try discriminate Hc; reflexivity.
Qed.

Lemma utf16_ascii (s : string) :
  all_chars ascii7 s = true -> List.flat_map utf16 (units s) = units s.
Proof.
  induction s as [|c s IH]; [reflexivity|].
  cbn [all_chars]. intros H. apply andb_prop in H. destruct H as [Hc Hs].
  rewrite units_cons. cbn [List.flat_map]. rewrite (IH Hs). clear IH Hs.
  destruct c as [[] [] [] [] [] [] [] []]; try discriminate Hc; reflexivity.
Qed.

Lemma decode_encode (s : string) :
  all_chars ascii7 s = true ->
  TextDecoder_decode (TextEncoder_encode s) = units s.
Proof.
  intros H. unfold TextDecoder_decode. rewrite (utf8_run_ascii s H).
  destruct s as [|c s]; [reflexivity|].
  rewrite units_cons.
  assert (Hc : ascii7 c = true).
  { cbn [all_chars] in H. now apply andb_prop in H. }
  assert (E : (unit_of c =? 65279) = false).
  { destruct c as [[] [] [] [] [] [] [] []]; try discriminate Hc; reflexivity. }
  rewrite E, <- units_cons. now apply utf16_ascii.
Qed.


(** *** Parsing what was written *)

Lemma units_quote (s : string) :
  all_chars plain s = true ->
  units (JSON.quote s) = (34 :: units s ++ [34])%list.
Proof.
  intros H. unfold JSON.quote. rewrite (escape_plain s H).
  rewrite units_cons, units_app. reflexivity.
Qed.

(** A member whose value is a string, as [JSON.stringify] writes it. *)
Definition string_member (kv : string * string) : string :=
  JSON.quote (fst kv) ++ ":" ++ JSON.quote (snd kv).

Definition plain_field (kv : string * string) : bool :=
  all_chars plain (fst kv) && all_chars plain (snd kv).

Definition embed (kv : string * string) : Text.t * value :=
  (units (fst kv), VString (units (snd kv))).

Lemma units_string_member (kv : string * string) (tail : Text.t) :
  plain_field kv = true ->
  (units (string_member kv) ++ tail)%list
  = (34 :: units (fst kv) ++ 34 :: 58 :: 34 :: units (snd kv) ++ 34 :: tail)%list.
Proof.
  intros H. apply andb_prop in H. destruct H as [Hk Hv].
  unfold string_member. rewrite !units_app, (units_quote _ Hk), (units_quote _ Hv).
  cbn [List.app]. rewrite <- !app_assoc. cbn [List.app].
  rewrite <- !app_assoc. reflexivity.
Qed.

Lemma parse_value_string (f : nat) (s : string) (rest : Text.t) :
  all_chars plain s = true ->
  parse_value (S f) (34 :: units s ++ 34 :: rest)%list = Done (VString (units s)) rest.
Proof.
  intros H. cbn [parse_value]. unfold value_body.
  change (34 =? 34) with true. cbv iota.
  now rewrite (parse_string_plain s rest H).
Qed.

(** A member written by [JSON.stringify], followed by a comma or by the
    closing brace. *)
Lemma member_step (kv : string * string) (f : nat) (d : Z) (rest : Text.t) :
  plain_field kv = true ->
  is_ws d = false ->
  parse_members (S (S f)) (units (string_member kv) ++ d :: rest)%list
  = if d =? 44 then
      match parse_members (S f) (skip_ws rest) with
      | Done ms rest' => Done (embed kv :: ms) rest'
      | SyntaxError => SyntaxError
      | OutOfFuel => OutOfFuel
      end
    else if d =? 125 then Done [embed kv] rest
    else SyntaxError.
Proof.
  intros H Hd. rewrite (units_string_member kv _ H).
  apply andb_prop in H. destruct H as [Hk Hv].
  change (parse_members (S (S f)))
    with (members_body (parse_value (S f)) (parse_members (S f))).
  unfold members_body.
  change (34 =? 34) with true. cbv iota.
  rewrite (parse_string_plain _ _ Hk).
  change (skip_ws (58 :: ?x)) with (58 :: x). cbv iota beta.
  change (58 =? 58) with true. cbv iota.
  change (skip_ws (34 :: ?x)) with (34 :: x).
  rewrite (parse_value_string f _ _ Hv).
  cbn [skip_ws]. rewrite Hd. reflexivity.
Qed.

(** The members of an object of strings, as [JSON.stringify] writes
    them. *)
Definition members_text (fields : list (string * string)) : string :=
  JSON.join "," (List.map string_member fields).

Lemma members_text_cons (kv kv' : string * string) (l : list (string * string)) :
  members_text (kv :: kv' :: l) = string_member kv ++ "," ++ members_text (kv' :: l).
Proof. reflexivity. Qed.

Lemma members_text_starts (kv : string * string) (l : list (string * string))
  (tail : Text.t) :
  skip_ws (units (members_text (kv :: l)) ++ tail)%list
  = (units (members_text (kv :: l)) ++ tail)%list.
Proof.
  destruct l; [change (members_text [kv]) with (string_member kv)
              | rewrite members_text_cons];
    unfold string_member, JSON.quote; reflexivity.
Qed.

Lemma members_plain (fields : list (string * string)) :
  forall (f : nat) (d : Z) (rest : Text.t),
    fields <> [] ->
    forallb plain_field fields = true ->
    is_ws d = false ->
    parse_members (S (List.length fields + f))
      (units (members_text fields) ++ d :: rest)%list
    = if d =? 44 then
        match parse_members (S f) (skip_ws rest) with
        | Done ms rest' => Done (List.map embed fields ++ ms)%list rest'
        | SyntaxError => SyntaxError
        | OutOfFuel => OutOfFuel
        end
      else if d =? 125 then Done (List.map embed fields) rest
      else SyntaxError.
Proof.
  induction fields as [|kv fields IH]; intros f d rest Hne Hp Hd; [now elim Hne|].
  cbn [forallb] in Hp. apply andb_prop in Hp. destruct Hp as [Hkv Hp].
  destruct fields as [|kv' fields].
  - change (members_text [kv]) with (string_member kv).
    cbn [List.map List.length Nat.add List.app].
    rewrite (member_step kv f d rest Hkv Hd).
    destruct (d =? 44); [|reflexivity].
    destruct (parse_members (S f) (skip_ws rest)); reflexivity.
  - rewrite members_text_cons, !units_app, <- app_assoc.
    change (units ",") with [44].
    change (([44] ++ ?x) ++ ?y)%list with (44 :: (x ++ y))%list.
    change (List.length (kv :: kv' :: fields) + f)%nat
      with (S (List.length (kv' :: fields) + f)).
    rewrite (member_step kv _ 44 _ Hkv eq_refl).
    change (44 =? 44) with true. cbv iota.
    rewrite members_text_starts.
    rewrite (IH f d rest ltac:(discriminate) Hp Hd).
    cbn [List.map List.app].
    destruct (d =? 44).
    + destruct (parse_members (S f) (skip_ws rest)); reflexivity.
    + destruct (d =? 125); reflexivity.
Qed.

Lemma quote_ascii7 (s : string) :
  all_chars plain s = true -> all_chars ascii7 (JSON.quote s) = true.
Proof.
  intros H. unfold JSON.quote. rewrite (escape_plain s H).
  cbn [all_chars]. rewrite all_chars_append.
  now rewrite (all_chars_weaken plain ascii7 s plain_ascii7 H).
Qed.

Lemma string_member_ascii7 (kv : string * string) :
  plain_field kv = true -> all_chars ascii7 (string_member kv) = true.
Proof.
  intros H. apply andb_prop in H. destruct H as [Hk Hv].
  unfold string_member. rewrite !all_chars_append.
  now rewrite (quote_ascii7 _ Hk), (quote_ascii7 _ Hv).
Qed.

Lemma members_text_ascii7 (fields : list (string * string)) :
  forallb plain_field fields = true ->
  all_chars ascii7 (members_text fields) = true.
Proof.
  induction fields as [|kv fields IH]; [reflexivity|].
  cbn [forallb]. intros H. apply andb_prop in H. destruct H as [Hkv Hp].
  destruct fields as [|kv' fields].
  - now apply string_member_ascii7.
  - rewrite members_text_cons, !all_chars_append.
    now rewrite (string_member_ascii7 kv Hkv), (IH Hp).
Qed.

Lemma members_text_length (fields : list (string * string)) :
  (List.length fields <= String.length (members_text fields))%nat.
Proof.
  induction fields as [|kv fields IH]; [cbn; lia|].
  destruct fields as [|kv' fields].
  - unfold members_text, string_member, JSON.quote. cbn. lia.
  - rewrite members_text_cons, !length_append.
    cbn [List.length] in *. unfold string_member at 1, JSON.quote at 1.
    cbn [String.length append]. lia.
Qed.

(** An object of strings, as [JSON.stringify] writes it. *)
Definition object_text (fields : list (string * string)) : string :=
  "{" ++ members_text fields ++ "}".

Lemma members_text_head (kv : string * string) (l : list (string * string))
  (tail : Text.t) :
  exists r, (units (members_text (kv :: l)) ++ tail)%list = 34 :: r.
Proof.
  destruct l; [change (members_text [kv]) with (string_member kv)
              | rewrite members_text_cons];
    unfold string_member, JSON.quote; eexists; reflexivity.
Qed.

Lemma parse_braces (F : nat) (kv : string * string) (l : list (string * string))
  (tail : Text.t) :
  parse_value (S F) (123 :: units (members_text (kv :: l)) ++ tail)%list
  = match parse_members F (units (members_text (kv :: l)) ++ tail)%list with
    | Done ms rest => Done (VObject ms) rest
    | SyntaxError => SyntaxError
    | OutOfFuel => OutOfFuel
    end.
Proof.
  cbn [parse_value]. unfold value_body.
  change (123 =? 34) with false. change (123 =? 91) with false.
  change (123 =? 123) with true. cbv iota.
  rewrite members_text_starts.
  destruct (members_text_head kv l tail) as [r ->]. reflexivity.
Qed.

Lemma parse_object (fields : list (string * string)) :
  fields <> [] ->
  forallb plain_field fields = true ->
  parse (units (object_text fields)) = Ok (VObject (List.map embed fields)).
Proof.
  intros Hne Hp. destruct fields as [|kv l]; [now elim Hne|].
  unfold parse, object_text.
  rewrite !units_app. change (units "{") with [123].
  change (units "}") with [125]. cbn [List.app].
  change (skip_ws (123 :: ?x)) with (123 :: x).
  set (L := List.length (123 :: units (members_text (kv :: l)) ++ [125])%list).
  assert (HL : (List.length (kv :: l) <= L)%nat).
  { subst L. cbn [List.length]. rewrite length_app, units_length.
    pose proof (members_text_length (kv :: l)). cbn [List.length] in *. lia. }
  replace (2 * L + 2)%nat
    with (S (S (List.length (kv :: l) + (2 * L - List.length (kv :: l)))))
    by lia.
  rewrite parse_braces, (members_plain (kv :: l) _ 125 [] Hne Hp eq_refl).
  reflexivity.
Qed.






(** *** The structure check *)

(** The members of [proofData(pi_a, pi_b, pi_c, circuit)]. *)
Definition proof_fields (a b c circuit : string) : list (string * string) :=
  [ ("pi_a", a); ("pi_b", b); ("pi_c", c); ("protocol", "noir");
    ("circuit", circuit) ].

Lemma stringify_proofData (a b c circuit : string) :
  JSON.stringify (proofData a b c circuit)
  = object_text (proof_fields a b c circuit).
Proof. reflexivity. Qed.

Lemma object_text_ascii7 (fields : list (string * string)) :
  forallb plain_field fields = true ->
  all_chars ascii7 (object_text fields) = true.
Proof.
  intros H. unfold object_text. rewrite !all_chars_append.
  now rewrite (members_text_ascii7 fields H).
Qed.

Lemma units_nonempty (s : string) :
  s <> "" -> exists u us, units s = u :: us.
Proof.
  destruct s as [|c s]; [intros H; now elim H|]. intros _.
  rewrite units_cons. eauto.
Qed.

(** The check run on a proof object with non-empty elements: only the
    circuit is left to decide. *)
Lemma verify_proofData (a b c circuit : string) :
  all_chars plain a = true -> all_chars plain b = true ->
  all_chars plain c = true -> all_chars plain circuit = true ->
  a <> "" -> b <> "" -> c <> "" ->
  verifyProofStructure (serialize (proofData a b c circuit))
  = Ok (is_string (Some (VString (units circuit)))
          (units "prove_score_threshold")).
Proof.
  intros Ha Hb Hc Hcirc Na Nb Nc.
  assert (Hp : forallb plain_field (proof_fields a b c circuit) = true).
  { unfold proof_fields, plain_field. cbn [forallb fst snd].
    rewrite Ha, Hb, Hc, Hcirc. reflexivity. }
  unfold verifyProofStructure, serialize.
  rewrite hexToBytes_bytesToHex. cbn [bind].
  rewrite stringify_proofData.
  rewrite (decode_encode _ (object_text_ascii7 _ Hp)).
  assert (Hne : proof_fields a b c circuit <> []) by discriminate.
  rewrite (parse_object _ Hne Hp). cbn [bind].
  destruct (units_nonempty a Na) as (ua & ra & Ea).
  destruct (units_nonempty b Nb) as (ub & rb & Eb).
  destruct (units_nonempty c Nc) as (uc & rc & Ec).
  unfold proof_fields. cbn [List.map]. unfold embed. cbn [fst snd].
  rewrite Ea, Eb, Ec.
  reflexivity.
Qed.


Lemma element_plain (x : number) (salt suffix : string) :
  all_chars plain (generateProofElement x salt suffix) = true
  /\ generateProofElement x salt suffix <> "".
Proof.
  unfold generateProofElement. cbv zeta. split.
  - apply (all_chars_weaken is_lower_hex plain _ lower_hex_plain).
    apply bytesToHex_lower.
  - intros E.
    pose proof (bytesToHex_length
                  (sha256 (TextEncoder_encode
                             (Number_toString x ++ "-" ++ salt ++ "-" ++ suffix))))
      as Hl.
    rewrite E, sha256_length in Hl. cbn in Hl. lia.
Qed.

(** [verifyProofStructure] passes every threshold proof that
    [generateZKProof], and so [generateCompleteProof], returns. *)
Theorem threshold_proofs_pass (now : number) (inputs : ProofInputs.t) :
  (forall s, generateZKProof inputs = Ok s -> verifyProofStructure s = Ok true)
  /\ (forall p, generateCompleteProof now inputs = Ok p ->
      verifyProofStructure (GeneratedProof.proof p) = Ok true).
Proof.
  assert (H : forall s, generateZKProof inputs = Ok s ->
                        verifyProofStructure s = Ok true).
  { intros s Hs. destruct (generateZKProof_inv inputs s Hs) as (_ & _ & ->).
    destruct (element_plain (ProofInputs.score inputs) (ProofInputs.salt inputs) "a").
    destruct (element_plain (ProofInputs.score inputs) (ProofInputs.salt inputs) "b").
    destruct (element_plain (ProofInputs.score inputs) (ProofInputs.salt inputs) "c").
    now rewrite verify_proofData. }
  split; [exact H|].
  intros p Hp. unfold generateCompleteProof in Hp.
  destruct (generateZKProof inputs) as [s|e]; [|discriminate Hp].
  cbn [bind] in Hp. apply Ok_inj in Hp. subst p.
  cbn [GeneratedProof.proof]. now apply H.
Qed.

Lemma threshold_proofs_pass_witness :
  verifyProofStructure (GeneratedProof.proof sample_proof) = Ok true.
Proof.
  apply (proj2 (threshold_proofs_pass 1762128000000%float
                  (sample_inputs 700%float 650%float)) sample_proof).
  vm_compute. reflexivity.
Defined.



End StructureProperties.
